(** * vs-dfttest2, CPU back end: a shallow embedding of [cpu_source/source.cpp]

    The development covers the padding arithmetic ([calc_pad_size],
    [calc_pad_num]), [reflection_padding_impl], the block codec
    ([load_block], [store_block]), [store_frame], the filter set-up
    [DFTTestCreate], the per-frame driver [DFTTestGetFrame], the O(n^2)
    transform [dft] and the [RDFT] utility built on it.  Definitions
    come first, the properties after them.

    Conventions.
    - A C++ [int] is a [Z]; [/] and [%] truncate towards zero
      ([Z.quot], [Z.rem]) and fault on a zero divisor, so every function
      that divides lives in the [option] monad ([None] is the fault).
      Signed overflow is undefined in C++, and compiled code reduces the
      result to 32 bits.  The per-frame functions are written with the
      arithmetic of [Z]; [calc_pad_size_int], [calc_pad_num_int] and
      [padded_size_int] give the 32-bit evaluation of the sizes, and
      they agree with the [Z] versions as long as the sample buffer of
      a plane fits an [int] ([sizes_fit_int], [sizes_fit_int_exact]).
      [RDFT] multiplies the shape in 32 bits.
    - A pointer is an array (a total map from [Z] offsets to cells)
      together with the offset it points at; [&a[k]] is [shift a k].
    - A [float] is an IEEE-754 binary32 value and a [double] a binary64
      value, both as [spec_float] with round-to-nearest-even arithmetic.
      The flush-to-zero control word set by [no_subnormals()] only
      changes operations that consume or produce subnormal numbers and
      is not part of the model. *)

From Stdlib Require Import ZArith List Bool Lia Znumtheory String.
From Stdlib Require Import Floats.SpecFloat.
From Stdlib Require Import QArith.
Import ListNotations.

Local Open Scope Z_scope.

(* ================================================================== *)
(** ** C integer arithmetic and the fault monad                        *)
(* ================================================================== *)

Module CInt.

Definition INT_MAX : Z := 2147483647.
Definition INT_MIN : Z := -2147483648.

(** [a / b] on [int]. *)
Definition c_div (a b : Z) : option Z :=
    if b =? 0 then None else Some (Z.quot a b).

(** [a % b] on [int]. *)
Definition c_rem (a b : Z) : option Z :=
    if b =? 0 then None else Some (Z.rem a b).

(** [std::clamp(v, lo, hi)]. *)
Definition clamp (v lo hi : Z) : Z :=
    if v <? lo then lo else if hi <? v then hi else v.

(** [int64ToIntS] of VSHelper.h: saturating conversion to [int]. *)
Definition int64ToIntS (i : Z) : Z :=
    if INT_MAX <? i then INT_MAX
    else if i <? INT_MIN then INT_MIN
    else i.

(** The value an [int] operation leaves when its mathematical result
    is [z]: the low 32 bits, read as two's complement. *)
Definition wrap (z : Z) : Z := (z + 2 ^ 31) mod 2 ^ 32 - 2 ^ 31.

(** [a + b], [a - b] and [a * b] on [int]. *)
Definition int_add (a b : Z) : Z := wrap (a + b).
Definition int_sub (a b : Z) : Z := wrap (a - b).
Definition int_mul (a b : Z) : Z := wrap (a * b).

(** [a / b] on [int]; [INT_MIN / -1] traps like a division by zero. *)
Definition int_div (a b : Z) : option Z :=
    if b =? 0 then None
    else if (a =? INT_MIN) && (b =? -1) then None
    else Some (Z.quot a b).

(** Whether [z] is the value of an [int]. *)
Definition fits_int (z : Z) : bool := (INT_MIN <=? z) && (z <=? INT_MAX).

Definition bind {A B : Type} (o : option A) (k : A -> option B) : option B :=
    match o with
    | Some a => k a
    | None => None
    end.

End CInt.
Export CInt.

Notation "x <- e ;; k" := (bind e (fun x => k))
  (at level 61, e at next level, right associativity).

(* ================================================================== *)
(** ** Arrays, pointers and counted loops                              *)
(* ================================================================== *)

Section Memory.
Context {T : Type}.

(** An array of [T] cells addressed by element offset. *)
Definition mem := Z -> T.

(** [a[k] = v]. *)
Definition upd (a : mem) (k : Z) (v : T) : mem :=
    fun i => if i =? k then v else a i.

(** The array seen through the pointer [&a[base]]. *)
Definition shift (a : mem) (base : Z) : mem :=
    fun i => a (base + i).

(** The whole array again, after a callee has worked on [&a[base]]. *)
Definition unshift (view : mem) (base : Z) : mem :=
    fun i => view (i - base).

(** [std::memcpy(&a[dst], &a[src], n * sizeof(T))] on disjoint ranges. *)
Definition memcpy (a : mem) (dst src n : Z) : mem :=
    fun i => if (dst <=? i) && (i <? dst + n) then a (src + (i - dst)) else a i.

(** [std::memset(&a[0], 0, n * sizeof(T))], [z] being the all-zero cell. *)
Definition memset (a : mem) (z : T) (n : Z) : mem :=
    fun i => if (0 <=? i) && (i <? n) then z else a i.

(** A C array held as a list; cells out of range read as [dflt]. *)
Definition arr (dflt : T) (l : list T) : mem :=
    fun i => if i <? 0 then dflt else nth (Z.to_nat i) l dflt.

End Memory.
Arguments mem T : clear implicits.

Section Loops.
Context {St : Type}.

(** [cnt] iterations of [body], the counter starting at [i]. *)
Fixpoint for_up (cnt : nat) (i : Z) (body : Z -> St -> St) (s : St) : St :=
    match cnt with
    | O => s
    | S cnt' => for_up cnt' (i + 1) body (body i s)
    end.

(** [for (int i = lo; i < hi; i++) body]. *)
Definition for_range (lo hi : Z) (body : Z -> St -> St) (s : St) : St :=
    for_up (Z.to_nat (hi - lo)) lo body s.

End Loops.

(** Two nested counted loops that store [val i j] at [addr i j]. *)
Definition store_loops {T : Type} (addr : Z -> Z -> Z) (val : Z -> Z -> T)
    (lo1 hi1 lo2 hi2 : Z) (s : mem T) : mem T :=
  for_range lo1 hi1
    (fun i d => for_range lo2 hi2 (fun j d' => upd d' (addr i j) (val i j)) d)
    s.

(** The offsets [lo, lo+1, ..., lo+cnt-1]. *)
Fixpoint zseq (lo : Z) (cnt : nat) : list Z :=
  match cnt with
  | O => []
  | S cnt' => lo :: zseq (lo + 1) cnt'
  end.

(* ================================================================== *)
(** ** Padding arithmetic                                              *)
(* ================================================================== *)

Definition calc_pad_size (size block_size block_step : Z) : option Z :=
  r <- c_rem size block_size ;;
  Some (size
        + (if r =? 0 then 0 else block_size - r)
        + Z.max (block_size - block_step) block_step * 2).

Definition calc_pad_num (size block_size block_step : Z) : option Z :=
  p <- calc_pad_size size block_size block_step ;;
  q <- c_div (p - block_size) block_step ;;
  Some (q + 1).

(** The same two functions with every operation carried out in 32 bits,
    as the compiled code evaluates them. *)
Definition calc_pad_size_int (size block_size block_step : Z) : option Z :=
  r <- c_rem size block_size ;;
  Some (int_add
          (int_add size (if r =? 0 then 0 else int_sub block_size r))
          (int_mul (Z.max (int_sub block_size block_step) block_step) 2)).

Definition calc_pad_num_int (size block_size block_step : Z) : option Z :=
  p <- calc_pad_size_int size block_size block_step ;;
  q <- int_div (int_sub p block_size) block_step ;;
  Some (int_add q 1).

(* ================================================================== *)
(** ** Reflection padding                                              *)
(* ================================================================== *)

Section ReflectionPadding.
Context {T : Type}.

(** [vs_bitblt] of VSHelper.h, in elements instead of bytes: [height]
    rows of [row_size] cells go from [src] to [&dst[dpos]]. *)
Definition vs_bitblt (dst : mem T) (dpos dst_stride : Z)
      (src : mem T) (src_stride row_size height : Z) : mem T :=
    for_range 0 height
      (fun y d =>
         for_range 0 row_size
           (fun x d' => upd d' (dpos + y * dst_stride + x) (src (y * src_stride + x)))
           d)
      dst.

(** [dst] has shape (pad_height, pad_width), [src] has shape
    (height, stride).  [dst] comes in with whatever the buffer held. *)
Definition reflection_padding_impl (dst src : mem T)
      (width height stride block_size block_step : Z) : option (mem T) :=
    pad_width <- calc_pad_size width block_size block_step ;;
    pad_height <- calc_pad_size height block_size block_step ;;
    let offset_y := Z.quot (pad_height - height) 2 in
    let offset_x := Z.quot (pad_width - width) 2 in
    let dst :=
      vs_bitblt dst (offset_y * pad_width + offset_x) pad_width
                src stride width height in
    (* copy left and right regions *)
    let dst :=
      for_range offset_y (offset_y + height)
        (fun y dst =>
           let dst_line := y * pad_width in
           let dst :=
             for_range 0 offset_x
               (fun x d => upd d (dst_line + x) (d (dst_line + (offset_x * 2 - x))))
               dst in
           for_range (offset_x + width) pad_width
             (fun x d =>
                upd d (dst_line + x) (d (dst_line + (2 * (offset_x + width) - 2 - x))))
             dst)
        dst in
    (* copy top region *)
    let dst :=
      for_range 0 offset_y
        (fun y d => memcpy d (y * pad_width) ((offset_y * 2 - y) * pad_width) pad_width)
        dst in
    (* copy bottom region *)
    let dst :=
      for_range (offset_y + height) pad_height
        (fun y d =>
           memcpy d (y * pad_width)
                  ((2 * (offset_y + height) - 2 - y) * pad_width) pad_width)
        dst in
    Some dst.

(** The three instantiations (one, two and four bytes per sample) move
    cells and never look inside them; any other width is left alone. *)
Definition reflection_padding (dst src : mem T)
      (width height stride block_size block_step bytes_per_sample : Z)
      : option (mem T) :=
    if bytes_per_sample =? 1 then
      reflection_padding_impl dst src width height stride block_size block_step
    else if bytes_per_sample =? 2 then
      reflection_padding_impl dst src width height stride block_size block_step
    else if bytes_per_sample =? 4 then
      reflection_padding_impl dst src width height stride block_size block_step
    else Some dst.

End ReflectionPadding.

(** The buffer after each of the four steps of [reflection_padding_impl],
    for given padded sizes: the copy of the plane, the side margins of
    the plane's rows, the top margin and the bottom margin.
    [reflection_padding_impl_steps] below shows that the function
    returns the last of them. *)
Definition pad_copied {T : Type} (dst src : mem T)
    (width height stride pad_width pad_height : Z) : mem T :=
  vs_bitblt dst
    (Z.quot (pad_height - height) 2 * pad_width + Z.quot (pad_width - width) 2)
    pad_width src stride width height.

Definition pad_row_body {T : Type} (width pad_width : Z) (y : Z) (d : mem T) : mem T :=
  for_range (Z.quot (pad_width - width) 2 + width) pad_width
    (fun x d' =>
       upd d' (y * pad_width + x)
           (d' (y * pad_width + (2 * (Z.quot (pad_width - width) 2 + width) - 2 - x))))
    (for_range 0 (Z.quot (pad_width - width) 2)
       (fun x d' =>
          upd d' (y * pad_width + x)
              (d' (y * pad_width + (Z.quot (pad_width - width) 2 * 2 - x))))
       d).

Definition pad_sides {T : Type} (dst src : mem T)
    (width height stride pad_width pad_height : Z) : mem T :=
  for_range (Z.quot (pad_height - height) 2) (Z.quot (pad_height - height) 2 + height)
    (pad_row_body width pad_width)
    (pad_copied dst src width height stride pad_width pad_height).

Definition pad_top {T : Type} (dst src : mem T)
    (width height stride pad_width pad_height : Z) : mem T :=
  for_range 0 (Z.quot (pad_height - height) 2)
    (fun y d =>
       memcpy d (y * pad_width)
              ((Z.quot (pad_height - height) 2 * 2 - y) * pad_width) pad_width)
    (pad_sides dst src width height stride pad_width pad_height).

Definition pad_bottom {T : Type} (dst src : mem T)
    (width height stride pad_width pad_height : Z) : mem T :=
  for_range (Z.quot (pad_height - height) 2 + height) pad_height
    (fun y d =>
       memcpy d (y * pad_width)
              ((2 * (Z.quot (pad_height - height) 2 + height) - 2 - y) * pad_width)
              pad_width)
    (pad_top dst src width height stride pad_width pad_height).

(* ================================================================== *)
(** ** Floating point                                                  *)
(* ================================================================== *)

(** IEEE-754 binary32, the C++ [float]. *)
Module F32.

Definition prec : Z := 24.
Definition emax : Z := 128.

Definition float32 := spec_float.

Definition zero : float32 := S754_zero false.
Definition add : float32 -> float32 -> float32 := SFadd prec emax.
Definition mul : float32 -> float32 -> float32 := SFmul prec emax.
Definition div : float32 -> float32 -> float32 := SFdiv prec emax.

(** [static_cast<float>(int)], [to_float(Vec16i)]. *)
Definition of_int (z : Z) : float32 := binary_normalize prec emax z 0 false.

Definition one : float32 := of_int 1.
Definition c255 : float32 := of_int 255.
(** The literal [0.5f]. *)
Definition half : float32 := div one (of_int 2).

(** [static_cast<int>(float)]: truncation towards zero.  A value that
    does not fit (or a NaN) is undefined in C++; x86 conversions give
    the "integer indefinite" [INT_MIN], which is what is used here. *)
Definition to_int (f : float32) : Z :=
    match f with
    | S754_zero _ => 0
    | S754_finite s m e =>
        let a := if 0 <=? e then Zpos m * 2 ^ e else Z.shiftr (Zpos m) (- e) in
        let v := if s then - a else a in
        if (INT_MIN <=? v) && (v <=? INT_MAX) then v else INT_MIN
    | _ => INT_MIN
    end.

(** [static_cast<float>(double)], [to_float(Vec8d)]. *)
Definition of_double (d : spec_float) : float32 :=
    match d with
    | S754_finite s m e => binary_round prec emax s m e
    | _ => d
    end.

(** Fused multiply-add [x * y + z] with one rounding ([mul_add] of the
    vector class library on an FMA build). *)
Definition fma (x y z : float32) : float32 :=
    match x, y with
    | S754_finite sx mx ex, S754_finite sy my ey =>
        match z with
        | S754_nan => S754_nan
        | S754_infinity _ => z
        | S754_zero _ => mul x y
        | S754_finite sz mz ez =>
            let e := Z.min (ex + ey) ez in
            binary_normalize prec emax
              (cond_Zopp (xorb sx sy) (Zpos (fst (shl_align (mx * my) (ex + ey) e)))
               + cond_Zopp sz (Zpos (fst (shl_align mz ez e))))
              e false
        end
    | _, _ => add (mul x y) z
    end.

(** The object representation of a [float]. *)
Definition of_bits (w : Z) : float32 :=
    let s := Z.testbit w 31 in
    let e := Z.land (Z.shiftr w 23) 255 in
    let m := Z.land w (2 ^ 23 - 1) in
    if e =? 255 then (if m =? 0 then S754_infinity s else S754_nan)
    else if e =? 0 then
      match m with
      | Zpos p => S754_finite s p (-149)
      | _ => S754_zero s
      end
    else S754_finite s (Z.to_pos (m + 2 ^ 23)) (e - 150).

Definition sign_bit (s : bool) : Z := if s then 2 ^ 31 else 0.

Definition to_bits (f : float32) : Z :=
    match f with
    | S754_zero s => sign_bit s
    | S754_infinity s => sign_bit s + 255 * 2 ^ 23
    | S754_nan => 255 * 2 ^ 23 + 2 ^ 22
    | S754_finite s m e =>
        if Zpos (digits2_pos m) =? prec
        then sign_bit s + (e + 150) * 2 ^ 23 + (Zpos m - 2 ^ 23)
        else sign_bit s + Zpos m
    end.

End F32.
Export F32.

(** IEEE-754 binary64, the C++ [double]. *)
Module F64.

Definition prec : Z := 53.
Definition emax : Z := 1024.

Definition float64 := spec_float.

Definition zero : float64 := S754_zero false.
Definition add : float64 -> float64 -> float64 := SFadd prec emax.
Definition sub : float64 -> float64 -> float64 := SFsub prec emax.
Definition mul : float64 -> float64 -> float64 := SFmul prec emax.
Definition div : float64 -> float64 -> float64 := SFdiv prec emax.
Definition of_int (z : Z) : float64 := binary_normalize prec emax z 0 false.
Definition one : float64 := of_int 1.

Definition is_finite (f : float64) : bool :=
    match f with
    | S754_zero _ | S754_finite _ _ _ => true
    | _ => false
    end.

(** The number that a finite [double] stands for. *)
Definition to_Q (f : float64) : Q :=
    match f with
    | S754_finite s m e => Qmult (inject_Z (cond_Zopp s (Zpos m))) (Qpower (2 # 1) e)
    | _ => 0%Q
    end.

End F64.
Definition float64 := F64.float64.

(* ================================================================== *)
(** ** Sixteen-lane float vectors ([Vec16f] of the vector class library) *)
(* ================================================================== *)

Definition Vec16f := list float32.

Definition lanes : list Z := zseq 0 16.

Definition lane (v : Vec16f) (k : Z) : float32 := nth (Z.to_nat k) v F32.zero.

(** [Vec16f(0)]. *)
Definition vec_zero : Vec16f := map (fun _ => F32.zero) lanes.

(** [a * b], lane by lane. *)
Definition vec_mul (a b : Vec16f) : Vec16f :=
  map (fun k => F32.mul (lane a k) (lane b k)) lanes.

(** [s * a] with the scalar [s] broadcast to every lane. *)
Definition vec_scale (s : float32) (a : Vec16f) : Vec16f :=
  map (fun k => F32.mul s (lane a k)) lanes.

(** [mul_add(a, b, c)]. *)
Definition mul_add (a b c : Vec16f) : Vec16f :=
  map (fun k => F32.fma (lane a k) (lane b k) (lane c k)) lanes.

(** [Vec16f().load(p)] and [v.store(p)] on a [float] array. *)
Definition vec_load (m : mem float32) (p : Z) : Vec16f :=
  map (fun k => m (p + k)) lanes.

Definition vec_store (m : mem float32) (p : Z) (v : Vec16f) : mem float32 :=
  fun i => if (p <=? i) && (i <? p + 16) then lane v (i - p) else m i.

(** Sample cells hold the object representation of a sample: an unsigned
    integer for the 8 and 16 bit encodings, the bits of a [float] for
    the 32 bit one. *)
Definition as_uint8 (w : Z) : Z := w mod 2 ^ 8.
Definition as_uint16 (w : Z) : Z := w mod 2 ^ 16.

(** [to_float(Vec16i(extend(extend(Vec16uc().load(p)))))]. *)
Definition load_u8 (m : mem Z) (p : Z) : Vec16f :=
  map (fun k => F32.of_int (as_uint8 (m (p + k)))) lanes.

(** [to_float(Vec16i(extend(Vec16us().load(p))))]. *)
Definition load_u16 (m : mem Z) (p : Z) : Vec16f :=
  map (fun k => F32.of_int (as_uint16 (m (p + k)))) lanes.

(** [Vec16f().load((const float * ) p)]. *)
Definition load_f32 (m : mem Z) (p : Z) : Vec16f :=
  map (fun k => F32.of_bits (m (p + k))) lanes.

(* ================================================================== *)
(** ** The block codec                                                 *)
(* ================================================================== *)

(** [scale] as both [load_block] and [store_frame] compute it. *)
Definition sample_scale (bits_per_sample : Z) : float32 :=
  let scale := F32.div F32.one (F32.of_int (Z.shiftl 1 (bits_per_sample - 8))) in
  if bits_per_sample =? 32 then F32.c255 else scale.

(** The row of the analysis window that [load_block] multiplies into
    row [j] of temporal slice [i]. *)
Definition analysis_row (window : mem Vec16f) (block_size i j : Z) : Vec16f :=
  window (i * block_size + j).

Definition load_block (block : mem Vec16f) (shifted_src : mem Z)
    (radius block_size block_step width height : Z)
    (window : mem Vec16f) (bits_per_sample : Z) : option (mem Vec16f) :=
  let scale := sample_scale bits_per_sample in
  let bytes_per_sample := Z.quot (bits_per_sample + 7) 8 in
  let block_size := 16 in
  offset_x <- calc_pad_size width block_size block_step ;;
  offset_y <- calc_pad_size height block_size block_step ;;
  let fill (input : Z -> Vec16f) (block : mem Vec16f) : mem Vec16f :=
    for_range 0 (2 * radius + 1)
      (fun i block =>
         for_range 0 block_size
           (fun j block =>
              let vec_input_f := input ((i * offset_y + j) * offset_x) in
              upd block (i * block_size * 2 + j)
                  (vec_mul (vec_scale scale (analysis_row window block_size i j))
                           vec_input_f))
           block)
      block in
  let block :=
    if bytes_per_sample =? 1 then fill (load_u8 shifted_src) block else block in
  let block :=
    if bytes_per_sample =? 2 then fill (load_u16 shifted_src) block else block in
  let block :=
    if bytes_per_sample =? 4 then fill (load_f32 shifted_src) block else block in
  Some block.

Definition store_block (shifted_dst : mem float32) (shifted_block : mem Vec16f)
    (block_size block_step width height : Z)
    (shifted_window : mem Vec16f) : option (mem float32) :=
  let block_size := 16 in
  pitch <- calc_pad_size width block_size block_step ;;
  Some (for_range 0 block_size
          (fun i dst =>
             let acc := vec_load dst (i * pitch) in
             let acc := mul_add (shifted_block i) (shifted_window i) acc in
             vec_store dst (i * pitch) acc)
          shifted_dst).

(** The cells of [shifted_dst] that one call of [store_block] touches. *)
Definition store_block_cells (pitch : Z) : list Z :=
  flat_map (fun i => map (fun c => i * pitch + c) lanes) (zseq 0 16).

(* ================================================================== *)
(** ** Frame assembly                                                  *)
(* ================================================================== *)

(** What [store_frame] writes for one accumulator cell [v]. *)
Definition quantize (bits_per_sample : Z) (v : float32) : Z :=
  let scale := sample_scale bits_per_sample in
  let peak := Z.shiftl 1 bits_per_sample - 1 in
  clamp (F32.to_int (F32.add (F32.div v scale) F32.half)) 0 peak.

Definition store_frame (dst : mem Z) (shifted_src : mem float32)
    (width height dst_stride src_stride bits_per_sample : Z) : mem Z :=
  let scale := sample_scale bits_per_sample in
  let bytes_per_sample := Z.quot (bits_per_sample + 7) 8 in
  let dstp :=
    if bytes_per_sample =? 1 then
      for_range 0 height
        (fun y dstp =>
           for_range 0 width
             (fun x dstp =>
                let clamped := quantize bits_per_sample (shifted_src (y * src_stride + x)) in
                upd dstp (y * dst_stride + x) (as_uint8 clamped))
             dstp)
        dst
    else dst in
  let dstp :=
    if bytes_per_sample =? 2 then
      for_range 0 height
        (fun y dstp =>
           for_range 0 width
             (fun x dstp =>
                let clamped := quantize bits_per_sample (shifted_src (y * src_stride + x)) in
                upd dstp (y * dst_stride + x) (as_uint16 clamped))
             dstp)
        dstp
    else dstp in
  let dstp :=
    if bytes_per_sample =? 4 then
      for_range 0 height
        (fun y dstp =>
           for_range 0 width
             (fun x dstp =>
                upd dstp (y * dst_stride + x)
                    (F32.to_bits (F32.div (shifted_src (y * src_stride + x)) scale)))
             dstp)
        dstp
    else dstp in
  dstp.

(* ================================================================== *)
(** ** The host interface (VapourSynth API 3), as far as the filter uses it *)
(* ================================================================== *)

Inductive VSSampleType := stInteger | stFloat.

Record VSFormat := {
  sampleType : VSSampleType;
  bitsPerSample : Z;
  bytesPerSample : Z;
  numPlanes : Z
}.

Record VSVideoInfo := {
  format : option VSFormat;      (* a null format is a variable-format clip *)
  vi_width : Z;
  vi_height : Z;
  numFrames : Z
}.

(** One plane of a frame: its geometry ([getFrameWidth], [getFrameHeight],
    [getStride], the stride in bytes) and its samples, addressed by
    sample as [getReadPtr] / [getWritePtr] are after the casts. *)
Record VSPlane := {
  plane_width : Z;
  plane_height : Z;
  plane_stride : Z;
  plane_data : mem Z
}.

Record VSFrameRef := {
  frame_format : VSFormat;
  frame_planes : list VSPlane
}.

Record VSNodeRef := {
  node_vi : VSVideoInfo;
  getFrameFilter : Z -> VSFrameRef
}.

Definition empty_plane : VSPlane :=
  {| plane_width := 0; plane_height := 0; plane_stride := 0;
     plane_data := fun _ => 0 |}.

Definition get_plane (f : VSFrameRef) (plane : Z) : VSPlane :=
  nth (Z.to_nat plane) (frame_planes f) empty_plane.

Definition set_plane_data (f : VSFrameRef) (plane : Z) (data : mem Z) : VSFrameRef :=
  {| frame_format := frame_format f;
     frame_planes :=
       map (fun k =>
              let p := get_plane f k in
              if k =? plane
              then {| plane_width := plane_width p; plane_height := plane_height p;
                      plane_stride := plane_stride p; plane_data := data |}
              else p)
           (zseq 0 (List.length (frame_planes f))) |}.

(** [isConstantFormat] of VSHelper.h. *)
Definition isConstantFormat (vi : VSVideoInfo) : bool :=
  (0 <? vi_height vi) && (0 <? vi_width vi)
  && match format vi with Some _ => true | None => false end.

(** [newVideoFrame2(format, width, height, fr, pl, propSrc, core)]: plane
    [i] of the new frame is plane [pl[i]] of [fr[i]] where [fr[i]] is
    not null, and freshly allocated storage otherwise.  [alloc] is that
    storage as the host hands it out, contents unspecified. *)
Definition newVideoFrame2 (alloc : VSFrameRef) (fmt : VSFormat)
    (fr : list (option VSFrameRef)) (pl : list Z) : VSFrameRef :=
  {| frame_format := fmt;
     frame_planes :=
       map (fun i =>
              match nth (Z.to_nat i) fr None with
              | Some f => get_plane f (nth (Z.to_nat i) pl 0)
              | None => get_plane alloc i
              end)
           (zseq 0 (Z.to_nat (numPlanes fmt))) |}.

(* ================================================================== *)
(** ** Filter state                                                    *)
(* ================================================================== *)

Record DFTTestThreadData := {
  padded : mem Z;           (* shape: (2*radius+1, pad_height, pad_width) *)
  padded2 : mem float32     (* shape: (pad_height, pad_width) *)
}.

Record DFTTestData := {
  node : VSNodeRef;
  radius : Z;
  block_size : Z;
  block_step : Z;
  process : list bool;      (* std::array<bool, 3> *)
  zero_mean : bool;
  window : list Vec16f;
  window_freq : list Vec16f;
  sigma : list Vec16f;
  filter_type : Z;
  sigma2 : float32;
  pmin : float32;
  pmax : float32
}.

(** The arguments of the [DFTTest] entry point; an optional argument
    that the caller left out is [None] (the API reports an error code).
    Error messages are kept without the quotation marks that the source
    puts around argument names. *)
Record DFTTestArgs := {
  arg_clip : VSNodeRef;
  arg_window : list float64;
  arg_sigma : list float64;
  arg_sigma2 : float64;
  arg_pmin : float64;
  arg_pmax : float64;
  arg_filter_type : Z;
  arg_radius : option Z;
  arg_block_size : option Z;
  arg_block_step : option Z;
  arg_zero_mean : option Z;
  arg_window_freq : list float64;
  arg_planes : list Z
}.

(** [static_cast<int>] of a 64-bit value keeps the low 32 bits. *)
Definition cast_int (i : Z) : Z := (i + 2 ^ 31) mod 2 ^ 32 - 2 ^ 31.

(** A caller-supplied [double] array.  Reading past its end is
    undefined; the cells past the end read as zero here, and
    [DFTTest_call] below ends as undefined before any of them counts. *)
Definition double_array (l : list float64) : mem float64 := arr F64.zero l.

Definition set_process (process : list bool) (plane : Z) : list bool :=
  map (fun k => if k =? plane then true else nth (Z.to_nat k) process false)
      (zseq 0 (List.length process)).

(** The loop over the [planes] argument, with its two error exits. *)
Fixpoint select_planes (num_planes : Z) (planes : list Z) (process : list bool)
    : string + list bool :=
  match planes with
  | [] => inr process
  | p :: rest =>
      let plane := cast_int p in
      if (plane <? 0) || (num_planes <=? plane) then inl "plane index out of range"%string
      else if nth (Z.to_nat plane) process false then inl "plane specified twice"%string
      else select_planes num_planes rest (set_process process plane)
  end.

Definition DFTTestCreate (a : DFTTestArgs) : string + DFTTestData :=
  let vi := node_vi (arg_clip a) in
  match format vi with
  | None => inl "only constant format input is supported"%string
  | Some fmt =>
  if negb (isConstantFormat vi) then
    inl "only constant format input is supported"%string
  else if match sampleType fmt with stInteger => 2 <? bytesPerSample fmt | _ => false end then
    inl "only 8-16 bit integer format input is supported"%string
  else if match sampleType fmt with stFloat => negb (bitsPerSample fmt =? 32) | _ => false end then
    inl "only 32-bit float format input is supported"%string
  else
  let radius := match arg_radius a with Some r => int64ToIntS r | None => 0 end in
  if (radius <? 0) || (3 <? radius) then
    inl "radius must be in [0, 1, 2, 3]"%string
  else
  let block_size := match arg_block_size a with Some b => int64ToIntS b | None => 16 end in
  if negb (block_size =? 16) then
    inl "block_size must be 16"%string
  else
  let block_step :=
    match arg_block_step a with Some b => int64ToIntS b | None => block_size end in
  let num_planes_args := Z.of_nat (List.length (arg_planes a)) in
  let process := map (fun _ => num_planes_args <=? 0) (zseq 0 3) in
  match select_planes (numPlanes fmt) (arg_planes a) process with
  | inl msg => inl msg
  | inr process =>
  let window :=
    map (fun i => map (fun k => F32.of_double (double_array (arg_window a) (i * 16 + k))) lanes)
        (zseq 0 (Z.to_nat (Z.quot ((2 * radius + 1) * block_size * block_size) 16))) in
  let bins := Z.quot block_size 2 + 1 in
  let sigma :=
    map (fun i =>
           map (fun j => if j <? bins
                         then F32.of_double (double_array (arg_sigma a) (i * bins + j))
                         else F32.zero)
               lanes)
        (zseq 0 (Z.to_nat ((2 * radius + 1) * block_size))) in
  let zero_mean :=
    match arg_zero_mean a with Some z => negb (z =? 0) | None => true end in
  let window_freq :=
    if zero_mean then
      flat_map
        (fun i =>
           [ map (fun j => if j <? bins
                           then F32.of_double
                                  (double_array (arg_window_freq a) ((i * bins + j) * 2))
                           else F32.zero)
                 lanes ;
             map (fun j => if j <? bins
                           then F32.of_double
                                  (double_array (arg_window_freq a) ((i * bins + j) * 2 + 1))
                           else F32.zero)
                 lanes ])
        (zseq 0 (Z.to_nat ((2 * radius + 1) * block_size)))
    else [] in
  inr {| node := arg_clip a;
         radius := radius;
         block_size := block_size;
         block_step := block_step;
         process := process;
         zero_mean := zero_mean;
         window := window;
         window_freq := window_freq;
         sigma := sigma;
         filter_type := cast_int (arg_filter_type a);
         sigma2 := F32.of_double (arg_sigma2 a);
         pmin := F32.of_double (arg_pmin a);
         pmax := F32.of_double (arg_pmax a) |}
  end
  end.

(** [DFTTestCreate] reads [window], [sigma] and, when [zero_mean] is
    set, [window_freq] without looking at how many values the caller
    gave: [(2 * radius + 1) * 256] window values, [(2 * radius + 1) * 16
    * 9] sigma values and twice as many [window_freq] values.  A shorter
    array is read past its end, which is undefined; [window_freq] is an
    optional argument that is fetched with no error pointer, so that the
    host ends the process when it is missing (an argument that was left
    out is the empty list here).  Every [set_error] exit comes before
    the first of these reads. *)
Definition arrays_readable (a : DFTTestArgs) (d : DFTTestData) : bool :=
  let rows := (2 * radius d + 1) * block_size d in
  let bins := Z.quot (block_size d) 2 + 1 in
  (Z.quot (rows * block_size d) 16 * 16 <=? Z.of_nat (List.length (arg_window a)))
  && (rows * bins <=? Z.of_nat (List.length (arg_sigma a)))
  && (if zero_mean d
      then rows * bins * 2 <=? Z.of_nat (List.length (arg_window_freq a))
      else true).

(** How a call of [DFTTest] ends. *)
Inductive DFTTest_outcome :=
| DFTTest_error (msg : string)       (* [setError]: no filter *)
| DFTTest_filter (d : DFTTestData)   (* [createFilter] with this state *)
| DFTTest_undefined.                 (* a read past an array, or the host's fatal error *)

(** The call as a whole: [DFTTestCreate] above is what it does when the
    arrays are long enough. *)
Definition DFTTest_call (a : DFTTestArgs) : DFTTest_outcome :=
  match DFTTestCreate a with
  | inl msg => DFTTest_error msg
  | inr d => if arrays_readable a d then DFTTest_filter d else DFTTest_undefined
  end.

(* ================================================================== *)
(** ** Producing a frame                                               *)
(* ================================================================== *)

Inductive VSActivationReason := arInitial | arFrameReady | arAllFramesReady | arError.

(** A loop whose body can fault. *)
Fixpoint for_upM {St : Type} (cnt : nat) (i : Z) (body : Z -> St -> option St)
    (s : St) : option St :=
  match cnt with
  | O => Some s
  | S cnt' => s' <- body i s ;; for_upM cnt' (i + 1) body s'
  end.

Definition for_rangeM {St : Type} (lo hi : Z) (body : Z -> St -> option St)
    (s : St) : option St :=
  for_upM (Z.to_nat (hi - lo)) lo body s.

(** The synthesis window as [DFTTestGetFrame] hands it to [store_block]:
    [&d->window[d->radius * block_size * 2]]. *)
Definition synthesis_window (d : DFTTestData) : mem Vec16f :=
  shift (arr vec_zero (window d)) (radius d * 16 * 2).

(** The analysis window as [load_block] receives it: [d->window.get()]. *)
Definition analysis_window (d : DFTTestData) : mem Vec16f :=
  arr vec_zero (window d).

Section GetFrame.

(** [fused] lives in kernel.hpp, which is not part of this file; it is
    taken as given.  It rewrites the block in place. *)
Variable fused :
    mem Vec16f -> mem Vec16f -> float32 -> float32 -> float32 -> Z -> bool ->
    mem Vec16f -> Z -> mem Vec16f.

(** The contents of the local array [block] before [load_block] fills it. *)
Variable block0 : mem Vec16f.

(** The two nested loops over block positions of one plane; the state is
    the accumulation buffer [padded2]. *)
Definition filter_blocks (d : DFTTestData) (fmt : VSFormat)
      (width height : Z) (padded : mem Z) (padded2 : mem float32)
      : option (mem float32) :=
    num_y <- calc_pad_num height (block_size d) (block_step d) ;;
    for_rangeM 0 num_y
      (fun i padded2 =>
         num_x <- calc_pad_num width (block_size d) (block_step d) ;;
         for_rangeM 0 num_x
           (fun j padded2 =>
              let block_size' := 16 in
              offset_x <- calc_pad_size width (block_size d) (block_step d) ;;
              block <- load_block block0
                         (shift padded ((i * offset_x + j) * block_step d))
                         (radius d) (block_size d) (block_step d) width height
                         (analysis_window d) (bitsPerSample fmt) ;;
              let block :=
                fused block (arr vec_zero (sigma d)) (sigma2 d) (pmin d) (pmax d)
                      (filter_type d) (zero_mean d)
                      (arr vec_zero (window_freq d)) (radius d) in
              let base := (i * offset_x + j) * block_step d in
              view <- store_block (shift padded2 base)
                        (shift block (radius d * block_size' * 2))
                        block_size' (block_step d) width height
                        (synthesis_window d) ;;
              Some (unshift view base))
           padded2)
      padded2.

(** The body of the loop over planes for a plane that is processed. *)
Definition filter_plane (d : DFTTestData) (vi_fmt : VSFormat)
      (src_frames : list VSFrameRef) (src_center_frame : VSFrameRef)
      (plane : Z) (st : DFTTestThreadData * VSFrameRef)
      : option (DFTTestThreadData * VSFrameRef) :=
    let '(thread_data, dst_frame) := st in
    let width := plane_width (get_plane src_center_frame plane) in
    let height := plane_height (get_plane src_center_frame plane) in
    stride <- c_div (plane_stride (get_plane src_center_frame plane))
                    (bytesPerSample vi_fmt) ;;
    pad_h <- calc_pad_size height (block_size d) (block_step d) ;;
    pad_w <- calc_pad_size width (block_size d) (block_step d) ;;
    let padded_size_spatial := pad_h * pad_w in
    let padded2 := memset (padded2 thread_data) F32.zero (pad_h * pad_w) in
    padded <-
      for_rangeM 0 (2 * radius d + 1)
        (fun i padded =>
           let src_frame := nth (Z.to_nat i) src_frames src_center_frame in
           let srcp := plane_data (get_plane src_frame plane) in
           let base := i * padded_size_spatial in
           view <- reflection_padding (shift padded base) srcp
                     width height stride (block_size d) (block_step d)
                     (bytesPerSample vi_fmt) ;;
           Some (unshift view base))
        (padded thread_data) ;;
    padded2 <- filter_blocks d vi_fmt width height padded padded2 ;;
    pad_width <- calc_pad_size width (block_size d) (block_step d) ;;
    pad_height <- calc_pad_size height (block_size d) (block_step d) ;;
    let offset_y := Z.quot (pad_height - height) 2 in
    let offset_x := Z.quot (pad_width - width) 2 in
    let dstp := plane_data (get_plane dst_frame plane) in
    let dstp :=
      store_frame dstp (shift padded2 (offset_y * pad_width + offset_x))
                  width height stride pad_width (bitsPerSample vi_fmt) in
    Some ({| padded := padded; padded2 := padded2 |},
          set_plane_data dst_frame plane dstp).

(** [DFTTestGetFrame] for the worker that owns [thread_data]; how a
    worker finds or allocates its buffers is the subject of [Registry]
    below, here the buffers come in with whatever they held.  The
    result is [None] on a fault, otherwise the returned frame pointer
    ([None] for [nullptr]) and the worker's buffers afterwards.
    [alloc] is the storage the host hands out for the new frame.
    Sizes and indices are numbers of [Z]; they are the code's as long
    as the sample buffer of each plane fits an [int]
    ([sizes_fit_int]). *)
Definition DFTTestGetFrame (n : Z) (activationReason : VSActivationReason)
      (d : DFTTestData) (thread_data : DFTTestThreadData) (alloc : VSFrameRef)
      : option (option VSFrameRef * DFTTestThreadData) :=
    match activationReason with
    | arAllFramesReady =>
        let vi := node_vi (node d) in
        match format vi with
        | None => None
        | Some vi_fmt =>
            let src_frames :=
              map (fun i => getFrameFilter (node d) (clamp i 0 (numFrames vi - 1)))
                  (zseq (n - radius d) (Z.to_nat (2 * radius d + 1))) in
            let src_center_frame :=
              nth (Z.to_nat (radius d)) src_frames
                  (getFrameFilter (node d) (clamp n 0 (numFrames vi - 1))) in
            let fmt := frame_format src_center_frame in
            let fr :=
              map (fun p : bool => if p then None else Some src_center_frame)
                  (process d) in
            let pl := [0; 1; 2] in
            let dst_frame := newVideoFrame2 alloc fmt fr pl in
            st <- for_rangeM 0 (numPlanes fmt)
                    (fun plane st =>
                       if negb (nth (Z.to_nat plane) (process d) false) then Some st
                       else filter_plane d vi_fmt src_frames src_center_frame plane st)
                    (thread_data, dst_frame) ;;
            Some (Some (snd st), fst st)
        end
    | _ => Some (None, thread_data)
    end.

End GetFrame.

(* ================================================================== *)
(** ** The O(n^2) transform and the [RDFT] entry point                 *)
(* ================================================================== *)

(** The arithmetic the [dft] template is instantiated over. *)
Class Scalar (T : Type) := {
  s_zero : T;
  s_add : T -> T -> T;
  s_sub : T -> T -> T;
  s_mul : T -> T -> T;
  s_div : T -> T -> T;
  s_of_int : Z -> T;
  s_pi : T;
  s_cos : T -> T;
  s_sin : T -> T
}.

Section Dft.
Context {T : Type} `{Scalar T}.

(** [std::complex<T>]. *)
Definition complex : Type := T * T.

Definition c_zero : complex := (s_zero, s_zero).

Definition c_add (a b : complex) : complex :=
    (s_add (fst a) (fst b), s_add (snd a) (snd b)).

(** [T * std::complex<T>]. *)
Definition c_scale (x : T) (w : complex) : complex :=
    (s_mul x (fst w), s_mul x (snd w)).

(** [std::complex<T> * std::complex<T>], by the textbook formula (the
    library's recovery of infinities from NaN products is left out). *)
Definition c_mul (a b : complex) : complex :=
    (s_sub (s_mul (fst a) (fst b)) (s_mul (snd a) (snd b)),
     s_add (s_mul (fst a) (snd b)) (s_mul (snd a) (fst b))).

(** The weight [exp(i * imag)] for output [i] and input [j]; the
    product [-2 * i * j] is formed in [int]. *)
Definition dft_weight (n i j : Z) : complex :=
    let imag :=
      s_div (s_mul (s_of_int (int_mul (int_mul (-2) i) j)) s_pi) (s_of_int n) in
    (s_cos imag, s_sin imag).

(** The inner loop: the sum for output [i]. *)
Definition dft_sum {T_in : Type} (times : T_in -> complex -> complex)
      (src : mem T_in) (n stride i : Z) : complex :=
    for_range 0 n
      (fun j sum => c_add sum (times (src (j * stride)) (dft_weight n i j)))
      c_zero.

Definition dft_loop {T_in : Type} (times : T_in -> complex -> complex)
      (out_num : Z) (dst : mem complex) (src : mem T_in) (n stride : Z)
      : mem complex :=
    for_range 0 out_num
      (fun i dst => upd dst (i * stride) (dft_sum times src n stride i))
      dst.

(** [dft<T, T>]: real input, [n / 2 + 1] outputs. *)
Definition dft_real (dst : mem complex) (src : mem T) (n stride : Z) : mem complex :=
    dft_loop c_scale (Z.quot n 2 + 1) dst src n stride.

(** [dft<T, std::complex<T>>]: complex input, [n] outputs. *)
Definition dft_complex (dst : mem complex) (src : mem complex) (n stride : Z)
      : mem complex :=
    dft_loop c_mul n dst src n stride.

End Dft.

(** [double] arithmetic; [cos] and [sin] come from the C library. *)
Definition M_PI : float64 := S754_finite false 7074237752028440 (-51).

Definition double_scalar (libm_cos libm_sin : float64 -> float64) : Scalar float64 :=
  {| s_zero := F64.zero;
     s_add := F64.add;
     s_sub := F64.sub;
     s_mul := F64.mul;
     s_div := F64.div;
     s_of_int := F64.of_int;
     s_pi := M_PI;
     s_cos := libm_cos;
     s_sin := libm_sin |}.

(** The discrete Fourier transform as the specification words it, bin
    [k] of an [n]-point signal [x] being the sum over [j] of
    [x j * exp(-2 pi i j k / n)] with [exp(i t) = cos t + i sin t],
    evaluated in [double]: the angle, every product and every partial
    sum are rounded, [cos] and [sin] are the C library's, and the terms
    are added in the order of [j].  [times] is the product of a sample
    and a weight, for real samples or for complex ones. *)
Section DftDouble.
Variables libm_cos libm_sin : float64 -> float64.

Definition DFT_angle (n k j : Z) : float64 :=
  F64.div (F64.mul (F64.of_int (-2 * k * j)) M_PI) (F64.of_int n).

Definition times_real (x : float64) (w : float64 * float64) : float64 * float64 :=
  (F64.mul x (fst w), F64.mul x (snd w)).

Definition times_complex (x w : float64 * float64) : float64 * float64 :=
  (F64.sub (F64.mul (fst x) (fst w)) (F64.mul (snd x) (snd w)),
   F64.add (F64.mul (fst x) (snd w)) (F64.mul (snd x) (fst w))).

Fixpoint DFT_terms {X : Type} (times : X -> float64 * float64 -> float64 * float64)
    (x : Z -> X) (n k : Z) (cnt : nat) : float64 * float64 :=
  match cnt with
  | O => (F64.zero, F64.zero)
  | S cnt' =>
      let j := Z.of_nat cnt' in
      let acc := DFT_terms times x n k cnt' in
      let t := times (x j) (libm_cos (DFT_angle n k j), libm_sin (DFT_angle n k j)) in
      (F64.add (fst acc) (fst t), F64.add (snd acc) (snd t))
  end.

Definition DFT_double {X : Type} (times : X -> float64 * float64 -> float64 * float64)
    (x : Z -> X) (n k : Z) : float64 * float64 :=
  DFT_terms times x n k (Z.to_nat n).

End DftDouble.

(** How a call of [RDFT] ends. *)
Inductive RDFT_outcome :=
| RDFT_error (msg : string)          (* [setError]: no result *)
| RDFT_ret (ret : list float64)      (* the float array stored under "ret" *)
| RDFT_terminate                     (* an exception leaves the [noexcept] function *)
| RDFT_undefined.                    (* the loops leave the arrays *)

(** The product [shape[0] * ... * shape[ndim-1]] as the loop
    [size *= shape[i]] accumulates it from 1, in 32 bits. *)
Definition shape_product (shape : list Z) : Z :=
  fold_left int_mul shape 1.

(** The number of elements of an array of the given shape, and the
    number of complex values of its Hermitian-compressed spectrum: the
    product of the leading dimensions times (last dimension / 2 + 1). *)
Definition element_count (shape : list Z) : Z :=
  fold_left Z.mul shape 1.

Definition hermitian_count (shape : list Z) : Z :=
  element_count (removelast shape) * (Z.quot (last shape 0) 2 + 1).

Section Rdft.
Variables libm_cos libm_sin : float64 -> float64.

Local Instance rdft_scalar : Scalar float64 := double_scalar libm_cos libm_sin.

(** [std::make_unique<std::complex<double> []>(n)]: zero-filled; a
    negative [int] length becomes a huge [size_t] and the allocation
    throws. *)
Definition make_unique_complex (n : Z) : option (mem (complex (T := float64))) :=
    if n <? 0 then None else Some (fun _ => c_zero).

(** [(const double * ) output.get()] over [2 * complex_size] doubles. *)
Definition interleave (output : mem (complex (T := float64))) (complex_size : Z)
      : list float64 :=
    flat_map (fun k => [fst (output k); snd (output k)])
             (zseq 0 (Z.to_nat complex_size)).

(** [input] holds [size] doubles and [output] [complex_size] complex
    values, both sizes being products reduced to 32 bits, while the
    loops below walk the extents that the shape gives.  When a product
    has left the range of [int] the two differ and the loops run past
    the ends of the arrays; so does the length [complex_size * 2] handed
    to [propSetFloatArray] when it does not fit. *)
Definition leaves_arrays (shape : list Z) : bool :=
    negb (fits_int (element_count shape))
    || negb (fits_int (hermitian_count shape))
    || negb (fits_int (hermitian_count shape * 2)).

Definition RDFT (data : list float64) (shape_array : list Z) : RDFT_outcome :=
    let ndim := Z.of_nat (List.length shape_array) in
    if negb (ndim =? 1) && negb (ndim =? 2) && negb (ndim =? 3) then
      RDFT_error "shape must be an array of ints with 1, 2 or 3 values"%string
    else
    let shape_l := map int64ToIntS shape_array in
    let shape := arr 0 shape_l in
    let size := shape_product shape_l in
    if negb (Z.of_nat (List.length data) =? size) then
      RDFT_error "cannot reshape array"%string
    else
    let complex_size :=
      for_range 0 (ndim - 1) (fun i acc => int_mul acc (shape i))
                (Z.quot (shape (ndim - 1)) 2 + 1) in
    let input := double_array data in
    match make_unique_complex complex_size with
    | None => RDFT_terminate
    | Some output =>
    if leaves_arrays shape_l then RDFT_undefined
    else if ndim =? 1 then
      let output := dft_real output input size 1 in
      RDFT_ret (interleave output complex_size)
    else if ndim =? 2 then
      let bins := Z.quot (shape 1) 2 + 1 in
      let output :=
        for_range 0 (shape 0)
          (fun i output =>
             unshift (dft_real (shift output (i * bins)) (shift input (i * shape 1))
                               (shape 1) 1)
                     (i * bins))
          output in
      match make_unique_complex complex_size with
      | None => RDFT_terminate
      | Some output2 =>
      let output2 :=
        for_range 0 bins
          (fun i output2 =>
             unshift (dft_complex (shift output2 i) (shift output i) (shape 0) bins) i)
          output2 in
      RDFT_ret (interleave output2 complex_size)
      end
    else
      let bins := Z.quot (shape 2) 2 + 1 in
      let output :=
        for_range 0 (shape 0 * shape 1)
          (fun i output =>
             unshift (dft_real (shift output (i * bins)) (shift input (i * shape 2))
                               (shape 2) 1)
                     (i * bins))
          output in
      match make_unique_complex complex_size with
      | None => RDFT_terminate
      | Some output2 =>
      let output2 :=
        for_range 0 (shape 0)
          (fun i output2 =>
             for_range 0 bins
               (fun j output2 =>
                  let base := i * shape 1 * bins + j in
                  unshift (dft_complex (shift output2 base) (shift output base)
                                       (shape 1) bins)
                          base)
               output2)
          output2 in
      let output :=
        for_range 0 (shape 1 * bins)
          (fun i output =>
             unshift (dft_complex (shift output i) (shift output2 i)
                                  (shape 0) (shape 1 * bins))
                     i)
          output in
      RDFT_ret (interleave output complex_size)
      end
    end.

End Rdft.

(* ================================================================== *)
(** ** Cells of the accumulation buffer                                *)
(* ================================================================== *)


(** The cells of [padded2] that the block at grid position [(i, j)]
    accumulates into. *)
Definition block_cells (pad_width block_step i j : Z) : list Z :=
  map (fun c => (i * pad_width + j) * block_step + c) (store_block_cells pad_width).

(* ================================================================== *)
(** ** Concrete inputs used by the examples                            *)
(* ================================================================== *)

Definition gray8 : VSFormat :=
  {| sampleType := stInteger; bitsPerSample := 8; bytesPerSample := 1; numPlanes := 1 |}.

Definition blank_plane (w h : Z) : VSPlane :=
  {| plane_width := w; plane_height := h; plane_stride := w; plane_data := fun _ => 0 |}.

(** A three-frame 16x16 8-bit gray clip. *)
Definition gray8_clip : VSNodeRef :=
  {| node_vi := {| format := Some gray8; vi_width := 16; vi_height := 16; numFrames := 3 |};
     getFrameFilter := fun _ => {| frame_format := gray8; frame_planes := [blank_plane 16 16] |} |}.

(** The doubles 0.0, 1.0, 2.0, ... *)
Definition ramp (n : nat) : list float64 := map F64.of_int (zseq 0 n).

(** A call of [DFTTest] on [gray8_clip] with the given radius and block
    step, a window whose flat entry [k] is [k], and every plane processed. *)
Definition example_args (radius : Z) (block_step : option Z) : DFTTestArgs :=
  {| arg_clip := gray8_clip;
     arg_window := ramp (Z.to_nat ((2 * radius + 1) * 256));
     arg_sigma := ramp (Z.to_nat ((2 * radius + 1) * 144));
     arg_sigma2 := F64.one;
     arg_pmin := F64.zero;
     arg_pmax := F64.one;
     arg_filter_type := 0;
     arg_radius := Some radius;
     arg_block_size := None;
     arg_block_step := block_step;
     arg_zero_mean := Some 0;
     arg_window_freq := [];
     arg_planes := [] |}.

(** Row [j] of temporal slice [i] of the window tensor, as [load_block]
    addresses it, for all sixteen rows. *)
Definition window_slice (d : DFTTestData) (i : Z) : list Vec16f :=
  map (analysis_row (analysis_window d) 16 i) (zseq 0 16).

(** The sixteen rows [shifted_window[0..15]] that [store_block] reads. *)
Definition synthesis_rows (d : DFTTestData) : list Vec16f :=
  map (synthesis_window d) (zseq 0 16).

(** The same call with another [block_step] argument. *)
Definition with_block_step (a : DFTTestArgs) (block_step : option Z) : DFTTestArgs :=
  {| arg_clip := arg_clip a;
     arg_window := arg_window a;
     arg_sigma := arg_sigma a;
     arg_sigma2 := arg_sigma2 a;
     arg_pmin := arg_pmin a;
     arg_pmax := arg_pmax a;
     arg_filter_type := arg_filter_type a;
     arg_radius := arg_radius a;
     arg_block_size := arg_block_size a;
     arg_block_step := block_step;
     arg_zero_mean := arg_zero_mean a;
     arg_window_freq := arg_window_freq a;
     arg_planes := arg_planes a |}.

(** The temporal-centre source frame of output frame [n]. *)
Definition center_frame (d : DFTTestData) (n : Z) : VSFrameRef :=
  getFrameFilter (node d) (clamp n 0 (numFrames (node_vi (node d)) - 1)).

Definition yuv444p8 : VSFormat :=
  {| sampleType := stInteger; bitsPerSample := 8; bytesPerSample := 1; numPlanes := 3 |}.

(** A three-frame 16x16 clip with three 8-bit planes; the samples of
    plane [p] of frame [k] all have the value [10 * k + p]. *)
Definition yuv_clip : VSNodeRef :=
  {| node_vi := {| format := Some yuv444p8; vi_width := 16; vi_height := 16; numFrames := 3 |};
     getFrameFilter :=
       fun k =>
         {| frame_format := yuv444p8;
            frame_planes :=
              map (fun p => {| plane_width := 16; plane_height := 16; plane_stride := 16;
                               plane_data := fun _ => 10 * k + p |})
                  (zseq 0 3) |} |}.

(** [DFTTest(yuv_clip, ..., planes=[0])]: only the first plane is filtered. *)
Definition yuv_args : DFTTestArgs :=
  {| arg_clip := yuv_clip;
     arg_window := ramp 256;
     arg_sigma := ramp 144;
     arg_sigma2 := F64.one;
     arg_pmin := F64.zero;
     arg_pmax := F64.one;
     arg_filter_type := 0;
     arg_radius := None;
     arg_block_size := None;
     arg_block_step := None;
     arg_zero_mean := Some 0;
     arg_window_freq := [];
     arg_planes := [0] |}.




(** A stand-in for [fused] that leaves the block as it is. *)
Definition fused_identity (block : mem Vec16f) (_ : mem Vec16f) (_ _ _ : float32)
    (_ : Z) (_ : bool) (_ : mem Vec16f) (_ : Z) : mem Vec16f := block.

Definition blank_thread_data : DFTTestThreadData :=
  {| padded := fun _ => 0; padded2 := fun _ => F32.zero |}.

Definition blank_frame (fmt : VSFormat) : VSFrameRef :=
  {| frame_format := fmt;
     frame_planes := map (fun _ => blank_plane 16 16) (zseq 0 (Z.to_nat (numPlanes fmt))) |}.

(* ================================================================== *)
(** ** One sample through the codec                                    *)
(* ================================================================== *)

(** What [load_block] puts into one lane of the block: the sample cell
    converted to [float], times [scale * w] for the window weight [w]. *)
Definition load_sample (bits_per_sample : Z) (w : float32) (cell : Z) : float32 :=
  let bytes_per_sample := Z.quot (bits_per_sample + 7) 8 in
  let input :=
    if bytes_per_sample =? 1 then F32.of_int (as_uint8 cell)
    else if bytes_per_sample =? 2 then F32.of_int (as_uint16 cell)
    else F32.of_bits cell in
  F32.mul (F32.mul (sample_scale bits_per_sample) w) input.

(** What [store_frame] writes for one accumulator cell. *)
Definition store_sample (bits_per_sample : Z) (acc : float32) : Z :=
  let bytes_per_sample := Z.quot (bits_per_sample + 7) 8 in
  if bytes_per_sample =? 1 then as_uint8 (quantize bits_per_sample acc)
  else if bytes_per_sample =? 2 then as_uint16 (quantize bits_per_sample acc)
  else F32.to_bits (F32.div acc (sample_scale bits_per_sample)).

(** A sample loaded with analysis weight [1.0], left alone by the
    filter, accumulated once into a zeroed cell with synthesis weight
    [1.0] and stored. *)
Definition codec_round_trip (bits_per_sample : Z) (cell : Z) : Z :=
  store_sample bits_per_sample
    (F32.fma (load_sample bits_per_sample F32.one cell) F32.one F32.zero).

(** [FLT_MAX] and a sample just above one half. *)
Definition FLT_MAX : float32 := S754_finite false 16777215 104.
Definition sample_0_5023 : float32 := S754_finite false 8427392 (-24).

(** The check behind the integer round trip, for one sample value [v]:
    [v] converts to a normal [float] with an exponent between -23 and
    -8, and adding [0.5f] and truncating gives [v] back. *)
Definition rounds_back (v : Z) : bool :=
  match F32.of_int v with
  | S754_finite false m e =>
      (digits2_pos m =? 24)%positive && (-23 <=? e) && (e <=? -8)
      && (F32.to_int (F32.add (S754_finite false m e) F32.half) =? v)
  | _ => false
  end.

(** [f lo && f (lo+1) && ... ] over [cnt] consecutive integers. *)
Fixpoint all_from (f : Z -> bool) (lo : Z) (cnt : nat) : bool :=
  match cnt with
  | O => true
  | S cnt' => if f lo then all_from f (lo + 1) cnt' else false
  end.

(* ================================================================== *)
(** ** [RDFT]: sizes, and a stand-in for the C library                 *)
(* ================================================================== *)

(** The double [2^-53], half the distance from 1 to the next double. *)
Definition two_pow_minus_53 : float64 := S754_finite false 4503599627370496 (-105).

(** Stand-ins for [cos] and [sin] that are right at zero (cos 0 = 1,
    sin 0 = 0), finite on finite arguments and NaN elsewhere; they are
    only used to run [RDFT] on concrete inputs. *)
Definition stub_cos (x : float64) : float64 :=
  match x with
  | S754_zero _ => F64.one
  | S754_finite _ _ _ => F64.zero
  | _ => S754_nan
  end.

Definition stub_sin (x : float64) : float64 :=
  match x with
  | S754_zero s => S754_zero s
  | S754_finite _ _ _ => F64.zero
  | _ => S754_nan
  end.

(* ================================================================== *)
(** ** Footprints: the cells the loops read, and where values come from *)
(* ================================================================== *)

(** The cells of [shifted_src] that one call of [load_block] reads:
    sixteen lanes from [(i * offset_y + j) * offset_x] on, for every
    row [j] of every temporal slice [i]. *)
Definition load_block_cells (radius offset_y offset_x : Z) : list Z :=
  flat_map
    (fun i =>
       flat_map (fun j => map (fun k => (i * offset_y + j) * offset_x + k) lanes)
                (zseq 0 16))
    (zseq 0 (Z.to_nat (2 * radius + 1))).

(** The source index that cell [t] of a padded axis takes its value
    from, [t] counted from the first valid cell of a plane of [n] cells:
    the loops of [reflection_padding_impl] read [offset * 2 - x] on the
    low side and [2 * (offset + n) - 2 - x] on the high side, which
    relative to [offset] are [- t] and [2 * (n - 1) - t]. *)
Definition mirror (n t : Z) : Z :=
  if t <? 0 then - t else if t <? n then t else 2 * (n - 1) - t.

(* ================================================================== *)
(** ** Frame requests and buffer allocation                            *)
(* ================================================================== *)

(** The frames [DFTTestGetFrame] asks the host for on [arInitial]: the
    loop over [i] from [start] to [end], both included. *)
Definition requested_frames (n : Z) (d : DFTTestData) : list Z :=
  let start := Z.max (n - radius d) 0 in
  let vi := node_vi (node d) in
  let end_ := Z.min (n + radius d) (numFrames vi - 1) in
  zseq start (Z.to_nat (end_ + 1 - start)).

(** The filter [d] on a clip with the same video info whose frames are
    given by [frames]. *)
Definition with_frames (d : DFTTestData) (frames : Z -> VSFrameRef) : DFTTestData :=
  {| node := {| node_vi := node_vi (node d); getFrameFilter := frames |};
     radius := radius d;
     block_size := block_size d;
     block_step := block_step d;
     process := process d;
     zero_mean := zero_mean d;
     window := window d;
     window_freq := window_freq d;
     sigma := sigma d;
     filter_type := filter_type d;
     sigma2 := sigma2 d;
     pmin := pmin d;
     pmax := pmax d |}.

(** The sizes in bytes of the two per-thread buffers, as a worker
    allocates them on its first frame: [padded_size] for [padded] and
    the argument of the second [malloc] for [padded2]. *)
Definition padded_size (d : DFTTestData) (vi : VSVideoInfo) (fmt : VSFormat) : option Z :=
  pad_h <- calc_pad_size (vi_height vi) (block_size d) (block_step d) ;;
  pad_w <- calc_pad_size (vi_width vi) (block_size d) (block_step d) ;;
  Some ((2 * radius d + 1) * pad_h * pad_w * bytesPerSample fmt).

Definition padded2_size (d : DFTTestData) (vi : VSVideoInfo) : option Z :=
  pad_h <- calc_pad_size (vi_height vi) (block_size d) (block_step d) ;;
  pad_w <- calc_pad_size (vi_width vi) (block_size d) (block_step d) ;;
  Some (pad_h * pad_w * 4).

(** The same sizes in the arithmetic of the compiled code: [padded_size]
    is an [int] product, the argument of the second [malloc] an [int]
    product that is converted to [size_t] and then multiplied by
    [sizeof(float)]. *)
Definition padded_size_int (d : DFTTestData) (vi : VSVideoInfo) (fmt : VSFormat)
    : option Z :=
  pad_h <- calc_pad_size_int (vi_height vi) (block_size d) (block_step d) ;;
  pad_w <- calc_pad_size_int (vi_width vi) (block_size d) (block_step d) ;;
  Some (int_mul (int_mul (int_mul (int_add (int_mul 2 (radius d)) 1) pad_h) pad_w)
                (bytesPerSample fmt)).

Definition padded2_size_int (d : DFTTestData) (vi : VSVideoInfo) : option Z :=
  pad_h <- calc_pad_size_int (vi_height vi) (block_size d) (block_step d) ;;
  pad_w <- calc_pad_size_int (vi_width vi) (block_size d) (block_step d) ;;
  Some ((int_mul pad_h pad_w mod 2 ^ 64 * 4) mod 2 ^ 64).

(** Whether the sample buffer of a [width] x [height] plane, the largest
    size and the largest index that [DFTTestGetFrame] forms for it, fits
    an [int]: [(2 * radius + 1) * pad_height * pad_width *
    bytesPerSample] with a radius that is not negative and samples of at
    least one byte. *)
Definition sizes_fit_int (d : DFTTestData) (fmt : VSFormat) (width height : Z) : bool :=
  match calc_pad_size height (block_size d) (block_step d),
        calc_pad_size width (block_size d) (block_step d) with
  | Some pad_h, Some pad_w =>
      (0 <=? width) && (0 <=? height) && (0 <=? radius d)
      && (1 <=? bytesPerSample fmt)
      && ((2 * radius d + 1) * pad_h * pad_w * bytesPerSample fmt <=? INT_MAX)
  | _, _ => false
  end.

(* ================================================================== *)
(** ** More concrete inputs                                            *)
(* ================================================================== *)

(** A three-frame 32x32 8-bit gray clip; sample [c] of frame [k] is
    [(k + c) mod 256]. *)
Definition gray8_clip_32 : VSNodeRef :=
  {| node_vi := {| format := Some gray8; vi_width := 32; vi_height := 32; numFrames := 3 |};
     getFrameFilter :=
       fun k =>
         {| frame_format := gray8;
            frame_planes :=
              [ {| plane_width := 32; plane_height := 32; plane_stride := 32;
                   plane_data := fun c => (k + c) mod 256 |} ] |} |}.

(** [DFTTest(gray8_clip_32, ..., radius=1, block_step=8)]. *)
Definition gray8_args_32 : DFTTestArgs :=
  {| arg_clip := gray8_clip_32;
     arg_window := ramp 768;
     arg_sigma := ramp 432;
     arg_sigma2 := F64.one;
     arg_pmin := F64.zero;
     arg_pmax := F64.one;
     arg_filter_type := 0;
     arg_radius := Some 1;
     arg_block_size := None;
     arg_block_step := Some 8;
     arg_zero_mean := Some 0;
     arg_window_freq := [];
     arg_planes := [] |}.

(** Storage for a one-plane 32x32 frame, and per-thread buffers that
    still hold data from earlier work. *)
Definition blank_frame_32 : VSFrameRef :=
  {| frame_format := gray8; frame_planes := [blank_plane 32 32] |}.

Definition used_thread_data : DFTTestThreadData :=
  {| padded := fun i => (1000 + i) mod 256; padded2 := fun _ => F32.one |}.

(* ================================================================== *)
(** ** The registry of per-thread buffers                              *)
(* ================================================================== *)

(** The first part of [DFTTestGetFrame] on [arAllFramesReady] finds the
    calling thread's buffers in [d->thread_data], or allocates and
    registers them.  It is run by several threads at once; it is
    modelled as a transition system in which a thread takes one step at
    a time, a step being one operation on the shared state (the atomic
    counter, the map, the lock).  The steps of different threads
    interleave in any order; the weaker ordering that
    [memory_order::acquire] and [release] would allow is not
    modelled. *)
Module Registry.

Definition thread_id := nat.

(** Where a thread stands. *)
Inductive pc_t :=
| at_load                               (* num_uninitialized_threads.load(acquire) *)
| at_fast_at                            (* const_data.at(thread_id), no lock held *)
| at_lock_shared                        (* thread_data_lock.lock_shared() *)
| at_slow_at                            (* const_data.at(thread_id) in the try block *)
| at_unlock_shared (initialized : bool) (* thread_data_lock.unlock_shared() *)
| at_lock                               (* buffers allocated; lock_guard takes the lock *)
| at_emplace                            (* thread_data.emplace(thread_id, thread_data) *)
| at_unlock                             (* the lock_guard goes out of scope *)
| at_fetch_sub                          (* num_uninitialized_threads.fetch_sub(1, release) *)
| running                               (* the buffers are in hand: the frame is filtered *)
| terminated.                           (* out_of_range left the noexcept function *)

Record state := {
  num_uninitialized_threads : Z;
  thread_data : thread_id -> option DFTTestThreadData;
  readers : nat;            (* holders of thread_data_lock in shared mode *)
  writer : bool;            (* thread_data_lock is held exclusively *)
  pc : thread_id -> pc_t
}.

Definition set_pc (pcs : thread_id -> pc_t) (t : thread_id) (p : pc_t)
    : thread_id -> pc_t :=
  fun u => if Nat.eqb u t then p else pcs u.

(** [thread_data.emplace(t, b)]: an existing entry is kept. *)
Definition emplace (m : thread_id -> option DFTTestThreadData) (t : thread_id)
    (b : DFTTestThreadData) : thread_id -> option DFTTestThreadData :=
  fun u => if Nat.eqb u t then match m t with Some old => Some old | None => Some b end
           else m u.

(** The state [DFTTestCreate] leaves: the counter holds the number of
    worker threads of the core and the map is empty. *)
Definition init (numThreads : Z) : state :=
  {| num_uninitialized_threads := numThreads;
     thread_data := fun _ => None;
     readers := 0;
     writer := false;
     pc := fun _ => at_load |}.

(** One step of thread [t]; [None] when the thread cannot move (it
    waits for the lock, or it is gone).  [malloc t] stands for the two
    buffers the thread allocates. *)
Definition step (malloc : thread_id -> DFTTestThreadData) (t : thread_id) (s : state)
    : option state :=
  let goto p :=
    {| num_uninitialized_threads := num_uninitialized_threads s;
       thread_data := thread_data s;
       readers := readers s;
       writer := writer s;
       pc := set_pc (pc s) t p |} in
  match pc s t with
  | at_load =>
      Some (goto (if num_uninitialized_threads s =? 0 then at_fast_at else at_lock_shared))
  | at_fast_at =>
      Some (goto match thread_data s t with Some _ => running | None => terminated end)
  | at_lock_shared =>
      if writer s then None
      else Some {| num_uninitialized_threads := num_uninitialized_threads s;
                   thread_data := thread_data s;
                   readers := S (readers s);
                   writer := writer s;
                   pc := set_pc (pc s) t at_slow_at |}
  | at_slow_at =>
      Some (goto (at_unlock_shared
                    match thread_data s t with Some _ => true | None => false end))
  | at_unlock_shared initialized =>
      Some {| num_uninitialized_threads := num_uninitialized_threads s;
              thread_data := thread_data s;
              readers := Nat.pred (readers s);
              writer := writer s;
              pc := set_pc (pc s) t (if initialized then running else at_lock) |}
  | at_lock =>
      if writer s || negb (Nat.eqb (readers s) 0) then None
      else Some {| num_uninitialized_threads := num_uninitialized_threads s;
                   thread_data := thread_data s;
                   readers := readers s;
                   writer := true;
                   pc := set_pc (pc s) t at_emplace |}
  | at_emplace =>
      Some {| num_uninitialized_threads := num_uninitialized_threads s;
              thread_data := emplace (thread_data s) t (malloc t);
              readers := readers s;
              writer := writer s;
              pc := set_pc (pc s) t at_unlock |}
  | at_unlock =>
      Some {| num_uninitialized_threads := num_uninitialized_threads s;
              thread_data := thread_data s;
              readers := readers s;
              writer := false;
              pc := set_pc (pc s) t at_fetch_sub |}
  | at_fetch_sub =>
      Some {| num_uninitialized_threads := num_uninitialized_threads s - 1;
              thread_data := thread_data s;
              readers := readers s;
              writer := writer s;
              pc := set_pc (pc s) t running |}
  | running => Some (goto at_load)
  | terminated => None
  end.

(** The threads of [schedule] take one step each, in that order; a
    thread that cannot move is passed over. *)
Fixpoint run (malloc : thread_id -> DFTTestThreadData) (schedule : list thread_id)
    (s : state) : state :=
  match schedule with
  | [] => s
  | t :: rest =>
      run malloc rest match step malloc t s with Some s' => s' | None => s end
  end.

End Registry.

(** The quantities the registry's invariant speaks about. *)
Definition b2z (b : bool) : Z := if b then 1 else 0.

(** The number of threads of [l] for which [f] holds. *)
Fixpoint zcount (f : Registry.thread_id -> bool) (l : list Registry.thread_id) : Z :=
  match l with
  | [] => 0
  | t :: rest => b2z (f t) + zcount f rest
  end.

Definition has_entry (m : Registry.thread_id -> option DFTTestThreadData) (t : Registry.thread_id) : bool :=
  match m t with Some _ => true | None => false end.

(** The thread has not yet counted itself out of
    [num_uninitialized_threads]: it has no entry, or it has just made
    one and stands before or at its [fetch_sub]. *)
Definition uncounted_at (p : Registry.pc_t) (has : bool) : bool :=
  match p with
  | Registry.at_unlock | Registry.at_fetch_sub => true
  | _ => negb has
  end.

Definition uncounted (s : Registry.state) (t : Registry.thread_id) : bool :=
  uncounted_at (Registry.pc s t) (has_entry (Registry.thread_data s) t).

Definition is_reader (p : Registry.pc_t) : bool :=
  match p with Registry.at_slow_at | Registry.at_unlock_shared _ => true | _ => false end.

Definition is_writer (p : Registry.pc_t) : bool :=
  match p with Registry.at_emplace | Registry.at_unlock => true | _ => false end.

(** What holds in every state that the threads of [pool] can reach
    when the counter starts [slack] above their number. *)
Record invariant (slack : Z) (pool : list Registry.thread_id) (s : Registry.state) : Prop := {
  inv_counter : Registry.num_uninitialized_threads s = slack + zcount (uncounted s) pool;
  inv_fast : forall t, Registry.pc s t = Registry.at_fast_at -> Registry.num_uninitialized_threads s = 0;
  inv_entry : forall t,
      match Registry.pc s t with
      | Registry.at_lock | Registry.at_emplace => has_entry (Registry.thread_data s) t = false
      | Registry.at_unlock | Registry.at_fetch_sub | Registry.running => has_entry (Registry.thread_data s) t = true
      | Registry.at_unlock_shared initialized => initialized = has_entry (Registry.thread_data s) t
      | Registry.terminated => False
      | Registry.at_load | Registry.at_fast_at | Registry.at_lock_shared | Registry.at_slow_at => True
      end;
  inv_outside : forall t, ~ In t pool -> Registry.pc s t = Registry.at_load /\ has_entry (Registry.thread_data s) t = false;
  inv_readers : Z.of_nat (Registry.readers s) = zcount (fun t => is_reader (Registry.pc s t)) pool;
  inv_writer : b2z (Registry.writer s) = zcount (fun t => is_writer (Registry.pc s t)) pool;
  inv_excl : Registry.writer s = true -> Registry.readers s = 0%nat
}.

(* ================================================================== *)
(** * Properties                                                       *)
(* ================================================================== *)

Lemma Some_inj {A : Type} (a b : A) : Some a = Some b -> a = b.
Proof. congruence. Qed.

Lemma inr_inj {A B : Type} (a b : B) : @inr A B a = inr b -> a = b.
Proof. congruence. Qed.

(** ** Padding arithmetic *)

Lemma zseq_In (lo : Z) (cnt : nat) (v : Z) :
  In v (zseq lo cnt) <-> lo <= v < lo + Z.of_nat cnt.
Proof.
  revert lo; induction cnt as [|cnt IH]; intros lo; simpl zseq.
  - simpl; lia.
  - simpl In. rewrite IH. lia.
Qed.

Lemma zseq_length (lo : Z) (cnt : nat) : List.length (zseq lo cnt) = cnt.
Proof. revert lo; induction cnt; intros; simpl; auto. Qed.

Lemma zseq_nth (cnt : nat) (lo : Z) (k : nat) (d : Z) :
  (k < cnt)%nat -> nth k (zseq lo cnt) d = lo + Z.of_nat k.
Proof.
  revert lo k; induction cnt as [|cnt IH]; intros lo k Hk; [lia|].
  destruct k as [|k]; simpl.
  - lia.
  - rewrite IH by lia. lia.
Qed.

(** Rounding a size up to the next multiple of sixteen. *)
Lemma round_up_16 (n : Z) :
  0 <= n ->
  exists k, n + (if Z.rem n 16 =? 0 then 0 else 16 - Z.rem n 16) = 16 * k
            /\ n <= 16 * k < n + 16.
Proof.
  intros Hn.
  pose proof (Z.quot_rem' n 16) as E.
  pose proof (Z.rem_bound_pos n 16 Hn ltac:(lia)) as B.
  destruct (Z.eqb_spec (Z.rem n 16) 0) as [R|R].
  - exists (Z.quot n 16). lia.
  - exists (Z.quot n 16 + 1). lia.
Qed.

Lemma calc_pad_size_16 (n bs : Z) :
  calc_pad_size n 16 bs
  = Some (n + (if Z.rem n 16 =? 0 then 0 else 16 - Z.rem n 16)
          + Z.max (16 - bs) bs * 2).
Proof. reflexivity. Qed.

Lemma calc_pad_num_16 (n bs : Z) :
  bs <> 0 ->
  calc_pad_num n 16 bs
  = Some (Z.quot (n + (if Z.rem n 16 =? 0 then 0 else 16 - Z.rem n 16)
                  + Z.max (16 - bs) bs * 2 - 16) bs + 1).
Proof.
  intros Hbs. unfold calc_pad_num. rewrite calc_pad_size_16.
  unfold bind, c_div. destruct (Z.eqb_spec bs 0); [contradiction|reflexivity].
Qed.

(** The padded size is a multiple of sixteen that holds the plane, plus
    the margin [2 * max (16 - block_step) block_step]. *)
Lemma calc_pad_size_spec (n bs : Z) :
  0 <= n ->
  exists k, calc_pad_size n 16 bs = Some (16 * k + 2 * Z.max (16 - bs) bs)
            /\ n <= 16 * k < n + 16.
Proof.
  intros Hn. destruct (round_up_16 n Hn) as (k & E & B).
  exists k. split; [|exact B].
  rewrite calc_pad_size_16. f_equal. lia.
Qed.

(** C2, as stated, fails: a 16-sample plane with [block_step = 3] is
    padded to 42 samples, and 42 - 16 = 26 is not a multiple of 3. *)
Lemma C2_block_step_3_does_not_tile :
  calc_pad_size 16 16 3 = Some 42 /\ Z.rem (42 - 16) 3 <> 0.
Proof. split; [reflexivity | discriminate]. Qed.

(** C2, amended: with [block_size = 16] and [block_step >= 1], the
    padded size satisfies [(calc_pad_size n 16 block_step - 16) %
    block_step == 0] for every plane size [n >= 1] exactly when
    [block_step] divides 16, that is for the steps 1, 2, 4, 8 and 16. *)
Theorem C2_pad_size_tiles_iff_step_divides_16 (block_step : Z) :
  1 <= block_step ->
  (forall n, 1 <= n ->
     exists p, calc_pad_size n 16 block_step = Some p
               /\ Z.rem (p - 16) block_step = 0)
  <-> (block_step | 16).
Proof.
  intros Hbs. split.
  - intros Hall.
    destruct (Hall 1 ltac:(lia)) as (p1 & E1 & R1).
    destruct (Hall 17 ltac:(lia)) as (p2 & E2 & R2).
    destruct (calc_pad_size_spec 1 block_step ltac:(lia)) as (k1 & F1 & B1).
    destruct (calc_pad_size_spec 17 block_step ltac:(lia)) as (k2 & F2 & B2).
    rewrite F1 in E1. rewrite F2 in E2.
    apply Some_inj in E1, E2. subst p1 p2.
    apply Z.rem_divide in R1; [|lia]. apply Z.rem_divide in R2; [|lia].
    destruct R1 as [a Ha]. destruct R2 as [b Hb].
    exists (b - a). lia.
  - intros [q Hq] n Hn.
    destruct (calc_pad_size_spec n block_step ltac:(lia)) as (k & E & B).
    rewrite E. eexists; split; [reflexivity|].
    apply Z.rem_divide; [lia|].
    assert (Hq0 : 0 < q) by nia.
    destruct (Z.max_spec (16 - block_step) block_step) as [[_ ->]|[_ ->]].
    + exists (q * k + 2 - q). nia.
    + exists (q * k + 2 * q - 2 - q). nia.
Qed.

(** C2 at [block_step = 8]. *)
Lemma C2_pad_size_tiles_witness :
  (forall n, 1 <= n ->
     exists p, calc_pad_size n 16 8 = Some p /\ Z.rem (p - 16) 8 = 0)
  <-> (8 | 16).
Proof. apply (C2_pad_size_tiles_iff_step_divides_16 8); lia. Defined.

(** ** Loops *)

Lemma for_up_ind {St : Type} (P : Z -> St -> Prop) (body : Z -> St -> St) :
  forall (cnt : nat) (i : Z) (s : St),
    P i s ->
    (forall k t, i <= k < i + Z.of_nat cnt -> P k t -> P (k + 1) (body k t)) ->
    P (i + Z.of_nat cnt) (for_up cnt i body s).
Proof.
  induction cnt as [|cnt IH]; intros i s H0 Hstep; simpl for_up.
  - replace (i + Z.of_nat 0) with i by lia. exact H0.
  - replace (i + Z.of_nat (S cnt)) with ((i + 1) + Z.of_nat cnt) by lia.
    apply IH.
    + apply Hstep; [lia | exact H0].
    + intros k t Hk. apply Hstep. lia.
Qed.

(** A loop invariant that does not mention the counter. *)
Lemma for_range_inv {St : Type} (P : St -> Prop) (body : Z -> St -> St)
    (lo hi : Z) (s : St) :
  P s ->
  (forall k t, lo <= k < hi -> P t -> P (body k t)) ->
  P (for_range lo hi body s).
Proof.
  intros H0 Hstep. unfold for_range.
  apply (for_up_ind (fun _ t => P t)); [exact H0|].
  intros k t Hk. apply Hstep. lia.
Qed.

(** Splitting a loop at [mid]. *)
Lemma for_up_app {St : Type} (body : Z -> St -> St) :
  forall (a b : nat) (i : Z) (s : St),
    for_up (a + b) i body s = for_up b (i + Z.of_nat a) body (for_up a i body s).
Proof.
  induction a as [|a IH]; intros b i s.
  - simpl. f_equal. lia.
  - simpl plus. simpl for_up. rewrite IH. f_equal. lia.
Qed.

Lemma for_range_split {St : Type} (body : Z -> St -> St) (lo mid hi : Z) (s : St) :
  lo <= mid <= hi ->
  for_range lo hi body s = for_range mid hi body (for_range lo mid body s).
Proof.
  intros H. unfold for_range.
  replace (Z.to_nat (hi - lo)) with (Z.to_nat (mid - lo) + Z.to_nat (hi - mid))%nat by lia.
  rewrite for_up_app. f_equal. lia.
Qed.

Lemma for_range_one {St : Type} (body : Z -> St -> St) (k : Z) (s : St) :
  for_range k (k + 1) body s = body k s.
Proof.
  unfold for_range. replace (k + 1 - k) with 1 by lia. reflexivity.
Qed.

Lemma for_range_empty {St : Type} (body : Z -> St -> St) (lo hi : Z) (s : St) :
  hi <= lo -> for_range lo hi body s = s.
Proof.
  intros H. unfold for_range. replace (Z.to_nat (hi - lo)) with 0%nat by lia.
  reflexivity.
Qed.

(** The state around iteration [k]: what ran before, the iteration, what
    runs after. *)
Lemma for_range_at {St : Type} (body : Z -> St -> St) (lo hi k : Z) (s : St) :
  lo <= k < hi ->
  for_range lo hi body s
  = for_range (k + 1) hi body (body k (for_range lo k body s)).
Proof.
  intros H.
  rewrite (for_range_split body lo k hi) by lia.
  rewrite (for_range_split body k (k + 1) hi) by lia.
  rewrite for_range_one. reflexivity.
Qed.

(** ** Block grid coverage *)

Lemma store_block_cells_In (pitch c : Z) :
  In c (store_block_cells pitch)
  <-> exists r k, 0 <= r < 16 /\ 0 <= k < 16 /\ c = r * pitch + k.
Proof.
  unfold store_block_cells, lanes. rewrite in_flat_map. split.
  - intros (r & Hr & Hc). apply in_map_iff in Hc. destruct Hc as (k & <- & Hk).
    apply zseq_In in Hr. apply zseq_In in Hk. exists r, k. lia.
  - intros (r & k & Hr & Hk & ->). exists r. split.
    + apply zseq_In. lia.
    + apply in_map_iff. exists k. split; [reflexivity|]. apply zseq_In. lia.
Qed.

Lemma block_cells_In (pad_width block_step i j c : Z) :
  In c (block_cells pad_width block_step i j)
  <-> exists r k, 0 <= r < 16 /\ 0 <= k < 16
                  /\ c = (i * block_step + r) * pad_width + (j * block_step + k).
Proof.
  unfold block_cells. rewrite in_map_iff. split.
  - intros (c0 & <- & H). apply store_block_cells_In in H.
    destruct H as (r & k & Hr & Hk & ->). exists r, k. repeat split; try lia.
  - intros (r & k & Hr & Hk & ->). exists (r * pad_width + k). split; [lia|].
    apply store_block_cells_In. exists r, k. lia.
Qed.



(** The margin is another matter: with [block_step = 3] a 16x16 plane is
    padded to 42x42 and gets 9 blocks per axis, which end at column 40;
    cell 41 of the first row lies in none of them.  [store_frame] never
    reads such a cell. *)
Remark grid_leaves_margin_cells_uncovered :
  calc_pad_size 16 16 3 = Some 42
  /\ calc_pad_num 16 16 3 = Some 9
  /\ forall i j, 0 <= i < 9 -> 0 <= j < 9 -> ~ In 41 (block_cells 42 3 i j).
Proof.
  split; [reflexivity|]. split; [reflexivity|].
  intros i j Hi Hj H. apply block_cells_In in H.
  destruct H as (r & k & Hr & Hk & E). lia.
Qed.

(** For plane sizes that leave room for the margin, the padded size is
    still an [int]: the arithmetic above never overflows. *)
Lemma calc_pad_size_fits_int (n block_step p : Z) :
  0 <= n <= INT_MAX - 48 -> 1 <= block_step <= 16 ->
  calc_pad_size n 16 block_step = Some p -> 0 <= p <= INT_MAX.
Proof.
  intros Hn Hb E. destruct (calc_pad_size_spec n block_step ltac:(lia)) as (k & F & B).
  rewrite F in E. apply Some_inj in E. unfold INT_MAX in *. lia.
Qed.

Lemma bind_ext {A B : Type} (o : option A) (k1 k2 : A -> option B) :
  (forall a, k1 a = k2 a) -> bind o k1 = bind o k2.
Proof. intros H. destruct o; [apply H|reflexivity]. Qed.

(** Loops with bodies that agree on the range agree. *)
Lemma for_range_ext {St : Type} (body1 body2 : Z -> St -> St) (lo hi : Z) (s : St) :
  (forall k t, lo <= k < hi -> body1 k t = body2 k t) ->
  for_range lo hi body1 s = for_range lo hi body2 s.
Proof.
  intros H. unfold for_range.
  assert (G : forall cnt i s, lo <= i -> i + Z.of_nat cnt <= Z.max lo hi ->
                for_up cnt i body1 s = for_up cnt i body2 s).
  { induction cnt as [|cnt IH]; intros i s0 Hi Hc; [reflexivity|].
    simpl for_up. rewrite H by lia. apply IH; lia. }
  apply G; lia.
Qed.

(** ** The synthesis window *)

(** [store_block] reads its window only through rows 0 to 15 of the
    pointer it is given. *)
Lemma store_block_window_rows (dst : mem float32) (blk w1 w2 : mem Vec16f)
    (bsz bst width height : Z) :
  (forall i, 0 <= i < 16 -> w1 i = w2 i) ->
  store_block dst blk bsz bst width height w1
  = store_block dst blk bsz bst width height w2.
Proof.
  intros Hw. unfold store_block.
  apply bind_ext. intros pitch. apply (f_equal Some).
  apply for_range_ext. intros i t Hi. rewrite Hw by exact Hi. reflexivity.
Qed.

(** Whatever the radius, the rows handed to [store_block] are the rows
    of temporal slice [2 * radius] of the window tensor. *)
Lemma synthesis_rows_are_slice_2r (d : DFTTestData) :
  synthesis_rows d = window_slice d (2 * radius d).
Proof.
  unfold synthesis_rows, window_slice. apply map_ext. intros i.
  unfold synthesis_window, analysis_row, analysis_window, shift.
  f_equal. lia.
Qed.

(** At radius 0 this is the only slice there is, the centre one. *)
Lemma synthesis_rows_radius_0 (d : DFTTestData) :
  radius d = 0 -> synthesis_rows d = window_slice d (radius d).
Proof.
  intros H. rewrite synthesis_rows_are_slice_2r. rewrite H. reflexivity.
Qed.

(** C1 at radius 1: the filter set up by [DFTTestCreate] with a window
    tensor whose flat entry [k] is [k] hands [store_block] the rows of
    temporal slice 2 (the last frame), which are not the rows of the
    centre slice 1 that the claim names. *)
Theorem C1_synthesis_window_radius_1_is_last_slice :
  exists d,
    DFTTestCreate (example_args 1 None) = inr d
    /\ radius d = 1
    /\ List.length (window d) = 48%nat
    /\ synthesis_rows d = window_slice d 2
    /\ synthesis_rows d <> window_slice d (radius d)
    /\ lane (nth 0 (synthesis_rows d) vec_zero) 0 = F32.of_int 512
    /\ lane (nth 0 (window_slice d (radius d)) vec_zero) 0 = F32.of_int 256.
Proof.
  destruct (DFTTestCreate (example_args 1 None)) as [msg|d] eqn:E;
    [vm_compute in E; discriminate|].
  exists d. split; [reflexivity|].
  assert (R : radius d = 1).
  { apply (f_equal (fun r => match r with inr d => radius d | inl _ => 0 end)) in E.
    vm_compute in E. symmetry. exact E. }
  assert (W : window d = map (fun i => map (fun k => F32.of_int (i * 16 + k)) lanes)
                             (zseq 0 48)).
  { apply (f_equal (fun r => match r with inr d => window d | inl _ => [] end)) in E.
    rewrite <- E. vm_compute. reflexivity. }
  assert (S2 : lane (nth 0 (synthesis_rows d) vec_zero) 0 = F32.of_int 512).
  { unfold synthesis_rows, synthesis_window, shift. rewrite R, W. vm_compute. reflexivity. }
  assert (S1 : lane (nth 0 (window_slice d (radius d)) vec_zero) 0 = F32.of_int 256).
  { unfold window_slice, analysis_row, analysis_window. rewrite R, W. vm_compute. reflexivity. }
  split; [exact R|]. split; [rewrite W; reflexivity|].
  split; [rewrite synthesis_rows_are_slice_2r, R; reflexivity|].
  split; [|split; assumption].
  intros H. rewrite H in S2. rewrite S1 in S2. vm_compute in S2. discriminate.
Qed.

(** ** Faults and totality of the per-frame driver *)

Lemma calc_pad_size_total (size bsz bst : Z) :
  bsz <> 0 -> exists p, calc_pad_size size bsz bst = Some p.
Proof.
  intros H. unfold calc_pad_size, c_rem, bind.
  destruct (Z.eqb_spec bsz 0); [contradiction|]. eexists; reflexivity.
Qed.

Lemma calc_pad_num_total (size bsz bst : Z) :
  bsz <> 0 -> bst <> 0 -> exists p, calc_pad_num size bsz bst = Some p.
Proof.
  intros H1 H2. unfold calc_pad_num.
  destruct (calc_pad_size_total size bsz bst H1) as [p ->].
  unfold bind, c_div. destruct (Z.eqb_spec bst 0); [contradiction|].
  eexists; reflexivity.
Qed.

(** The block count divides by [block_step]. *)
Lemma calc_pad_num_step_0 (size bsz : Z) : calc_pad_num size bsz 0 = None.
Proof.
  unfold calc_pad_num, bind. destruct (calc_pad_size size bsz 0); reflexivity.
Qed.

Lemma for_upM_ind {St : Type} (P : Z -> St -> Prop) (body : Z -> St -> option St) :
  forall (cnt : nat) (i : Z) (s : St),
    P i s ->
    (forall k t, i <= k < i + Z.of_nat cnt -> P k t ->
                 exists t', body k t = Some t' /\ P (k + 1) t') ->
    exists s', for_upM cnt i body s = Some s' /\ P (i + Z.of_nat cnt) s'.
Proof.
  induction cnt as [|cnt IH]; intros i s H0 Hstep; simpl for_upM.
  - exists s. split; [reflexivity|]. replace (i + Z.of_nat 0) with i by lia. exact H0.
  - destruct (Hstep i s ltac:(lia) H0) as (t' & -> & Ht'). unfold bind.
    replace (i + Z.of_nat (S cnt)) with ((i + 1) + Z.of_nat cnt) by lia.
    apply IH; [exact Ht'|]. intros k t Hk. apply Hstep. lia.
Qed.

Lemma for_rangeM_inv {St : Type} (P : St -> Prop) (body : Z -> St -> option St)
    (lo hi : Z) (s : St) :
  P s ->
  (forall k t, lo <= k < hi -> P t -> exists t', body k t = Some t' /\ P t') ->
  exists s', for_rangeM lo hi body s = Some s' /\ P s'.
Proof.
  intros H0 Hstep. unfold for_rangeM.
  apply (for_upM_ind (fun _ t => P t)); [exact H0|].
  intros k t Hk. apply Hstep. lia.
Qed.

Lemma for_rangeM_total {St : Type} (body : Z -> St -> option St)
    (lo hi : Z) (s : St) :
  (forall k t, lo <= k < hi -> exists t', body k t = Some t') ->
  exists s', for_rangeM lo hi body s = Some s'.
Proof.
  intros Hstep.
  destruct (for_rangeM_inv (fun _ => True) body lo hi s I) as (s' & E & _).
  - intros k t Hk _. destruct (Hstep k t Hk) as [t' Et]. exists t'. split; [exact Et|exact I].
  - exists s'. exact E.
Qed.

(** One faulting iteration makes the loop fault. *)
Lemma for_upM_fault {St : Type} (body : Z -> St -> option St) (k : Z) :
  (forall t, body k t = None) ->
  forall (cnt : nat) (i : Z) (s : St),
    i <= k < i + Z.of_nat cnt -> for_upM cnt i body s = None.
Proof.
  intros Hk. induction cnt as [|cnt IH]; intros i s Hr; [lia|].
  simpl for_upM. destruct (Z.eq_dec i k) as [->|Hne].
  - rewrite Hk. reflexivity.
  - destruct (body i s) as [s'|]; [|reflexivity]. simpl. apply IH. lia.
Qed.

Section DriverFacts.
Variable fused :
  mem Vec16f -> mem Vec16f -> float32 -> float32 -> float32 -> Z -> bool ->
  mem Vec16f -> Z -> mem Vec16f.
Variable block0 : mem Vec16f.

Lemma reflection_padding_total {T : Type} (dst src : mem T)
    (width height stride bsz bst bps : Z) :
  bsz <> 0 ->
  exists m, reflection_padding dst src width height stride bsz bst bps = Some m.
Proof.
  intros H.
  assert (G : exists m, reflection_padding_impl dst src width height stride bsz bst = Some m).
  { unfold reflection_padding_impl.
    destruct (calc_pad_size_total width bsz bst H) as [pw ->].
    destruct (calc_pad_size_total height bsz bst H) as [ph ->].
    unfold bind. eexists; reflexivity. }
  unfold reflection_padding.
  destruct (bps =? 1); [exact G|]. destruct (bps =? 2); [exact G|].
  destruct (bps =? 4); [exact G|]. eexists; reflexivity.
Qed.

Lemma load_block_total (blk : mem Vec16f) (src : mem Z)
    (r bsz bst width height : Z) (w : mem Vec16f) (bits : Z) :
  exists b, load_block blk src r bsz bst width height w bits = Some b.
Proof.
  unfold load_block.
  destruct (calc_pad_size_total width 16 bst ltac:(lia)) as [pw ->].
  destruct (calc_pad_size_total height 16 bst ltac:(lia)) as [ph ->].
  unfold bind. eexists; reflexivity.
Qed.

Lemma store_block_total (dst : mem float32) (blk : mem Vec16f)
    (bsz bst width height : Z) (w : mem Vec16f) :
  exists m, store_block dst blk bsz bst width height w = Some m.
Proof.
  unfold store_block.
  destruct (calc_pad_size_total width 16 bst ltac:(lia)) as [pw ->].
  unfold bind. eexists; reflexivity.
Qed.

Lemma filter_blocks_total (d : DFTTestData) (fmt : VSFormat)
    (width height : Z) (p : mem Z) (p2 : mem float32) :
  block_size d <> 0 -> block_step d <> 0 ->
  exists m, filter_blocks fused block0 d fmt width height p p2 = Some m.
Proof.
  intros Hs Ht. unfold filter_blocks.
  destruct (calc_pad_num_total height _ _ Hs Ht) as [ny ->].
  destruct (calc_pad_num_total width _ _ Hs Ht) as [nx Enx].
  destruct (calc_pad_size_total width _ (block_step d) Hs) as [pw Epw].
  cbn [bind]. apply for_rangeM_total. intros i t _.
  rewrite Enx. cbn [bind]. apply for_rangeM_total. intros j t' _.
  rewrite Epw. cbn [bind].
  match goal with
  | |- context [load_block ?a ?b ?c ?e ?f ?g ?h ?w ?q] =>
      destruct (load_block_total a b c e f g h w q) as [blk ->]
  end.
  cbn [bind].
  match goal with
  | |- context [store_block ?a ?b ?c ?e ?f ?g ?w] =>
      destruct (store_block_total a b c e f g w) as [v ->]
  end.
  cbn [bind]. eexists; reflexivity.
Qed.

Lemma filter_blocks_step_0 (d : DFTTestData) (fmt : VSFormat)
    (width height : Z) (p : mem Z) (p2 : mem float32) :
  block_step d = 0 ->
  filter_blocks fused block0 d fmt width height p p2 = None.
Proof.
  intros H. unfold filter_blocks. rewrite H, calc_pad_num_step_0. reflexivity.
Qed.

Lemma filter_plane_step_0 (d : DFTTestData) (vi_fmt : VSFormat)
    (src_frames : list VSFrameRef) (center : VSFrameRef) (plane : Z)
    (st : DFTTestThreadData * VSFrameRef) :
  block_step d = 0 ->
  filter_plane fused block0 d vi_fmt src_frames center plane st = None.
Proof.
  intros H. unfold filter_plane. destruct st as [td f].
  destruct (c_div _ _); [|reflexivity]. cbn [bind].
  destruct (calc_pad_size (plane_height _) _ _) as [ph|]; [|reflexivity]. cbn [bind].
  destruct (calc_pad_size (plane_width _) _ _) as [pw|]; [|reflexivity]. cbn [bind].
  destruct (for_rangeM _ _ _ _) as [p|]; [|reflexivity]. cbn [bind].
  rewrite filter_blocks_step_0 by exact H. reflexivity.
Qed.

Lemma filter_plane_total (d : DFTTestData) (vi_fmt : VSFormat)
    (src_frames : list VSFrameRef) (center : VSFrameRef) (plane : Z)
    (td : DFTTestThreadData) (f : VSFrameRef) :
  block_size d <> 0 -> block_step d <> 0 -> bytesPerSample vi_fmt <> 0 ->
  exists td' data,
    filter_plane fused block0 d vi_fmt src_frames center plane (td, f)
    = Some (td', set_plane_data f plane data).
Proof.
  intros Hs Ht Hb. unfold filter_plane.
  unfold c_div. destruct (Z.eqb_spec (bytesPerSample vi_fmt) 0); [contradiction|].
  cbn [bind].
  destruct (calc_pad_size_total (plane_height (get_plane center plane)) _ (block_step d) Hs)
    as [ph ->].
  destruct (calc_pad_size_total (plane_width (get_plane center plane)) _ (block_step d) Hs)
    as [pw ->].
  cbn [bind].
  match goal with
  | |- context [for_rangeM ?lo ?hi ?body ?s0] =>
      destruct (for_rangeM_total body lo hi s0) as [p ->]
  end.
  { intros i t _.
    match goal with
    | |- context [reflection_padding ?a ?b ?c ?e ?g ?h ?i ?j] =>
        destruct (reflection_padding_total a b c e g h i j Hs) as [v ->]
    end.
    cbn [bind]. eexists; reflexivity. }
  cbn [bind].
  match goal with
  | |- context [filter_blocks _ _ ?a ?b ?c ?e ?g ?h] =>
      destruct (filter_blocks_total a b c e g h Hs Ht) as [p2 ->]
  end.
  cbn [bind]. eexists. eexists. reflexivity.
Qed.

End DriverFacts.

(** ** What [DFTTestCreate] establishes *)

Lemma set_process_length (process : list bool) (plane : Z) :
  List.length (set_process process plane) = List.length process.
Proof. unfold set_process. rewrite length_map. apply zseq_length. Qed.

Lemma select_planes_length (np : Z) (planes : list Z) :
  forall process process',
    select_planes np planes process = inr process' ->
    List.length process' = List.length process.
Proof.
  induction planes as [|p rest IH]; intros process process' H; simpl in H.
  - injection H as <-. reflexivity.
  - destruct ((cast_int p <? 0) || (np <=? cast_int p)); [discriminate|].
    destruct (nth (Z.to_nat (cast_int p)) process false); [discriminate|].
    apply IH in H. rewrite H. apply set_process_length.
Qed.

Ltac create_cases H :=
  repeat match type of H with
         | (if ?c then _ else _) = _ => destruct c eqn:?; [discriminate H|]
         | match ?c with inl _ => _ | inr _ => _ end = _ =>
             destruct c eqn:?; [discriminate H|]
         end.

Lemma DFTTestCreate_accepted (a : DFTTestArgs) (d : DFTTestData) :
  DFTTestCreate a = inr d ->
  node d = arg_clip a
  /\ (exists fmt, format (node_vi (node d)) = Some fmt)
  /\ 0 <= radius d <= 3
  /\ block_size d = 16
  /\ block_step d = match arg_block_step a with
                    | Some b => int64ToIntS b
                    | None => 16
                    end
  /\ List.length (process d) = 3%nat
  /\ List.length (window d) = Z.to_nat ((2 * radius d + 1) * 16).
Proof.
  unfold DFTTestCreate. intros H.
  destruct (format (node_vi (arg_clip a))) as [fmt|] eqn:Ef; [|discriminate H].
  create_cases H.
  match goal with
  | E : negb (?b =? 16) = false |- _ =>
      apply negb_false_iff in E; apply Z.eqb_eq in E; rename E into Ebs
  end.
  match goal with
  | E : (_ <? 0) || (3 <? _) = false |- _ =>
      apply orb_false_iff in E; destruct E as [Er1 Er2];
      apply Z.ltb_ge in Er1; apply Z.ltb_ge in Er2
  end.
  match goal with
  | E : select_planes _ _ _ = inr _ |- _ => apply select_planes_length in E; rename E into El
  end.
  apply inr_inj in H. subst d. cbn [node radius block_size block_step process window].
  rewrite Ebs.
  split; [reflexivity|]. split; [exists fmt; exact Ef|].
  split; [lia|]. split; [reflexivity|].
  split; [destruct (arg_block_step a); reflexivity|].
  split; [rewrite El; reflexivity|].
  rewrite length_map, zseq_length. f_equal.
  replace ((2 * match arg_radius a with Some r => int64ToIntS r | None => 0 end + 1) * 16 * 16)
    with (((2 * match arg_radius a with Some r => int64ToIntS r | None => 0 end + 1) * 16) * 16)
    by lia.
  apply Z.quot_mul. lia.
Qed.

(** The acceptance tests never look at [block_step]. *)
Lemma DFTTestCreate_any_block_step (a : DFTTestArgs) (d : DFTTestData) (bs : option Z) :
  DFTTestCreate a = inr d ->
  exists d', DFTTestCreate (with_block_step a bs) = inr d'
             /\ block_step d' = match bs with
                                | Some b => int64ToIntS b
                                | None => 16
                                end.
Proof.
  unfold DFTTestCreate. cbn [with_block_step arg_clip arg_window arg_sigma arg_sigma2
    arg_pmin arg_pmax arg_filter_type arg_radius arg_block_size arg_block_step
    arg_zero_mean arg_window_freq arg_planes].
  intros H.
  destruct (format (node_vi (arg_clip a))) as [fmt|] eqn:Ef; [|discriminate H].
  create_cases H.
  match goal with
  | E : negb (?b =? 16) = false |- _ =>
      pose proof E as Ebs; apply negb_false_iff in Ebs; apply Z.eqb_eq in Ebs
  end.
  eexists. split; [reflexivity|]. cbn [block_step]. rewrite Ebs.
  destruct bs; reflexivity.
Qed.

(** ** Planes of a frame *)

Lemma nth_map_zseq {A : Type} (g : Z -> A) (dflt : A) :
  forall (cnt : nat) (lo : Z) (k : nat),
    (k < cnt)%nat -> nth k (map g (zseq lo cnt)) dflt = g (lo + Z.of_nat k).
Proof.
  induction cnt as [|cnt IH]; intros lo k Hk; [lia|].
  destruct k as [|k]; simpl.
  - f_equal. lia.
  - rewrite IH by lia. f_equal. lia.
Qed.

Lemma nth_map_in {A B : Type} (g : A -> B) (l : list A) (k : nat) (da : A) (db : B) :
  (k < List.length l)%nat -> nth k (map g l) db = g (nth k l da).
Proof.
  revert k; induction l as [|x l IH]; intros k Hk; simpl in Hk; [lia|].
  destruct k as [|k]; simpl; [reflexivity|]. apply IH. lia.
Qed.

Lemma set_plane_data_length (f : VSFrameRef) (p : Z) (data : mem Z) :
  List.length (frame_planes (set_plane_data f p data)) = List.length (frame_planes f).
Proof. unfold set_plane_data. cbn [frame_planes]. rewrite length_map. apply zseq_length. Qed.

Lemma get_plane_set_other (f : VSFrameRef) (p q : Z) (data : mem Z) :
  0 <= q < Z.of_nat (List.length (frame_planes f)) -> q <> p ->
  get_plane (set_plane_data f p data) q = get_plane f q.
Proof.
  intros Hq Hne. unfold get_plane at 1. unfold set_plane_data. cbn [frame_planes].
  rewrite nth_map_zseq by lia. rewrite Z.add_0_l, Z2Nat.id by lia.
  destruct (Z.eqb_spec q p); [contradiction|reflexivity].
Qed.

Lemma newVideoFrame2_length (alloc : VSFrameRef) (fmt : VSFormat)
    (fr : list (option VSFrameRef)) (pl : list Z) :
  List.length (frame_planes (newVideoFrame2 alloc fmt fr pl)) = Z.to_nat (numPlanes fmt).
Proof. unfold newVideoFrame2. cbn [frame_planes]. rewrite length_map. apply zseq_length. Qed.

(** A plane whose flag is false is taken over from the centre frame. *)
Lemma newVideoFrame2_shared (alloc center : VSFrameRef) (fmt : VSFormat)
    (process : list bool) (plane : Z) :
  List.length process = 3%nat ->
  0 <= plane < numPlanes fmt -> plane < 3 ->
  nth (Z.to_nat plane) process false = false ->
  get_plane
    (newVideoFrame2 alloc fmt
       (map (fun p : bool => if p then None else Some center) process) [0; 1; 2])
    plane
  = get_plane center plane.
Proof.
  intros Hl Hp H3 Hf. unfold get_plane at 1. unfold newVideoFrame2. cbn [frame_planes].
  rewrite nth_map_zseq by lia. rewrite Z.add_0_l, Z2Nat.id by lia.
  rewrite (nth_map_in _ _ _ false) by lia. rewrite Hf.
  assert (C : plane = 0 \/ plane = 1 \/ plane = 2) by lia.
  destruct C as [ -> | [ -> | -> ] ]; reflexivity.
Qed.

Lemma center_of_src_frames (d : DFTTestData) (n : Z) :
  nth (Z.to_nat (radius d))
      (map (fun i => getFrameFilter (node d) (clamp i 0 (numFrames (node_vi (node d)) - 1)))
           (zseq (n - radius d) (Z.to_nat (2 * radius d + 1))))
      (getFrameFilter (node d) (clamp n 0 (numFrames (node_vi (node d)) - 1)))
  = center_frame d n.
Proof.
  unfold center_frame.
  rewrite (map_nth (fun i => getFrameFilter (node d)
                               (clamp i 0 (numFrames (node_vi (node d)) - 1)))).
  f_equal. f_equal.
  destruct (Z_lt_le_dec (radius d) 0) as [Hneg|Hpos].
  - replace (Z.to_nat (2 * radius d + 1)) with 0%nat by lia.
    destruct (Z.to_nat (radius d)); reflexivity.
  - rewrite zseq_nth by lia. lia.
Qed.

(** ** The per-frame driver *)

Section DriverTheorems.
Variable fused :
  mem Vec16f -> mem Vec16f -> float32 -> float32 -> float32 -> Z -> bool ->
  mem Vec16f -> Z -> mem Vec16f.
Variable block0 : mem Vec16f.

(** With [block_step = 0] a frame that has a plane to filter is never
    produced: the block count divides by zero. *)
Lemma DFTTestGetFrame_step_0_faults (n : Z) (d : DFTTestData)
    (thread_data : DFTTestThreadData) (alloc : VSFrameRef) (plane : Z) :
  block_step d = 0 ->
  0 <= plane < numPlanes (frame_format (center_frame d n)) ->
  nth (Z.to_nat plane) (process d) false = true ->
  DFTTestGetFrame fused block0 n arAllFramesReady d thread_data alloc = None.
Proof.
  intros H0 Hp Hf. unfold DFTTestGetFrame.
  destruct (format (node_vi (node d))) as [vi_fmt|]; [|reflexivity].
  rewrite center_of_src_frames.
  unfold for_rangeM. erewrite (for_upM_fault _ plane); [reflexivity| |lia].
  intros t. rewrite Hf. cbn [negb]. apply filter_plane_step_0. exact H0.
Qed.

(** Otherwise the frame is produced, and a plane whose flag is false
    still is the centre frame's plane. *)
Lemma DFTTestGetFrame_passthrough (n : Z) (d : DFTTestData) (vi_fmt : VSFormat)
    (thread_data : DFTTestThreadData) (alloc : VSFrameRef) (plane : Z) :
  format (node_vi (node d)) = Some vi_fmt ->
  block_size d <> 0 -> block_step d <> 0 -> bytesPerSample vi_fmt <> 0 ->
  List.length (process d) = 3%nat ->
  0 <= plane < numPlanes (frame_format (center_frame d n)) -> plane < 3 ->
  nth (Z.to_nat plane) (process d) false = false ->
  exists out thread_data',
    DFTTestGetFrame fused block0 n arAllFramesReady d thread_data alloc
    = Some (Some out, thread_data')
    /\ get_plane out plane = get_plane (center_frame d n) plane.
Proof.
  intros Ef Hs Ht Hb Hl Hp H3 Hf. unfold DFTTestGetFrame. rewrite Ef.
  rewrite center_of_src_frames.
  set (center := center_frame d n) in *.
  set (fmt := frame_format center) in *.
  match goal with
  | |- context [for_rangeM ?lo ?hi ?body ?s0] =>
      destruct (for_rangeM_inv
                  (fun st : DFTTestThreadData * VSFrameRef =>
                     List.length (frame_planes (snd st)) = Z.to_nat (numPlanes fmt)
                     /\ get_plane (snd st) plane = get_plane center plane)
                  body lo hi s0) as (st & -> & _ & Hst)
  end.
  - cbn [snd]. split; [apply newVideoFrame2_length|].
    apply newVideoFrame2_shared; assumption.
  - intros k [td f] Hk [Hlen Hpl]. cbn [snd] in *.
    destruct (nth (Z.to_nat k) (process d) false) eqn:Ek; cbn [negb].
    + destruct (filter_plane_total fused block0 d vi_fmt
                  (map (fun i => getFrameFilter (node d)
                                   (clamp i 0 (numFrames (node_vi (node d)) - 1)))
                       (zseq (n - radius d) (Z.to_nat (2 * radius d + 1))))
                  center k td f Hs Ht Hb) as (td' & data & ->).
      eexists; split; [reflexivity|]. cbn [snd].
      split; [rewrite set_plane_data_length; exact Hlen|].
      rewrite get_plane_set_other; [exact Hpl|lia|].
      intros ->. congruence.
    + eexists; split; [reflexivity|]. cbn [snd]. split; assumption.
  - cbn [bind]. exists (snd st), (fst st). split; [reflexivity|exact Hst].
Qed.

End DriverTheorems.

(** C9: [DFTTestCreate] accepts every value of [block_step] (its
    acceptance tests do not depend on it, and the accepted filter
    carries the value given), [calc_pad_num] divides by [block_step] and
    faults when it is zero, and so there is an accepted configuration,
    with [block_step = 0], for which [DFTTestGetFrame] faults instead of
    producing a frame. *)
Theorem C9_block_step_zero_accepted_then_division_by_zero :
  (forall a d bs,
     DFTTestCreate a = inr d ->
     exists d', DFTTestCreate (with_block_step a (Some bs)) = inr d'
                /\ block_step d' = int64ToIntS bs)
  /\ (forall size block_size, calc_pad_num size block_size 0 = None)
  /\ (exists d,
        DFTTestCreate (example_args 0 (Some 0)) = inr d
        /\ block_step d = 0
        /\ forall fused block0 n thread_data alloc,
             DFTTestGetFrame fused block0 n arAllFramesReady d thread_data alloc = None).
Proof.
  split; [|split].
  - intros a d bs H. apply (DFTTestCreate_any_block_step a d (Some bs) H).
  - apply calc_pad_num_step_0.
  - destruct (DFTTestCreate (example_args 0 (Some 0))) as [msg|d] eqn:E;
      [vm_compute in E; discriminate|].
    exists d. split; [reflexivity|].
    destruct (DFTTestCreate_accepted _ _ E) as (En & _ & _ & _ & Es & _ & _).
    assert (P : process d = [true; true; true]).
    { apply (f_equal (fun r => match r with inr d => process d | inl _ => [] end)) in E.
      rewrite <- E. vm_compute. reflexivity. }
    split; [exact Es|].
    intros fused block0 n td alloc.
    apply (DFTTestGetFrame_step_0_faults fused block0 n d td alloc 0).
    + exact Es.
    + unfold center_frame. rewrite En. cbn. lia.
    + rewrite P. reflexivity.
Qed.

(** C10: for a filter set up by [DFTTestCreate] (with a non-zero block
    step and a sample size that is not zero, so that producing the frame
    does not fault), [DFTTestGetFrame] returns a frame, and every plane
    whose process flag is false is in that frame the plane of the
    temporal-centre source frame, unmodified. *)
Theorem C10_unprocessed_plane_is_center_plane
    (fused : mem Vec16f -> mem Vec16f -> float32 -> float32 -> float32 -> Z -> bool ->
             mem Vec16f -> Z -> mem Vec16f)
    (block0 : mem Vec16f)
    (a : DFTTestArgs) (d : DFTTestData) (n : Z)
    (thread_data : DFTTestThreadData) (alloc : VSFrameRef) (plane : Z) :
  DFTTestCreate a = inr d ->
  block_step d <> 0 ->
  (forall fmt, format (node_vi (node d)) = Some fmt -> bytesPerSample fmt <> 0) ->
  0 <= plane < numPlanes (frame_format (center_frame d n)) -> plane < 3 ->
  nth (Z.to_nat plane) (process d) false = false ->
  exists out thread_data',
    DFTTestGetFrame fused block0 n arAllFramesReady d thread_data alloc
    = Some (Some out, thread_data')
    /\ get_plane out plane = get_plane (center_frame d n) plane.
Proof.
  intros E Ht Hb Hp H3 Hf.
  destruct (DFTTestCreate_accepted _ _ E) as (_ & [fmt Ef] & _ & Es & _ & Hl & _).
  apply (DFTTestGetFrame_passthrough fused block0 n d fmt); try assumption.
  - rewrite Es. discriminate.
  - apply Hb. exact Ef.
Qed.

(** C10 for the third plane of [yuv_clip] when only the first plane is
    filtered. *)
Lemma C10_unprocessed_plane_witness :
  exists d out thread_data',
    DFTTestCreate yuv_args = inr d
    /\ DFTTestGetFrame fused_identity (fun _ => vec_zero) 1 arAllFramesReady d
         blank_thread_data (blank_frame yuv444p8)
       = Some (Some out, thread_data')
    /\ get_plane out 2 = get_plane (center_frame d 1) 2.
Proof.
  destruct (DFTTestCreate yuv_args) as [msg|d] eqn:E; [vm_compute in E; discriminate|].
  destruct (DFTTestCreate_accepted _ _ E) as (En & _ & _ & _ & Es & _ & _).
  assert (P : process d = [true; false; false]).
  { apply (f_equal (fun r => match r with inr d => process d | inl _ => [] end)) in E.
    rewrite <- E. vm_compute. reflexivity. }
  destruct (C10_unprocessed_plane_is_center_plane fused_identity (fun _ => vec_zero)
              yuv_args d 1 blank_thread_data (blank_frame yuv444p8) 2 E)
    as (out & td' & H1 & H2).
  - rewrite Es. discriminate.
  - rewrite En. intros fmt Hfmt. apply Some_inj in Hfmt. subst fmt. discriminate.
  - unfold center_frame. rewrite En. cbn. lia.
  - lia.
  - rewrite P. reflexivity.
  - exists d, out, td'. split; [reflexivity|]. split; assumption.
Defined.

(** ** Loops that store into an array *)

(** A cell that no iteration changes keeps its value. *)
Lemma for_range_frame {T : Type} (body : Z -> mem T -> mem T) (lo hi c : Z) (s : mem T) :
  (forall k t, lo <= k < hi -> body k t c = t c) ->
  for_range lo hi body s c = s c.
Proof.
  intros H. apply (for_range_inv (fun t => t c = s c)); [reflexivity|].
  intros k t Hk Ht. rewrite H by exact Hk. exact Ht.
Qed.

Lemma upd_same {T : Type} (a : mem T) (k : Z) (v : T) : upd a k v k = v.
Proof. unfold upd. rewrite Z.eqb_refl. reflexivity. Qed.

Lemma upd_other {T : Type} (a : mem T) (k c : Z) (v : T) : c <> k -> upd a k v c = a c.
Proof. intros H. unfold upd. destruct (Z.eqb_spec c k); [contradiction|reflexivity]. Qed.

Section StoreLoops.
Context {T : Type}.
Variable addr : Z -> Z -> Z.
Variable val : Z -> Z -> T.

(** Every cell afterwards is untouched or holds one of the stored values. *)
Lemma store_loops_cases (lo1 hi1 lo2 hi2 : Z) (s : mem T) (c : Z) :
  store_loops addr val lo1 hi1 lo2 hi2 s c = s c
  \/ exists i j, lo1 <= i < hi1 /\ lo2 <= j < hi2 /\ c = addr i j
                 /\ store_loops addr val lo1 hi1 lo2 hi2 s c = val i j.
Proof.
  unfold store_loops.
  apply (for_range_inv
           (fun t => t c = s c
                     \/ exists i j, lo1 <= i < hi1 /\ lo2 <= j < hi2 /\ c = addr i j
                                    /\ t c = val i j)); [left; reflexivity|].
  intros i t Hi Ht.
  apply (for_range_inv
           (fun t => t c = s c
                     \/ exists i j, lo1 <= i < hi1 /\ lo2 <= j < hi2 /\ c = addr i j
                                    /\ t c = val i j)); [exact Ht|].
  intros j t' Hj Ht'.
  destruct (Z.eq_dec c (addr i j)) as [->|Hne].
  - right. exists i, j. rewrite upd_same. repeat split; try lia.
  - rewrite upd_other by exact Hne. exact Ht'.
Qed.

(** Where no two iterations store to the same cell, each cell stored to
    holds its value. *)
Lemma store_loops_at (lo1 hi1 lo2 hi2 : Z) (s : mem T) (i j : Z) :
  lo1 <= i < hi1 -> lo2 <= j < hi2 ->
  (forall i' j', lo1 <= i' < hi1 -> lo2 <= j' < hi2 ->
                 addr i' j' = addr i j -> i' = i /\ j' = j) ->
  store_loops addr val lo1 hi1 lo2 hi2 s (addr i j) = val i j.
Proof.
  intros Hi Hj Hinj. unfold store_loops.
  rewrite (for_range_at _ lo1 hi1 i) by exact Hi.
  rewrite for_range_frame.
  - rewrite (for_range_at _ lo2 hi2 j) by exact Hj.
    rewrite for_range_frame.
    + apply upd_same.
    + intros j' t Hj'. apply upd_other. intros E.
      destruct (Hinj i j' Hi ltac:(lia) (eq_sym E)). lia.
  - intros i' t Hi'. apply for_range_frame.
    intros j' t' Hj'. apply upd_other. intros E.
    destruct (Hinj i' j' ltac:(lia) Hj' (eq_sym E)). lia.
Qed.

End StoreLoops.

(** ** Frame assembly *)

Lemma clamp_range (v lo hi : Z) : lo <= hi -> lo <= clamp v lo hi <= hi.
Proof.
  intros H. unfold clamp.
  destruct (Z.ltb_spec v lo); [lia|]. destruct (Z.ltb_spec hi v); lia.
Qed.

(** Whatever the accumulator holds, the quantised value is in range. *)
Lemma quantize_range (bits : Z) (v : float32) :
  0 <= bits -> 0 <= quantize bits v <= 2 ^ bits - 1.
Proof.
  intros H. unfold quantize. rewrite Z.shiftl_1_l.
  apply clamp_range. pose proof (Z.pow_pos_nonneg 2 bits ltac:(lia) H). lia.
Qed.

Lemma bytes_per_sample_cases (bits : Z) :
  8 <= bits <= 16 ->
  (bits = 8 /\ Z.quot (bits + 7) 8 = 1) \/ (9 <= bits /\ Z.quot (bits + 7) 8 = 2).
Proof.
  intros H. destruct (Z.eq_dec bits 8) as [->|Hne].
  - left. split; reflexivity.
  - right. split; [lia|]. Z.quot_rem_to_equations. lia.
Qed.

(** The samples [store_frame] writes for an integer encoding are the
    quantised values themselves: the narrowing casts lose nothing. *)
Lemma store_sample_int (bits : Z) (v : float32) :
  8 <= bits <= 16 ->
  store_sample bits v = quantize bits v /\ 0 <= store_sample bits v <= 2 ^ bits - 1.
Proof.
  intros H. pose proof (quantize_range bits v ltac:(lia)) as Q.
  assert (E : store_sample bits v = quantize bits v).
  { unfold store_sample.
    destruct (bytes_per_sample_cases bits H) as [[-> ->]|[H9 ->]]; cbn [Z.eqb Pos.eqb].
    - unfold as_uint8. apply Z.mod_small. change (2 ^ 8 - 1) with 255 in Q.
      change (2 ^ 8) with 256. lia.
    - unfold as_uint16. apply Z.mod_small.
      assert (2 ^ bits <= 2 ^ 16) by (apply Z.pow_le_mono_r; lia). lia. }
  rewrite E. split; [reflexivity|exact Q].
Qed.

Lemma store_sample_float (v : float32) :
  store_sample 32 v = F32.to_bits (F32.div v F32.c255).
Proof. reflexivity. Qed.

(** [store_frame] is the two nested loops storing [store_sample] of the
    accumulator cell. *)
Lemma store_frame_loops (dst : mem Z) (src : mem float32)
    (width height dst_stride src_stride bits : Z) :
  8 <= bits <= 16 \/ bits = 32 ->
  store_frame dst src width height dst_stride src_stride bits
  = store_loops (fun y x => y * dst_stride + x)
                (fun y x => store_sample bits (src (y * src_stride + x)))
                0 height 0 width dst.
Proof.
  intros [H| ->].
  - unfold store_frame, store_sample, store_loops.
    destruct (bytes_per_sample_cases bits H) as [[-> ->]|[H9 ->]]; reflexivity.
  - reflexivity.
Qed.

(** C4: whatever the accumulation buffer holds, every cell of the
    destination after [store_frame] either is untouched or holds the
    sample written for some pixel [(y, x)] of the plane.  For an integer
    encoding of 8 to 16 bits that sample is the value clamped to
    [0, 2^bits - 1] ([0, 255] for 8 bits).  For the 32 bit float
    encoding it is the accumulator value divided by 255 and nothing
    else: no clamp is applied, and an accumulator cell holding -510
    comes out as -2, where the 8 bit encoding stores 0 for it (and 255
    for an accumulator cell holding 1000000). *)
Theorem C4_store_frame_clamps_integer_samples_only
    (dst : mem Z) (src : mem float32)
    (width height dst_stride src_stride bits c : Z) :
  (8 <= bits <= 16 ->
   store_frame dst src width height dst_stride src_stride bits c = dst c
   \/ exists y x,
        0 <= y < height /\ 0 <= x < width /\ c = y * dst_stride + x
        /\ store_frame dst src width height dst_stride src_stride bits c
           = clamp (F32.to_int (F32.add (F32.div (src (y * src_stride + x))
                                                 (sample_scale bits))
                                        F32.half))
                   0 (2 ^ bits - 1)
        /\ 0 <= store_frame dst src width height dst_stride src_stride bits c
           <= 2 ^ bits - 1)
  /\ (bits = 32 ->
      store_frame dst src width height dst_stride src_stride bits c = dst c
      \/ exists y x,
           0 <= y < height /\ 0 <= x < width /\ c = y * dst_stride + x
           /\ store_frame dst src width height dst_stride src_stride bits c
              = F32.to_bits (F32.div (src (y * src_stride + x)) F32.c255))
  /\ store_frame (fun _ => 0) (fun _ => F32.of_int (-510)) 1 1 1 1 32 0
     = F32.to_bits (F32.of_int (-2))
  /\ store_frame (fun _ => 7) (fun _ => F32.of_int (-510)) 1 1 1 1 8 0 = 0
  /\ store_frame (fun _ => 7) (fun _ => F32.of_int 1000000) 1 1 1 1 8 0 = 255.
Proof.
  split; [|split; [|repeat split; reflexivity]].
  - intros H. rewrite store_frame_loops by (left; exact H).
    destruct (store_loops_cases (fun y x => y * dst_stride + x)
                (fun y x => store_sample bits (src (y * src_stride + x)))
                0 height 0 width dst c) as [E|(y & x & Hy & Hx & Hc & E)].
    + left. exact E.
    + right. exists y, x. rewrite E.
      destruct (store_sample_int bits (src (y * src_stride + x)) H) as [Q R].
      repeat split; try lia.
      rewrite Q. unfold quantize. rewrite Z.shiftl_1_l. reflexivity.
  - intros ->. rewrite store_frame_loops by (right; reflexivity).
    destruct (store_loops_cases (fun y x => y * dst_stride + x)
                (fun y x => store_sample 32 (src (y * src_stride + x)))
                0 height 0 width dst c) as [E|(y & x & Hy & Hx & Hc & E)].
    + left. exact E.
    + right. exists y, x. rewrite E. repeat split; try lia.
Qed.

(** ** Scaling by a power of two is exact *)

Lemma SFmul_comm (p em : Z) (x y : spec_float) : SFmul p em x y = SFmul p em y x.
Proof.
  destruct x as [sx|sx| |sx mx ex], y as [sy|sy| |sy my ey]; cbn [SFmul];
    rewrite ?(xorb_comm sx sy), ?(Pos.mul_comm mx my), ?(Z.add_comm ex ey); reflexivity.
Qed.

(** [2^(q+23) * x] only moves the exponent of a normal [x]. *)
Lemma mul_pow2 (s : bool) (m : positive) (e q : Z) :
  digits2_pos m = 24%positive ->
  -149 <= e + q + 23 <= 104 ->
  F32.mul (S754_finite false 8388608 q) (S754_finite s m e)
  = S754_finite s m (e + q + 23).
Proof.
  intros Hd Hr.
  change (SFmul 24 128 (S754_finite false 8388608 q) (S754_finite s m e)
          = S754_finite s m (e + q + 23)).
  unfold SFmul. cbn [xorb].
  change (Pos.mul 8388608 m) with (m~0~0~0~0~0~0~0~0~0~0~0~0~0~0~0~0~0~0~0~0~0~0~0)%positive.
  unfold binary_round_aux, shr_fexp.
  cbn [Zdigits2 digits2_pos]. rewrite Hd.
  cbn [Pos.succ].
  unfold fexp, emin.
  replace (Z.max (47 + (q + e) - 24) (3 - 128 - 24) - (q + e)) with 23 by lia.
  cbn [shr shr_record_of_loc SpecFloat.iter_pos shr_1 shr_m shr_r shr_s orb loc_of_shr_record
       round_nearest_even].
  cbn [Zdigits2]. rewrite Hd.
  replace (Z.max (24 + (q + e + 23) - 24) (3 - 128 - 24) - (q + e + 23)) with 0 by lia.
  cbn [shr shr_m].
  replace (q + e + 23 <=? 128 - 24) with true by (symmetry; apply Z.leb_le; lia).
  f_equal. lia.
Qed.

(** [x / 2^(q+23)] only moves the exponent of a normal [x]. *)
Lemma div_pow2 (s : bool) (m : positive) (e q : Z) :
  digits2_pos m = 24%positive ->
  -148 <= e - q - 23 <= 104 ->
  F32.div (S754_finite s m e) (S754_finite false 8388608 q)
  = S754_finite s m (e - q - 23).
Proof.
  intros Hd Hr.
  change (SFdiv 24 128 (S754_finite s m e) (S754_finite false 8388608 q)
          = S754_finite s m (e - q - 23)).
  unfold SFdiv, SFdiv_core_binary.
  cbn [Zdigits2]. rewrite Hd. cbn [digits2_pos Pos.succ].
  unfold fexp, emin.
  replace (Z.min (Z.max (24 + e - (24 + q) - 24) (3 - 128 - 24)) (e - q))
    with (e - q - 24) by lia.
  replace (e - q - (e - q - 24)) with 24 by lia.
  change (Z.shiftl (Z.pos m) 24)
    with (Z.pos m~0~0~0~0~0~0~0~0~0~0~0~0~0~0~0~0~0~0~0~0~0~0~0~0).
  pose proof (Z_div_mod (Z.pos m~0~0~0~0~0~0~0~0~0~0~0~0~0~0~0~0~0~0~0~0~0~0~0~0)
                        8388608 ltac:(lia)) as D.
  destruct (Z.div_eucl (Z.pos m~0~0~0~0~0~0~0~0~0~0~0~0~0~0~0~0~0~0~0~0~0~0~0~0) 8388608)
    as [qq r].
  assert (Hq : qq = Z.pos m~0) by lia. assert (Hr0 : r = 0) by lia. subst qq r.
  cbn [new_location Z.even new_location_even Z.eqb].
  unfold binary_round_aux, shr_fexp.
  cbn [Zdigits2 digits2_pos]. rewrite Hd. cbn [Pos.succ].
  unfold fexp, emin.
  replace (Z.max (25 + (e - q - 24) - 24) (3 - 128 - 24) - (e - q - 24)) with 1 by lia.
  cbn [shr shr_record_of_loc SpecFloat.iter_pos shr_1 shr_m shr_r shr_s orb loc_of_shr_record
       round_nearest_even].
  cbn [Zdigits2]. rewrite Hd.
  replace (Z.max (24 + (e - q - 24 + 1) - 24) (3 - 128 - 24) - (e - q - 24 + 1))
    with 0 by lia.
  cbn [shr shr_m].
  replace (e - q - 24 + 1 <=? 128 - 24) with true by (symmetry; apply Z.leb_le; lia).
  rewrite xorb_false_r. f_equal. lia.
Qed.

(** The scale factor of an integer encoding is a power of two. *)
Lemma sample_scale_int (bits : Z) :
  8 <= bits <= 16 -> sample_scale bits = S754_finite false 8388608 (-15 - bits).
Proof.
  intros H.
  assert (C : bits = 8 \/ bits = 9 \/ bits = 10 \/ bits = 11 \/ bits = 12 \/ bits = 13
              \/ bits = 14 \/ bits = 15 \/ bits = 16) by lia.
  repeat (destruct C as [->|C]; [vm_compute; reflexivity|]).
  subst bits. vm_compute. reflexivity.
Qed.

Lemma sample_scale_float : sample_scale 32 = F32.c255.
Proof. reflexivity. Qed.

Lemma all_from_spec (f : Z -> bool) :
  forall (cnt : nat) (lo : Z),
    all_from f lo cnt = true ->
    forall v, lo <= v < lo + Z.of_nat cnt -> f v = true.
Proof.
  induction cnt as [|cnt IH]; intros lo H v Hv; [lia|].
  simpl in H. destruct (f lo) eqn:E; [|discriminate].
  destruct (Z.eq_dec v lo) as [->|Hne]; [exact E|].
  apply (IH (lo + 1) H). lia.
Qed.

(** Every sample value of up to sixteen bits, checked one by one. *)
Lemma rounds_back_all : all_from rounds_back 1 (Z.to_nat 65535) = true.
Proof. vm_compute. reflexivity. Qed.

Lemma rounds_back_spec (v : Z) :
  1 <= v < 65536 ->
  exists m e, F32.of_int v = S754_finite false m e
              /\ digits2_pos m = 24%positive /\ -23 <= e <= -8
              /\ F32.to_int (F32.add (F32.of_int v) F32.half) = v.
Proof.
  intros Hv.
  pose proof (all_from_spec rounds_back (Z.to_nat 65535) 1 rounds_back_all v ltac:(lia))
    as H.
  unfold rounds_back in H.
  destruct (F32.of_int v) as [| | |s m e]; try discriminate.
  destruct s; [discriminate|].
  apply andb_true_iff in H. destruct H as [H H4].
  apply andb_true_iff in H. destruct H as [H H3].
  apply andb_true_iff in H. destruct H as [H1 H2].
  exists m, e. split; [reflexivity|].
  apply Pos.eqb_eq in H1. apply Z.leb_le in H2, H3. apply Z.eqb_eq in H4.
  repeat split; assumption.
Qed.

(** ** The integer encodings round-trip exactly *)

Lemma clamp_id (v lo hi : Z) : lo <= v <= hi -> clamp v lo hi = v.
Proof.
  intros H. unfold clamp.
  destruct (Z.ltb_spec v lo); [lia|]. destruct (Z.ltb_spec hi v); [lia|reflexivity].
Qed.

Lemma one_eq : F32.one = S754_finite false 8388608 (-23).
Proof. reflexivity. Qed.

Lemma fma_finite_zero (sx sy sz : bool) (mx my : positive) (ex ey : Z) :
  F32.fma (S754_finite sx mx ex) (S754_finite sy my ey) (S754_zero sz)
  = F32.mul (S754_finite sx mx ex) (S754_finite sy my ey).
Proof. reflexivity. Qed.

(** Multiplying a normal value by [1.0f] changes nothing. *)
Lemma mul_one_r (s : bool) (m : positive) (e : Z) :
  digits2_pos m = 24%positive -> -149 <= e <= 104 ->
  F32.mul (S754_finite s m e) F32.one = S754_finite s m e.
Proof.
  intros Hd He. unfold F32.mul. rewrite SFmul_comm. rewrite one_eq.
  change (SFmul F32.prec F32.emax) with F32.mul.
  rewrite mul_pow2 by (try assumption; lia). f_equal. lia.
Qed.

(** The sample cell of an integer encoding, read at its width, is the
    sample value. *)
Lemma load_sample_int (bits v : Z) (w : float32) :
  8 <= bits <= 16 -> 0 <= v < 2 ^ bits ->
  load_sample bits w v = F32.mul (F32.mul (sample_scale bits) w) (F32.of_int v).
Proof.
  intros H Hv. unfold load_sample.
  destruct (bytes_per_sample_cases bits H) as [[-> ->]|[H9 ->]]; cbn [Z.eqb Pos.eqb].
  - unfold as_uint8. rewrite Z.mod_small by exact Hv. reflexivity.
  - unfold as_uint16. rewrite Z.mod_small; [reflexivity|].
    assert (2 ^ bits <= 2 ^ 16) by (apply Z.pow_le_mono_r; lia). lia.
Qed.

Lemma codec_round_trip_int (bits v : Z) :
  8 <= bits <= 16 -> 0 <= v < 2 ^ bits -> codec_round_trip bits v = v.
Proof.
  intros H Hv. unfold codec_round_trip.
  destruct (store_sample_int bits
              (F32.fma (load_sample bits F32.one v) F32.one F32.zero) H) as [-> _].
  rewrite load_sample_int by assumption.
  assert (Hpow : 2 ^ bits <= 2 ^ 16) by (apply Z.pow_le_mono_r; lia).
  change (2 ^ 16) with 65536 in Hpow.
  unfold quantize. rewrite Z.shiftl_1_l.
  rewrite (sample_scale_int bits H).
  assert (S1 : F32.mul (S754_finite false 8388608 (-15 - bits)) F32.one
               = S754_finite false 8388608 (-15 - bits)).
  { apply mul_one_r; [reflexivity|lia]. }
  rewrite S1.
  destruct (Z.eq_dec v 0) as [->|Hv0].
  - match goal with
    | |- clamp ?t _ _ = _ => assert (E0 : t = 0) by reflexivity; rewrite E0
    end.
    apply clamp_id. lia.
  - destruct (rounds_back_spec v ltac:(lia)) as (m & e & Ev & Hd & He & Hback).
    rewrite Ev in *.
    rewrite mul_pow2 by (try assumption; lia).
    unfold F32.zero. rewrite one_eq, fma_finite_zero, <- one_eq.
    rewrite mul_one_r by (try assumption; lia).
    rewrite div_pow2 by (try assumption; lia).
    replace (e + (-15 - bits) + 23 - (-15 - bits) - 23) with e by lia.
    rewrite Hback. apply clamp_id. lia.
Qed.

(** ** The codec, lane by lane *)

Lemma lane_map (f : Z -> float32) (k : Z) :
  0 <= k < 16 -> lane (map f lanes) k = f k.
Proof.
  intros Hk. unfold lane, lanes.
  rewrite (nth_map_zseq f F32.zero 16 0 (Z.to_nat k)) by lia.
  f_equal. lia.
Qed.

(** Lane [k] of row [j] of slice [i] of the block after [load_block]. *)
Lemma load_block_lane (blk : mem Vec16f) (src : mem Z)
    (r bsz bst width height : Z) (w : mem Vec16f) (bits i j k : Z) :
  8 <= bits <= 16 \/ bits = 32 ->
  0 <= i < 2 * r + 1 -> 0 <= j < 16 -> 0 <= k < 16 ->
  exists pad_w pad_h b,
    calc_pad_size width 16 bst = Some pad_w
    /\ calc_pad_size height 16 bst = Some pad_h
    /\ load_block blk src r bsz bst width height w bits = Some b
    /\ lane (b (i * 16 * 2 + j)) k
       = load_sample bits (lane (analysis_row w 16 i j) k)
                     (src ((i * pad_h + j) * pad_w + k)).
Proof.
  intros Hb Hi Hj Hk.
  destruct (calc_pad_size_total width 16 bst ltac:(lia)) as [pad_w Ew].
  destruct (calc_pad_size_total height 16 bst ltac:(lia)) as [pad_h Eh].
  exists pad_w, pad_h. unfold load_block. rewrite Ew, Eh. cbn [bind].
  eexists. split; [reflexivity|]. split; [reflexivity|]. split; [reflexivity|].
  assert (Inj : forall i' j', 0 <= i' < 2 * r + 1 -> 0 <= j' < 16 ->
                  i' * 16 * 2 + j' = i * 16 * 2 + j -> i' = i /\ j' = j) by (intros; lia).
  assert (B : (bits = 8 /\ Z.quot (bits + 7) 8 = 1)
              \/ (9 <= bits <= 16 /\ Z.quot (bits + 7) 8 = 2)
              \/ (bits = 32 /\ Z.quot (bits + 7) 8 = 4)).
  { destruct Hb as [Hb| ->].
    - destruct (bytes_per_sample_cases bits Hb) as [[-> E]|[H9 E]]; [left|right; left];
        (split; [lia|exact E]).
    - right; right. split; reflexivity. }
  unfold load_sample.
  destruct B as [[Hbits ->]|[[Hbits ->]|[Hbits ->]]]; cbn [Z.eqb Pos.eqb].
  - pose proof (store_loops_at (fun i j => i * 16 * 2 + j)
               (fun i j => vec_mul (vec_scale (sample_scale bits) (analysis_row w 16 i j))
                                   (load_u8 src ((i * pad_h + j) * pad_w)))
               0 (2 * r + 1) 0 16 blk i j Hi Hj Inj) as L.
    unfold store_loops in L. cbv beta zeta in L |- *. rewrite L.
    unfold vec_mul, vec_scale, load_u8. rewrite !lane_map by exact Hk. reflexivity.
  - pose proof (store_loops_at (fun i j => i * 16 * 2 + j)
               (fun i j => vec_mul (vec_scale (sample_scale bits) (analysis_row w 16 i j))
                                   (load_u16 src ((i * pad_h + j) * pad_w)))
               0 (2 * r + 1) 0 16 blk i j Hi Hj Inj) as L.
    unfold store_loops in L. cbv beta zeta in L |- *. rewrite L.
    unfold vec_mul, vec_scale, load_u16. rewrite !lane_map by exact Hk. reflexivity.
  - pose proof (store_loops_at (fun i j => i * 16 * 2 + j)
               (fun i j => vec_mul (vec_scale (sample_scale bits) (analysis_row w 16 i j))
                                   (load_f32 src ((i * pad_h + j) * pad_w)))
               0 (2 * r + 1) 0 16 blk i j Hi Hj Inj) as L.
    unfold store_loops in L. cbv beta zeta in L |- *. rewrite L.
    unfold vec_mul, vec_scale, load_f32. rewrite !lane_map by exact Hk. reflexivity.
Qed.

Lemma vec_store_in (m : mem float32) (p : Z) (v : Vec16f) (k : Z) :
  0 <= k < 16 -> vec_store m p v (p + k) = lane v k.
Proof.
  intros Hk. unfold vec_store.
  destruct (Z.leb_spec p (p + k)); [|lia]. destruct (Z.ltb_spec (p + k) (p + 16)); [|lia].
  cbn [andb]. f_equal. lia.
Qed.

Lemma vec_store_out (m : mem float32) (p : Z) (v : Vec16f) (c : Z) :
  c < p \/ p + 16 <= c -> vec_store m p v c = m c.
Proof.
  intros Hc. unfold vec_store.
  destruct (Z.leb_spec p c); destruct (Z.ltb_spec c (p + 16)); cbn [andb]; try reflexivity.
  lia.
Qed.

(** One cell of the accumulation buffer after [store_block]: the old
    value plus block lane times window lane, fused. *)
Lemma store_block_cell (dst : mem float32) (blk : mem Vec16f)
    (bsz bst width height : Z) (w : mem Vec16f) (r k : Z) :
  0 <= r < 16 -> 0 <= k < 16 ->
  exists pitch m,
    calc_pad_size width 16 bst = Some pitch
    /\ store_block dst blk bsz bst width height w = Some m
    /\ (16 <= pitch ->
        m (r * pitch + k)
        = F32.fma (lane (blk r) k) (lane (w r) k) (dst (r * pitch + k))).
Proof.
  intros Hr Hk.
  destruct (calc_pad_size_total width 16 bst ltac:(lia)) as [pitch Ep].
  exists pitch. unfold store_block. rewrite Ep. cbn [bind].
  eexists. split; [reflexivity|]. split; [reflexivity|].
  intros Hp.
  rewrite (for_range_at _ 0 16 r) by exact Hr.
  rewrite for_range_frame.
  - rewrite vec_store_in by exact Hk. unfold mul_add, vec_load.
    rewrite lane_map by exact Hk. rewrite lane_map by exact Hk.
    f_equal. apply for_range_frame.
    intros i t Hi. apply vec_store_out. right.
    assert (i * pitch + pitch <= r * pitch) by nia. lia.
  - intros i t Hi. apply vec_store_out. left.
    assert (r * pitch + pitch <= i * pitch) by nia. lia.
Qed.

(** One cell of the destination plane after [store_frame], for rows
    that do not overlap. *)
Lemma store_frame_cell (dst : mem Z) (src : mem float32)
    (width height dst_stride src_stride bits y x : Z) :
  8 <= bits <= 16 \/ bits = 32 ->
  width <= dst_stride -> 0 <= y < height -> 0 <= x < width ->
  store_frame dst src width height dst_stride src_stride bits (y * dst_stride + x)
  = store_sample bits (src (y * src_stride + x)).
Proof.
  intros Hb Hs Hy Hx. rewrite store_frame_loops by exact Hb.
  apply (store_loops_at (fun y x => y * dst_stride + x)
           (fun y x => store_sample bits (src (y * src_stride + x)))).
  - exact Hy.
  - exact Hx.
  - intros y' x' Hy' Hx' E.
    assert (Ey : y' = y).
    { destruct (Z_lt_le_dec y' y).
      - assert (y' * dst_stride + dst_stride <= y * dst_stride) by nia. lia.
      - destruct (Z_lt_le_dec y y'); [|lia].
        assert (y * dst_stride + dst_stride <= y' * dst_stride) by nia. lia. }
    subst y'. split; [reflexivity|lia].
Qed.

(** [store_block] leaves every cell outside [store_block_cells] alone. *)
Lemma store_block_frame (dst : mem float32) (blk : mem Vec16f)
    (bsz bst width height : Z) (w : mem Vec16f) (c : Z) :
  exists pitch m,
    calc_pad_size width 16 bst = Some pitch
    /\ store_block dst blk bsz bst width height w = Some m
    /\ (~ In c (store_block_cells pitch) -> m c = dst c).
Proof.
  destruct (calc_pad_size_total width 16 bst ltac:(lia)) as [pitch Ep].
  exists pitch. unfold store_block. rewrite Ep. cbn [bind].
  eexists. split; [reflexivity|]. split; [reflexivity|].
  intros Hc. apply for_range_frame. intros i t Hi. apply vec_store_out.
  destruct (Z_lt_le_dec c (i * pitch)) as [Hlt|Hge]; [left; exact Hlt|].
  destruct (Z_lt_le_dec c (i * pitch + 16)) as [Hin|Hout]; [|right; exact Hout].
  exfalso. apply Hc. apply store_block_cells_In.
  exists i, (c - i * pitch). lia.
Qed.

Lemma calc_pad_size_at_least_16 (n bst p : Z) :
  0 <= n -> calc_pad_size n 16 bst = Some p -> 16 <= p.
Proof.
  intros Hn E. destruct (calc_pad_size_spec n bst Hn) as (k & F & B).
  rewrite F in E. apply Some_inj in E. lia.
Qed.

(** One 16x16 block of an integer plane through the codec: loaded with a
    unit window at radius 0, handed on unchanged, accumulated into a
    zeroed buffer with the same window and stored, every sample is the
    sample that was read. *)
Lemma block_codec_round_trip_int (blk : mem Vec16f) (src dst : mem Z)
    (acc : mem float32) (w : mem Vec16f)
    (bits bsz bst width height dst_stride y x : Z) :
  8 <= bits <= 16 -> 0 <= width ->
  (forall c, 0 <= src c < 2 ^ bits) ->
  (forall r k, 0 <= r < 16 -> 0 <= k < 16 -> lane (w r) k = F32.one) ->
  (forall c, acc c = F32.zero) ->
  16 <= dst_stride -> 0 <= y < 16 -> 0 <= x < 16 ->
  exists pad_w b m,
    calc_pad_size width 16 bst = Some pad_w
    /\ load_block blk src 0 bsz bst width height w bits = Some b
    /\ store_block acc b 16 bst width height w = Some m
    /\ store_frame dst m 16 16 dst_stride pad_w bits (y * dst_stride + x)
       = src (y * pad_w + x).
Proof.
  intros Hb Hwd Hsrc Hone Hacc Hds Hy Hx.
  destruct (load_block_lane blk src 0 bsz bst width height w bits 0 y x
              (or_introl Hb) ltac:(lia) Hy Hx)
    as (pad_w & pad_h & b & Ew & Eh & Eb & Hlane).
  destruct (store_block_cell acc b 16 bst width height w y x Hy Hx)
    as (pitch & m & Ep & Em & Hcell).
  rewrite Ew in Ep. apply Some_inj in Ep. subst pitch.
  pose proof (calc_pad_size_at_least_16 width bst pad_w Hwd Ew) as H16.
  exists pad_w, b, m. split; [exact Ew|]. split; [exact Eb|]. split; [exact Em|].
  rewrite store_frame_cell by (try (left; exact Hb); lia).
  rewrite (Hcell H16).
  change (b (0 * 16 * 2 + y)) with (b y) in Hlane. rewrite Hlane.
  unfold analysis_row. change (0 * 16 + y) with y.
  rewrite Hone by assumption. rewrite Hacc.
  change ((0 * pad_h + y) * pad_w + x) with (y * pad_w + x).
  apply (codec_round_trip_int bits (src (y * pad_w + x)) Hb (Hsrc _)).
Qed.

(** C5, as stated, fails for the float encoding: multiplying by 255 and
    dividing by 255 again is done in binary32.  The sample [FLT_MAX]
    (bits 0x7F7FFFFF) overflows on load and is stored as +infinity (bits
    0x7F800000), and the sample 0.50231170654296875 (bits 0x3F009700)
    is stored one unit in the last place lower (bits 0x3F0096FF). *)
Lemma C5_float_round_trip_not_exact :
  F32.of_bits 2139095039 = FLT_MAX
  /\ codec_round_trip 32 2139095039 = F32.to_bits (S754_infinity false)
  /\ codec_round_trip 32 2139095039 <> 2139095039
  /\ F32.of_bits 1057003392 = sample_0_5023
  /\ codec_round_trip 32 1057003392 = 1057003391
  /\ codec_round_trip 32 1057003392 <> 1057003392.
Proof. repeat split; try (vm_compute; reflexivity); vm_compute; discriminate. Qed.

(** C5, amended: for the integer encodings of 8 to 16 bits, [load_block]
    multiplies the sample by [scale = 1 / 2^(bits-8)] (and the window
    weight), [store_frame] divides by the same [scale], adds 0.5,
    truncates and clamps, and a sample loaded with unit analysis weight,
    left alone by the filter, accumulated once into a zeroed cell with
    unit synthesis weight and stored comes back exactly as it was; so
    does every sample of a 16x16 block taken through [load_block],
    [store_block] and [store_frame].  For the 32 bit float encoding the
    factor is 255 on both sides (multiply on load, divide on store, no
    rounding offset); nothing is claimed about the value that comes
    back.  [load_block_lane], [store_block_cell] and [store_frame_cell]
    show that [load_sample], [F32.fma] and [store_sample] are what the
    three functions compute for one lane. *)
Theorem C5_scale_inverted_and_integer_round_trip
    (bits v cell : Z) (w acc : float32) :
  8 <= bits <= 16 -> 0 <= v < 2 ^ bits ->
  sample_scale bits = F32.div F32.one (F32.of_int (2 ^ (bits - 8)))
  /\ load_sample bits w v = F32.mul (F32.mul (sample_scale bits) w) (F32.of_int v)
  /\ store_sample bits acc
     = clamp (F32.to_int (F32.add (F32.div acc (sample_scale bits)) F32.half))
             0 (2 ^ bits - 1)
  /\ codec_round_trip bits v = v
  /\ (forall (blk : mem Vec16f) (src dst : mem Z) (accum : mem float32)
             (window : mem Vec16f) (bsz bst width height dst_stride y x : Z),
        0 <= width ->
        (forall c, 0 <= src c < 2 ^ bits) ->
        (forall r k, 0 <= r < 16 -> 0 <= k < 16 -> lane (window r) k = F32.one) ->
        (forall c, accum c = F32.zero) ->
        16 <= dst_stride -> 0 <= y < 16 -> 0 <= x < 16 ->
        exists pad_w b m,
          calc_pad_size width 16 bst = Some pad_w
          /\ load_block blk src 0 bsz bst width height window bits = Some b
          /\ store_block accum b 16 bst width height window = Some m
          /\ store_frame dst m 16 16 dst_stride pad_w bits (y * dst_stride + x)
             = src (y * pad_w + x))
  /\ sample_scale 32 = F32.of_int 255
  /\ load_sample 32 w cell = F32.mul (F32.mul (sample_scale 32) w) (F32.of_bits cell)
  /\ store_sample 32 acc = F32.to_bits (F32.div acc (sample_scale 32)).
Proof.
  intros H Hv.
  split.
  { unfold sample_scale. destruct (Z.eqb_spec bits 32); [lia|].
    rewrite Z.shiftl_1_l. reflexivity. }
  split; [apply load_sample_int; assumption|].
  split.
  { destruct (store_sample_int bits acc H) as [-> _].
    unfold quantize. rewrite Z.shiftl_1_l. reflexivity. }
  split; [apply codec_round_trip_int; assumption|].
  split.
  { intros blk src dst accum window bsz bst width height dst_stride y x.
    apply block_codec_round_trip_int. exact H. }
  repeat split; reflexivity.
Qed.

(** C5 at 10 bits per sample, for the sample value 1000. *)
Lemma C5_integer_round_trip_witness :
  sample_scale 10 = F32.div F32.one (F32.of_int (2 ^ (10 - 8)))
  /\ load_sample 10 F32.one 1000
     = F32.mul (F32.mul (sample_scale 10) F32.one) (F32.of_int 1000)
  /\ store_sample 10 (F32.of_int 250)
     = clamp (F32.to_int (F32.add (F32.div (F32.of_int 250) (sample_scale 10)) F32.half))
             0 (2 ^ 10 - 1)
  /\ codec_round_trip 10 1000 = 1000
  /\ (forall (blk : mem Vec16f) (src dst : mem Z) (accum : mem float32)
             (window : mem Vec16f) (bsz bst width height dst_stride y x : Z),
        0 <= width ->
        (forall c, 0 <= src c < 2 ^ 10) ->
        (forall r k, 0 <= r < 16 -> 0 <= k < 16 -> lane (window r) k = F32.one) ->
        (forall c, accum c = F32.zero) ->
        16 <= dst_stride -> 0 <= y < 16 -> 0 <= x < 16 ->
        exists pad_w b m,
          calc_pad_size width 16 bst = Some pad_w
          /\ load_block blk src 0 bsz bst width height window 10 = Some b
          /\ store_block accum b 16 bst width height window = Some m
          /\ store_frame dst m 16 16 dst_stride pad_w 10 (y * dst_stride + x)
             = src (y * pad_w + x))
  /\ sample_scale 32 = F32.of_int 255
  /\ load_sample 32 F32.one 1065353216
     = F32.mul (F32.mul (sample_scale 32) F32.one) (F32.of_bits 1065353216)
  /\ store_sample 32 (F32.of_int 250)
     = F32.to_bits (F32.div (F32.of_int 250) (sample_scale 32)).
Proof.
  apply (C5_scale_inverted_and_integer_round_trip 10 1000 1065353216 F32.one
           (F32.of_int 250)); [lia | vm_compute; split; [discriminate|reflexivity]].
Defined.

(** ** Block grid coverage, through the loop *)


Section Coverage.
Variable fused :
  mem Vec16f -> mem Vec16f -> float32 -> float32 -> float32 -> Z -> bool ->
  mem Vec16f -> Z -> mem Vec16f.
Variable block0 : mem Vec16f.



End Coverage.


(** ** Reflection padding *)

Lemma calc_pad_size_margin (n bsz bst p : Z) :
  1 <= bsz -> 0 <= n -> calc_pad_size n bsz bst = Some p -> n + 2 <= p.
Proof.
  intros Hb Hn. unfold calc_pad_size, c_rem, bind.
  destruct (Z.eqb_spec bsz 0); [lia|]. intros E. apply Some_inj in E. subst p.
  pose proof (Z.rem_bound_pos n bsz Hn ltac:(lia)).
  destruct (Z.eqb_spec (Z.rem n bsz) 0); lia.
Qed.

(** Cells of different rows of a [pw]-wide buffer are different cells. *)
Lemma row_cell_out (pw y x y' : Z) :
  0 <= x < pw -> y <> y' -> y * pw + x < y' * pw \/ y' * pw + pw <= y * pw + x.
Proof.
  intros Hx Hne. destruct (Z_lt_le_dec y y').
  - left. assert (y * pw + pw <= y' * pw) by nia. lia.
  - right. assert (y' * pw + pw <= y * pw) by nia. lia.
Qed.

Section Gather.
Context {T : Type}.

(** A loop that copies cell [g x] to cell [f x], where no cell read is
    ever a cell written: every cell written holds what its source held
    before the loop. *)
Lemma gather_loop_frame (f g : Z -> Z) (lo hi : Z) (s : mem T) (c : Z) :
  (forall x, lo <= x < hi -> f x <> c) ->
  for_range lo hi (fun x d => upd d (f x) (d (g x))) s c = s c.
Proof.
  intros H. apply for_range_frame. intros x t Hx. apply upd_other.
  intros E. apply (H x Hx). symmetry. exact E.
Qed.

Lemma gather_loop_at (f g : Z -> Z) (lo hi : Z) (s : mem T) (x : Z) :
  lo <= x < hi ->
  (forall x', lo <= x' < hi -> x' <> x -> f x' <> f x) ->
  (forall x', lo <= x' < hi -> f x' <> g x) ->
  for_range lo hi (fun x d => upd d (f x) (d (g x))) s (f x) = s (g x).
Proof.
  intros Hx Hinj Hrd.
  rewrite (for_range_at _ lo hi x) by exact Hx.
  rewrite gather_loop_frame by (intros x' Hx'; apply Hinj; lia).
  rewrite upd_same. apply gather_loop_frame. intros x' Hx'. apply Hrd. lia.
Qed.

Lemma memcpy_in (d : mem T) (a b n c : Z) :
  a <= c < a + n -> memcpy d a b n c = d (b + (c - a)).
Proof.
  intros H. unfold memcpy.
  destruct (Z.leb_spec a c); [|lia]. destruct (Z.ltb_spec c (a + n)); [|lia]. reflexivity.
Qed.

Lemma memcpy_out (d : mem T) (a b n c : Z) :
  c < a \/ a + n <= c -> memcpy d a b n c = d c.
Proof.
  intros H. unfold memcpy.
  destruct (Z.leb_spec a c); destruct (Z.ltb_spec c (a + n)); cbn [andb]; try reflexivity.
  lia.
Qed.

(** The same for a loop that copies whole rows. *)
Lemma memcpy_loop_frame (rsrc : Z -> Z) (lo hi pw : Z) (s : mem T) (c : Z) :
  (forall y, lo <= y < hi -> c < y * pw \/ y * pw + pw <= c) ->
  for_range lo hi (fun y d => memcpy d (y * pw) (rsrc y * pw) pw) s c = s c.
Proof.
  intros H. apply for_range_frame. intros y t Hy. apply memcpy_out. apply H. exact Hy.
Qed.

Lemma memcpy_loop_at (rsrc : Z -> Z) (lo hi pw : Z) (s : mem T) (y x : Z) :
  0 <= x < pw -> lo <= y < hi ->
  (forall y', lo <= y' < hi -> rsrc y <> y') ->
  for_range lo hi (fun y d => memcpy d (y * pw) (rsrc y * pw) pw) s (y * pw + x)
  = s (rsrc y * pw + x).
Proof.
  intros Hx Hy Hrd.
  rewrite (for_range_at _ lo hi y) by exact Hy.
  rewrite memcpy_loop_frame by (intros y' Hy'; apply row_cell_out; [exact Hx|lia]).
  rewrite memcpy_in by lia.
  replace (rsrc y * pw + (y * pw + x - y * pw)) with (rsrc y * pw + x) by lia.
  apply memcpy_loop_frame. intros y' Hy'. apply row_cell_out; [exact Hx|].
  apply Hrd. lia.
Qed.

End Gather.

Section ReflectionFacts.
Context {T : Type}.
Variables (dst src : mem T) (width height stride pw ph : Z).
Hypothesis Hw : 1 <= width.
Hypothesis Hh : 1 <= height.
Hypothesis Hpw : width + 2 <= pw.
Hypothesis Hph : height + 2 <= ph.

Local Abbreviation ox := (Z.quot (pw - width) 2).
Local Abbreviation oy := (Z.quot (ph - height) 2).
Local Abbreviation copied := (pad_copied dst src width height stride pw ph).
Local Abbreviation row_body := (pad_row_body width pw).
Local Abbreviation sides := (pad_sides dst src width height stride pw ph).
Local Abbreviation top := (pad_top dst src width height stride pw ph).
Local Abbreviation bottom := (pad_bottom dst src width height stride pw ph).

Lemma offsets_bounds : 1 <= ox /\ ox + width < pw /\ 1 <= oy /\ oy + height < ph.
Proof. repeat split; Z.quot_rem_to_equations; lia. Qed.

Lemma reflection_padding_impl_steps (bsz bst : Z) :
  calc_pad_size width bsz bst = Some pw ->
  calc_pad_size height bsz bst = Some ph ->
  reflection_padding_impl dst src width height stride bsz bst = Some bottom.
Proof.
  intros Ew Eh. unfold reflection_padding_impl. rewrite Ew, Eh. reflexivity.
Qed.

(** The copy puts source sample [(y, x)] at row [oy + y], column [ox + x]. *)
Lemma copied_interior (y x : Z) :
  0 <= y < height -> 0 <= x < width ->
  copied ((oy + y) * pw + (ox + x)) = src (y * stride + x).
Proof.
  intros Hy Hx. unfold pad_copied, vs_bitblt.
  pose proof (store_loops_at (fun y x => oy * pw + ox + y * pw + x)
                (fun y x => src (y * stride + x)) 0 height 0 width dst y x Hy Hx) as L.
  unfold store_loops in L. cbv beta in L.
  replace ((oy + y) * pw + (ox + x)) with (oy * pw + ox + y * pw + x) by lia.
  apply L. intros y' x' Hy' Hx' E.
  assert (Ey : y' = y).
  { destruct (Z_lt_le_dec y' y).
    - assert (y' * pw + pw <= y * pw) by nia. lia.
    - destruct (Z_lt_le_dec y y'); [|lia].
      assert (y * pw + pw <= y' * pw) by nia. lia. }
  subst y'. split; [reflexivity|lia].
Qed.

(** One row of the side reflection only writes into its own row. *)
Lemma row_body_frame (y : Z) (d : mem T) (c : Z) :
  (forall x, 0 <= x < pw -> y * pw + x <> c) ->
  row_body y d c = d c.
Proof.
  destruct offsets_bounds as (B1 & B2 & _).
  intros H. unfold pad_row_body.
  rewrite (gather_loop_frame (fun x => y * pw + x)
             (fun x => y * pw + (2 * (ox + width) - 2 - x)))
    by (intros x Hx; apply H; lia).
  apply (gather_loop_frame (fun x => y * pw + x) (fun x => y * pw + (ox * 2 - x))).
  intros x Hx. apply H. lia.
Qed.

(** Left margin of one row: column [x < ox] holds what column
    [2 * ox - x] held when the row was entered. *)
Lemma row_body_left (y : Z) (d : mem T) (x : Z) :
  0 <= x < ox -> row_body y d (y * pw + x) = d (y * pw + (ox * 2 - x)).
Proof.
  destruct offsets_bounds as (B1 & B2 & _).
  intros Hx. unfold pad_row_body.
  rewrite (gather_loop_frame (fun x => y * pw + x)
             (fun x => y * pw + (2 * (ox + width) - 2 - x)))
    by (intros x' Hx'; lia).
  apply (gather_loop_at (fun x => y * pw + x) (fun x => y * pw + (ox * 2 - x)));
    [exact Hx | intros; lia | intros; lia].
Qed.

(** Columns of the plane itself are not touched. *)
Lemma row_body_middle (y : Z) (d : mem T) (x : Z) :
  ox <= x < ox + width -> row_body y d (y * pw + x) = d (y * pw + x).
Proof.
  intros Hx. unfold pad_row_body.
  rewrite (gather_loop_frame (fun x => y * pw + x)
             (fun x => y * pw + (2 * (ox + width) - 2 - x)))
    by (intros x' Hx'; lia).
  apply (gather_loop_frame (fun x => y * pw + x) (fun x => y * pw + (ox * 2 - x))).
  intros x' Hx'. lia.
Qed.

(** Right margin of one row: column [x >= ox + width] holds what the row
    has, after its left margin was filled, in column
    [2 * (ox + width) - 2 - x], provided that is a column of the row. *)
Lemma row_body_right (y : Z) (d : mem T) (x : Z) :
  ox + width <= x < pw -> 0 <= 2 * (ox + width) - 2 - x ->
  row_body y d (y * pw + x)
  = row_body y d (y * pw + (2 * (ox + width) - 2 - x)).
Proof.
  destruct offsets_bounds as (B1 & B2 & _).
  intros Hx Hm. unfold pad_row_body.
  rewrite (gather_loop_at (fun x => y * pw + x)
             (fun x => y * pw + (2 * (ox + width) - 2 - x)))
    by (try exact Hx; intros; lia).
  symmetry.
  apply (gather_loop_frame (fun x => y * pw + x)
           (fun x => y * pw + (2 * (ox + width) - 2 - x))).
  intros x' Hx'. lia.
Qed.

(** After all rows: a cell of a plane row holds what its own row's pass
    left there. *)
Lemma sides_row (y x : Z) :
  oy <= y < oy + height -> 0 <= x < pw ->
  sides (y * pw + x)
  = row_body y (for_range oy y row_body copied) (y * pw + x).
Proof.
  intros Hy Hx. unfold pad_sides.
  rewrite (for_range_at row_body oy (oy + height) y) by exact Hy.
  apply for_range_frame. intros y' t Hy'. apply row_body_frame.
  intros x' Hx' E.
  destruct (row_cell_out pw y' x' y Hx' ltac:(lia)); lia.
Qed.

Lemma sides_left (y k : Z) :
  oy <= y < oy + height -> 1 <= k <= ox -> k < width ->
  sides (y * pw + (ox - k)) = sides (y * pw + (ox + k)).
Proof.
  destruct offsets_bounds as (B1 & B2 & _).
  intros Hy Hk Hkw.
  rewrite !sides_row by (try exact Hy; lia).
  rewrite row_body_left by lia. rewrite row_body_middle by lia.
  f_equal. lia.
Qed.

Lemma sides_right (y k : Z) :
  oy <= y < oy + height ->
  1 <= k -> ox + width - 1 + k < pw -> k <= ox + width - 1 ->
  sides (y * pw + (ox + width - 1 + k)) = sides (y * pw + (ox + width - 1 - k)).
Proof.
  intros Hy Hk Hkp Hkl.
  rewrite !sides_row by (try exact Hy; lia).
  rewrite row_body_right by lia. f_equal. lia.
Qed.

Lemma sides_interior (y x : Z) :
  0 <= y < height -> 0 <= x < width ->
  sides ((oy + y) * pw + (ox + x)) = src (y * stride + x).
Proof.
  destruct offsets_bounds as (B1 & B2 & B3 & B4).
  intros Hy Hx.
  rewrite sides_row by lia. rewrite row_body_middle by lia.
  rewrite for_range_frame; [apply copied_interior; assumption|].
  intros y' t Hy'. apply row_body_frame. intros x' Hx' E.
  destruct (row_cell_out pw y' x' (oy + y) Hx' ltac:(lia)); lia.
Qed.

(** The rows of the plane are final after the side pass. *)
Lemma bottom_plane_row (y x : Z) :
  oy <= y < oy + height -> 0 <= x < pw -> bottom (y * pw + x) = sides (y * pw + x).
Proof.
  intros Hy Hx. unfold pad_bottom.
  rewrite (memcpy_loop_frame (fun y => 2 * (oy + height) - 2 - y))
    by (intros y' Hy'; apply row_cell_out; [exact Hx|lia]).
  unfold pad_top.
  apply (memcpy_loop_frame (fun y => oy * 2 - y)).
  intros y' Hy'. apply row_cell_out; [exact Hx|lia].
Qed.

Lemma bottom_top_row (k x : Z) :
  1 <= k <= oy -> k < height -> 0 <= x < pw ->
  bottom ((oy - k) * pw + x) = bottom ((oy + k) * pw + x).
Proof.
  destruct offsets_bounds as (B1 & B2 & B3 & B4).
  intros Hk Hkh Hx.
  rewrite (bottom_plane_row (oy + k)) by lia.
  unfold pad_bottom.
  rewrite (memcpy_loop_frame (fun y => 2 * (oy + height) - 2 - y))
    by (intros y' Hy'; apply row_cell_out; [exact Hx|lia]).
  unfold pad_top.
  rewrite (memcpy_loop_at (fun y => oy * 2 - y)) by (try exact Hx; intros; lia).
  f_equal. lia.
Qed.

Lemma bottom_bottom_row (k x : Z) :
  1 <= k -> oy + height - 1 + k < ph -> k <= oy + height - 1 -> 0 <= x < pw ->
  bottom ((oy + height - 1 + k) * pw + x) = bottom ((oy + height - 1 - k) * pw + x).
Proof.
  intros Hk Hkp Hkl Hx.
  unfold pad_bottom at 1.
  rewrite (memcpy_loop_at (fun y => 2 * (oy + height) - 2 - y))
    by (try exact Hx; intros; lia).
  unfold pad_bottom.
  rewrite (memcpy_loop_frame (fun y => 2 * (oy + height) - 2 - y))
    by (intros y' Hy'; apply row_cell_out; [exact Hx|lia]).
  f_equal. lia.
Qed.

End ReflectionFacts.




(** ** Arithmetic in 32 bits *)

Lemma wrap_id (z : Z) : INT_MIN <= z <= INT_MAX -> wrap z = z.
Proof.
  unfold wrap, INT_MIN, INT_MAX. intros H.
  change (2 ^ 31) with 2147483648. change (2 ^ 32) with 4294967296.
  rewrite Z.mod_small by lia. lia.
Qed.

Lemma wrap_range (z : Z) : INT_MIN <= wrap z <= INT_MAX.
Proof.
  unfold wrap, INT_MIN, INT_MAX.
  change (2 ^ 31) with 2147483648. change (2 ^ 32) with 4294967296.
  pose proof (Z.mod_pos_bound (z + 2147483648) 4294967296 ltac:(lia)). lia.
Qed.

Lemma wrap_congruent (z : Z) : exists k, wrap z = z + k * 2 ^ 32.
Proof.
  unfold wrap. exists (- ((z + 2 ^ 31) / 2 ^ 32)).
  pose proof (Z.div_mod (z + 2 ^ 31) (2 ^ 32) ltac:(discriminate)). lia.
Qed.

Lemma wrap_mul_l (a b : Z) : wrap (wrap a * b) = wrap (a * b).
Proof.
  destruct (wrap_congruent a) as [k E]. rewrite E.
  unfold wrap at 1 2. f_equal.
  replace ((a + k * 2 ^ 32) * b + 2 ^ 31) with (a * b + 2 ^ 31 + (k * b) * 2 ^ 32) by ring.
  apply Z_mod_plus_full.
Qed.

Lemma fits_int_spec (z : Z) : fits_int z = true <-> INT_MIN <= z <= INT_MAX.
Proof. unfold fits_int. rewrite andb_true_iff, Z.leb_le, Z.leb_le. reflexivity. Qed.

Lemma int64ToIntS_range (i : Z) : INT_MIN <= int64ToIntS i <= INT_MAX.
Proof.
  unfold int64ToIntS, INT_MIN, INT_MAX.
  destruct (Z.ltb_spec 2147483647 i); [lia|].
  destruct (Z.ltb_spec i (-2147483648)); lia.
Qed.

(** ** [RDFT]: rejection and the size of the result *)

Lemma interleave_length (output : mem (float64 * float64)) (n : Z) :
  0 <= n -> Z.of_nat (List.length (interleave output n)) = 2 * n.
Proof.
  intros Hn. unfold interleave.
  assert (G : forall cnt lo,
             List.length (flat_map (fun k => [fst (output k); snd (output k)])
                                   (zseq lo cnt)) = (2 * cnt)%nat).
  { induction cnt as [|cnt IH]; intros lo; [reflexivity|].
    simpl. rewrite IH. lia. }
  rewrite G. lia.
Qed.

(** The 32-bit product is the product reduced to 32 bits. *)
Lemma shape_product_wrap (shape : list Z) :
  shape_product shape = wrap (element_count shape).
Proof.
  unfold shape_product, element_count.
  assert (G : forall l acc, fold_left int_mul l (wrap acc) = wrap (fold_left Z.mul l acc)).
  { induction l as [|x l IH]; intros acc; [reflexivity|].
    cbn [fold_left]. unfold int_mul at 2. rewrite wrap_mul_l. apply IH. }
  rewrite <- G. reflexivity.
Qed.

Lemma shape_product_exact (shape : list Z) :
  fits_int (element_count shape) = true -> shape_product shape = element_count shape.
Proof.
  intros H. rewrite shape_product_wrap. apply wrap_id. apply fits_int_spec. exact H.
Qed.

Section RdftFacts.
Variables libm_cos libm_sin : float64 -> float64.

(** The count of complex values that [RDFT] allocates. *)
Lemma complex_size_wrap (shape_array : list Z) :
  let ndim := Z.of_nat (List.length shape_array) in
  let shape := map int64ToIntS shape_array in
  ndim = 1 \/ ndim = 2 \/ ndim = 3 ->
  for_range 0 (ndim - 1) (fun i acc => int_mul acc (arr 0 shape i))
            (Z.quot (arr 0 shape (ndim - 1)) 2 + 1)
  = wrap (hermitian_count shape).
Proof.
  cbv zeta. intros Hn.
  destruct shape_array as [|a [|b [|c [|e rest]]]]; cbn [List.length] in Hn; try lia.
  - transitivity (Z.quot (int64ToIntS a) 2 + 1); [reflexivity|].
    unfold hermitian_count, element_count. cbn [map removelast last fold_left].
    pose proof (int64ToIntS_range a) as R. unfold INT_MIN, INT_MAX in R.
    rewrite Z.mul_1_l. symmetry. apply wrap_id. unfold INT_MIN, INT_MAX.
    Z.quot_rem_to_equations. lia.
  - transitivity (int_mul (Z.quot (int64ToIntS b) 2 + 1) (int64ToIntS a)); [reflexivity|].
    unfold hermitian_count, element_count, int_mul. cbn [map removelast last fold_left].
    f_equal. ring.
  - transitivity (int_mul (int_mul (Z.quot (int64ToIntS c) 2 + 1) (int64ToIntS a))
                          (int64ToIntS b)); [reflexivity|].
    unfold hermitian_count, element_count, int_mul. cbn [map removelast last fold_left].
    rewrite wrap_mul_l. f_equal. ring.
Qed.

(** The outcomes of [RDFT], by the tests it makes. *)
Lemma RDFT_by_cases (data : list float64) (shape_array : list Z) :
  let ndim := Z.of_nat (List.length shape_array) in
  let shape := map int64ToIntS shape_array in
  if negb (ndim =? 1) && negb (ndim =? 2) && negb (ndim =? 3) then
    exists msg, RDFT libm_cos libm_sin data shape_array = RDFT_error msg
  else if negb (Z.of_nat (List.length data) =? shape_product shape) then
    exists msg, RDFT libm_cos libm_sin data shape_array = RDFT_error msg
  else if wrap (hermitian_count shape) <? 0 then
    RDFT libm_cos libm_sin data shape_array = RDFT_terminate
  else if leaves_arrays shape then
    RDFT libm_cos libm_sin data shape_array = RDFT_undefined
  else
    exists output,
      RDFT libm_cos libm_sin data shape_array
      = RDFT_ret (interleave output (hermitian_count shape)).
Proof.
  cbv zeta. unfold RDFT.
  destruct (negb (Z.of_nat (List.length shape_array) =? 1)
            && negb (Z.of_nat (List.length shape_array) =? 2)
            && negb (Z.of_nat (List.length shape_array) =? 3)) eqn:En.
  { eexists; reflexivity. }
  destruct (negb (Z.of_nat (List.length data)
                  =? shape_product (map int64ToIntS shape_array))) eqn:Es.
  { eexists; reflexivity. }
  assert (Hn : Z.of_nat (List.length shape_array) = 1
               \/ Z.of_nat (List.length shape_array) = 2
               \/ Z.of_nat (List.length shape_array) = 3).
  { destruct (Z.eqb_spec (Z.of_nat (List.length shape_array)) 1); [lia|].
    destruct (Z.eqb_spec (Z.of_nat (List.length shape_array)) 2); [lia|].
    destruct (Z.eqb_spec (Z.of_nat (List.length shape_array)) 3); [lia|].
    discriminate En. }
  pose proof (complex_size_wrap shape_array) as Ec. cbv zeta in Ec.
  rewrite (Ec Hn). unfold make_unique_complex.
  destruct (wrap (hermitian_count (map int64ToIntS shape_array)) <? 0) eqn:Eh;
    [reflexivity|].
  destruct (leaves_arrays (map int64ToIntS shape_array)) eqn:El; [reflexivity|].
  assert (Ew : wrap (hermitian_count (map int64ToIntS shape_array))
               = hermitian_count (map int64ToIntS shape_array)).
  { apply wrap_id. apply fits_int_spec. unfold leaves_arrays in El.
    apply orb_false_iff in El. destruct El as [El _].
    apply orb_false_iff in El. destruct El as [_ El].
    apply negb_false_iff in El. exact El. }
  rewrite Ew.
  destruct (Z.of_nat (List.length shape_array) =? 1); [eexists; reflexivity|].
  destruct (Z.of_nat (List.length shape_array) =? 2); eexists; reflexivity.
Qed.

End RdftFacts.

Lemma element_count_pos (shape : list Z) :
  Forall (fun s => 1 <= s) shape -> 1 <= element_count shape.
Proof.
  unfold element_count.
  assert (G : forall l acc, Forall (fun s => 1 <= s) l -> 1 <= acc ->
                            1 <= fold_left Z.mul l acc).
  { induction l as [|x l IH]; intros acc Hl Hacc; [exact Hacc|].
    inversion Hl; subst. simpl. apply IH; [assumption|nia]. }
  intros H. apply G; [exact H|lia].
Qed.

Lemma Forall_removelast {A : Type} (P : A -> Prop) (l : list A) :
  Forall P l -> Forall P (removelast l).
Proof.
  induction l as [|x l IH]; intros H; [constructor|].
  inversion H; subst. destruct l as [|y l]; [constructor|].
  change (removelast (x :: y :: l)) with (x :: removelast (y :: l)).
  constructor; [assumption|apply IH; assumption].
Qed.

Lemma Forall_last {A : Type} (P : A -> Prop) (l : list A) (d : A) :
  Forall P l -> l <> [] -> P (last l d).
Proof.
  induction l as [|x l IH]; intros H Hne; [contradiction|].
  inversion H; subst. destruct l as [|y l]; [assumption|].
  change (last (x :: y :: l) d) with (last (y :: l) d).
  apply IH; [assumption|discriminate].
Qed.

(** With positive dimensions the count is positive. *)
Lemma hermitian_count_pos (shape : list Z) :
  shape <> [] -> Forall (fun s => 1 <= s) shape -> 1 <= hermitian_count shape.
Proof.
  intros Hne H. unfold hermitian_count.
  pose proof (element_count_pos _ (Forall_removelast _ _ H)) as P.
  pose proof (Forall_last _ shape 0 H Hne) as L. cbv beta in L.
  assert (1 <= Z.quot (last shape 0) 2 + 1) by (Z.quot_rem_to_equations; lia).
  nia.
Qed.

(** An array has no more elements than its spectrum has doubles. *)
Lemma element_count_le_spectrum (shape : list Z) :
  shape <> [] -> Forall (fun s => 1 <= s) shape ->
  1 <= element_count shape <= hermitian_count shape * 2.
Proof.
  intros Hne H. split; [apply element_count_pos; exact H|].
  unfold hermitian_count.
  pose proof (element_count_pos _ (Forall_removelast _ _ H)) as P.
  pose proof (Forall_last _ shape 0 H Hne) as L. cbv beta in L.
  assert (E : element_count shape = element_count (removelast shape) * last shape 0).
  { rewrite (app_removelast_last 0 Hne) at 1. unfold element_count.
    rewrite fold_left_app. reflexivity. }
  rewrite E.
  assert (last shape 0 <= (Z.quot (last shape 0) 2 + 1) * 2)
    by (Z.quot_rem_to_equations; lia).
  nia.
Qed.

(** C8, as stated, fails: the shape [-1, -1] with one data element
    passes both checks (the product is 1), but the result array would
    have (-1 / 2 + 1) * -1 = -1 elements, the allocation throws and the
    call ends without an error message and without a result. *)
Lemma C8_negative_shape_passes_checks_and_terminates :
  Z.of_nat (List.length [F64.one]) = shape_product (map int64ToIntS [-1; -1])
  /\ hermitian_count (map int64ToIntS [-1; -1]) = -1
  /\ RDFT stub_cos stub_sin [F64.one] [-1; -1] = RDFT_terminate.
Proof. repeat split; vm_compute; reflexivity. Qed.

(** Positive dimensions do not help when their product leaves the range
    of [int]: for the shape [65537, 65537] the 32-bit product is 131073,
    so 131073 data elements pass the check although the shape asks for
    4295098369; the count of complex values, 32769 * 65537, is negative
    in 32 bits and the allocation throws. *)
Remark RDFT_overflowing_shape_passes_check :
  element_count [65537; 65537] = 4295098369
  /\ shape_product (map int64ToIntS [65537; 65537]) = 131073
  /\ wrap (hermitian_count (map int64ToIntS [65537; 65537])) = -2147385343
  /\ RDFT stub_cos stub_sin (repeat F64.zero (Z.to_nat 131073)) [65537; 65537]
     = RDFT_terminate.
Proof. repeat split; vm_compute; reflexivity. Qed.

(** C8, amended: [RDFT] signals a usage error (and stores no result)
    exactly when the shape does not have 1, 2 or 3 elements or the
    number of data elements differs from the product of the shape as
    the code forms it, in 32 bits; that is the product of the shape
    whenever the product fits an [int].  For an input that passes these
    checks, none of whose sizes leaves the range of [int] and whose
    count of complex values, (product of the leading dimensions) * (last
    dimension / 2 + 1), is not negative, it returns the interleaved
    real/imaginary array of that many complex values, twice as many
    doubles.  This is the case whenever every dimension is positive and
    the length of the result fits an [int]. *)
Theorem C8_RDFT_rejects_or_returns_half_spectrum
    (libm_cos libm_sin : float64 -> float64)
    (data : list float64) (shape_array : list Z) :
  let ndim := Z.of_nat (List.length shape_array) in
  let shape := map int64ToIntS shape_array in
  ((exists msg, RDFT libm_cos libm_sin data shape_array = RDFT_error msg)
   <-> (~ (ndim = 1 \/ ndim = 2 \/ ndim = 3)
        \/ Z.of_nat (List.length data) <> shape_product shape))
  /\ shape_product shape = wrap (element_count shape)
  /\ (fits_int (element_count shape) = true ->
      shape_product shape = element_count shape)
  /\ ((ndim = 1 \/ ndim = 2 \/ ndim = 3) ->
      Z.of_nat (List.length data) = shape_product shape ->
      leaves_arrays shape = false ->
      0 <= hermitian_count shape ->
      exists output,
        RDFT libm_cos libm_sin data shape_array
        = RDFT_ret (interleave output (hermitian_count shape))
        /\ Z.of_nat (List.length (interleave output (hermitian_count shape)))
           = 2 * hermitian_count shape)
  /\ ((ndim = 1 \/ ndim = 2 \/ ndim = 3) ->
      Forall (fun s => 1 <= s) shape ->
      hermitian_count shape * 2 <= INT_MAX ->
      leaves_arrays shape = false
      /\ 1 <= hermitian_count shape
      /\ shape_product shape = element_count shape).
Proof.
  cbv zeta.
  pose proof (RDFT_by_cases libm_cos libm_sin data shape_array) as C. cbv zeta in C.
  assert (Nd : negb (Z.of_nat (List.length shape_array) =? 1)
               && negb (Z.of_nat (List.length shape_array) =? 2)
               && negb (Z.of_nat (List.length shape_array) =? 3) = false
               <-> (Z.of_nat (List.length shape_array) = 1
                    \/ Z.of_nat (List.length shape_array) = 2
                    \/ Z.of_nat (List.length shape_array) = 3)).
  { destruct (Z.eqb_spec (Z.of_nat (List.length shape_array)) 1);
      destruct (Z.eqb_spec (Z.of_nat (List.length shape_array)) 2);
      destruct (Z.eqb_spec (Z.of_nat (List.length shape_array)) 3);
      cbn [negb andb]; split; intros; try reflexivity; try discriminate; lia. }
  assert (Hfit : forall shape,
             shape <> [] -> Forall (fun s => 1 <= s) shape ->
             hermitian_count shape * 2 <= INT_MAX ->
             leaves_arrays shape = false
             /\ 1 <= hermitian_count shape
             /\ shape_product shape = element_count shape).
  { intros shape Hne Hpos Hlen.
    pose proof (hermitian_count_pos _ Hne Hpos) as Hh.
    pose proof (element_count_le_spectrum _ Hne Hpos) as He.
    assert (F1 : fits_int (element_count shape) = true)
      by (apply fits_int_spec; unfold INT_MIN, INT_MAX in *; lia).
    assert (F2 : fits_int (hermitian_count shape) = true)
      by (apply fits_int_spec; unfold INT_MIN, INT_MAX in *; lia).
    assert (F3 : fits_int (hermitian_count shape * 2) = true)
      by (apply fits_int_spec; unfold INT_MIN, INT_MAX in *; lia).
    split; [unfold leaves_arrays; rewrite F1, F2, F3; reflexivity|].
    split; [exact Hh|apply shape_product_exact; exact F1]. }
  split; [|split; [apply shape_product_wrap|split; [apply shape_product_exact|]]].
  - destruct (negb (Z.of_nat (List.length shape_array) =? 1)
              && negb (Z.of_nat (List.length shape_array) =? 2)
              && negb (Z.of_nat (List.length shape_array) =? 3)) eqn:En.
    { split; [intros _; left|intros _; exact C].
      intros H. apply Nd in H. discriminate H. }
    destruct (Z.eqb_spec (Z.of_nat (List.length data))
                         (shape_product (map int64ToIntS shape_array))) as [Es|Es];
      cbn [negb] in C.
    + split.
      * intros [msg E].
        destruct (wrap (hermitian_count (map int64ToIntS shape_array)) <? 0);
          [rewrite C in E; discriminate E|].
        destruct (leaves_arrays (map int64ToIntS shape_array));
          [rewrite C in E; discriminate E|].
        destruct C as [out C]. rewrite C in E. discriminate E.
      * intros [H|H]; [|contradiction]. exfalso. apply H. apply Nd. reflexivity.
    + split; [intros _; right; exact Es | intros _; exact C].
  - split.
    + intros Hok Es El Hc. apply Nd in Hok. rewrite Hok in C.
      destruct (Z.eqb_spec (Z.of_nat (List.length data))
                           (shape_product (map int64ToIntS shape_array))) as [_|Ne];
        [|contradiction].
      cbn [negb] in C.
      assert (Ew : wrap (hermitian_count (map int64ToIntS shape_array))
                   = hermitian_count (map int64ToIntS shape_array)).
      { apply wrap_id. apply fits_int_spec. unfold leaves_arrays in El.
        apply orb_false_iff in El. destruct El as [El _].
        apply orb_false_iff in El. destruct El as [_ El].
        apply negb_false_iff in El. exact El. }
      rewrite Ew, El in C.
      destruct (Z.ltb_spec (hermitian_count (map int64ToIntS shape_array)) 0); [lia|].
      destruct C as [out C]. exists out. split; [exact C|].
      apply interleave_length. exact Hc.
    + intros Hok Hpos Hlen. apply Hfit; [|exact Hpos|exact Hlen].
      destruct shape_array; [cbn in Hok; lia|discriminate].
Qed.

(** ** The transform *)

Lemma for_up_snoc {St : Type} (body : Z -> St -> St) (cnt : nat) (i : Z) (s : St) :
  for_up (S cnt) i body s = body (i + Z.of_nat cnt) (for_up cnt i body s).
Proof.
  replace (S cnt) with (cnt + 1)%nat by lia. rewrite for_up_app. reflexivity.
Qed.

(** A loop that stores [val i] at [addr i], all addresses different. *)
Lemma store_loop_at {T : Type} (addr : Z -> Z) (val : Z -> T) (lo hi : Z)
    (s : mem T) (i : Z) :
  lo <= i < hi ->
  (forall i', lo <= i' < hi -> addr i' = addr i -> i' = i) ->
  for_range lo hi (fun i d => upd d (addr i) (val i)) s (addr i) = val i.
Proof.
  intros Hi Hinj.
  rewrite (for_range_at _ lo hi i) by exact Hi.
  rewrite for_range_frame; [apply upd_same|].
  intros i' t Hi'. apply upd_other. intros E.
  pose proof (Hinj i' ltac:(lia) (eq_sym E)). lia.
Qed.

Lemma store_loop_frame {T : Type} (addr : Z -> Z) (val : Z -> T) (lo hi : Z)
    (s : mem T) (c : Z) :
  (forall i, lo <= i < hi -> c <> addr i) ->
  for_range lo hi (fun i d => upd d (addr i) (val i)) s c = s c.
Proof.
  intros H. apply for_range_frame. intros i t Hi. apply upd_other. apply H. exact Hi.
Qed.

(** [dft] on real input writes bin [k] to [dst[k * stride]] for [k] from
    0 to [n / 2] and nothing else. *)
Lemma dft_real_bins {T : Type} `{Scalar T} (dst : mem (T * T)) (src : mem T)
    (n stride : Z) :
  stride <> 0 ->
  (forall k, 0 <= k < Z.quot n 2 + 1 ->
     dft_real dst src n stride (k * stride) = dft_sum c_scale src n stride k)
  /\ (forall c, (forall k, 0 <= k < Z.quot n 2 + 1 -> c <> k * stride) ->
        dft_real dst src n stride c = dst c).
Proof.
  intros Hs. unfold dft_real, dft_loop. split.
  - intros k Hk.
    apply (store_loop_at (fun i => i * stride)
             (fun i => dft_sum c_scale src n stride i)); [exact Hk|].
    intros i' _ E. nia.
  - intros c Hc.
    apply (store_loop_frame (fun i => i * stride)
             (fun i => dft_sum c_scale src n stride i)).
    exact Hc.
Qed.

(** [dft] on complex input writes bin [k] to [dst[k * stride]] for [k]
    from 0 to [n - 1] and nothing else. *)
Lemma dft_complex_bins {T : Type} `{Scalar T} (dst src : mem (T * T)) (n stride : Z) :
  stride <> 0 ->
  (forall k, 0 <= k < n ->
     dft_complex dst src n stride (k * stride) = dft_sum c_mul src n stride k)
  /\ (forall c, (forall k, 0 <= k < n -> c <> k * stride) ->
        dft_complex dst src n stride c = dst c).
Proof.
  intros Hs. unfold dft_complex, dft_loop. split.
  - intros k Hk.
    apply (store_loop_at (fun i => i * stride)
             (fun i => dft_sum c_mul src n stride i)); [exact Hk|].
    intros i' _ E. nia.
  - intros c Hc.
    apply (store_loop_frame (fun i => i * stride)
             (fun i => dft_sum c_mul src n stride i)).
    exact Hc.
Qed.

(** The product [-2 * k * j] as [dft] forms it, when it fits an [int]. *)
Lemma angle_product_exact (n k j : Z) :
  0 <= k -> 2 * k * (n - 1) <= INT_MAX -> 0 <= j < n ->
  int_mul (int_mul (-2) k) j = -2 * k * j.
Proof.
  intros Hk Hn Hj. unfold int_mul. rewrite wrap_mul_l.
  apply wrap_id. unfold INT_MIN, INT_MAX in *.
  assert (0 <= k * j) by (apply Z.mul_nonneg_nonneg; lia).
  assert (k * j <= k * (n - 1)) by (apply Z.mul_le_mono_nonneg_l; lia).
  lia.
Qed.

(** For up to 32768 points the product fits for every bin. *)
Lemma angle_products_fit (n k : Z) :
  0 <= k < n -> n <= 32768 -> 2 * k * (n - 1) <= INT_MAX.
Proof.
  intros Hk Hn. unfold INT_MAX.
  assert (k * (n - 1) <= 32767 * 32767) by (apply Z.mul_le_mono_nonneg; lia).
  lia.
Qed.

(** In [double] arithmetic the inner loop of [dft] is the defining sum,
    for real samples and for complex ones, as long as the products
    [-2 * k * j] fit an [int]. *)
Lemma dft_sum_double (libm_cos libm_sin : float64 -> float64) {X : Type}
    (times : X -> float64 * float64 -> float64 * float64)
    (x : mem X) (n stride k : Z) :
  0 <= k -> 2 * k * (n - 1) <= INT_MAX ->
  @dft_sum float64 (double_scalar libm_cos libm_sin) X times x n stride k
  = DFT_double libm_cos libm_sin times (fun j => x (j * stride)) n k.
Proof.
  intros Hk Hn. unfold dft_sum, DFT_double, for_range. rewrite Z.sub_0_r.
  assert (G : forall cnt, Z.of_nat cnt <= Z.max n 0 ->
            for_up cnt 0
              (fun j sum =>
                 @c_add float64 (double_scalar libm_cos libm_sin) sum
                   (times (x (j * stride))
                      (@dft_weight float64 (double_scalar libm_cos libm_sin) n k j)))
              (@c_zero float64 (double_scalar libm_cos libm_sin))
            = DFT_terms libm_cos libm_sin times (fun j => x (j * stride)) n k cnt).
  { induction cnt as [|cnt IH]; intros Hc; [reflexivity|].
    rewrite for_up_snoc, IH by lia. rewrite Z.add_0_l.
    cbn [DFT_terms]. unfold c_add, dft_weight, DFT_angle. cbn [fst snd].
    cbn [s_add s_mul s_div s_of_int s_pi s_cos s_sin double_scalar].
    rewrite (angle_product_exact n k (Z.of_nat cnt)) by lia.
    reflexivity. }
  apply G. lia.
Qed.

(** *** The impulse [1, 0, 0, 0] in [double] arithmetic *)

Lemma f64_mul_zero_finite (y : float64) :
  F64.is_finite y = true -> exists s, F64.mul F64.zero y = S754_zero s.
Proof.
  destruct y as [s|s| |s m e]; intros H; try discriminate H; eexists; reflexivity.
Qed.

Lemma f64_add_one_zero (s : bool) : F64.add F64.one (S754_zero s) = F64.one.
Proof. destruct s; reflexivity. Qed.

Lemma f64_add_zero_zero (s : bool) : F64.add F64.zero (S754_zero s) = F64.zero.
Proof. destruct s; reflexivity. Qed.

(** The angles [-2 * i * j * pi / 4] that the transform of four points
    passes to [cos] and [sin] are finite, and the one for [j = 0] is 0. *)
Lemma impulse_angles (i j : Z) :
  0 <= i <= 2 -> 0 <= j <= 3 ->
  F64.is_finite (F64.div (F64.mul (F64.of_int (int_mul (int_mul (-2) i) j)) M_PI)
                         (F64.of_int 4)) = true
  /\ F64.div (F64.mul (F64.of_int (int_mul (int_mul (-2) i) 0)) M_PI) (F64.of_int 4)
     = F64.zero.
Proof.
  intros Hi Hj.
  assert (Ci : i = 0 \/ i = 1 \/ i = 2) by lia.
  assert (Cj : j = 0 \/ j = 1 \/ j = 2 \/ j = 3) by lia.
  destruct Ci as [ -> | [ -> | -> ] ]; destruct Cj as [ -> | [ -> | [ -> | -> ] ] ];
    split; vm_compute; reflexivity.
Qed.

Section Impulse.
Variables libm_cos libm_sin : float64 -> float64.
Hypothesis cos_0 : libm_cos F64.zero = F64.one.
Hypothesis sin_0 : libm_sin F64.zero = F64.zero.
Hypothesis libm_finite :
  forall x, F64.is_finite x = true ->
            F64.is_finite (libm_cos x) = true /\ F64.is_finite (libm_sin x) = true.

(** Adding the term of a zero sample leaves the sum [1 + 0i] as it is. *)
Lemma impulse_step (i j : Z) :
  0 <= i <= 2 -> 1 <= j <= 3 ->
  @c_add float64 (double_scalar libm_cos libm_sin) (F64.one, F64.zero)
    (@c_scale float64 (double_scalar libm_cos libm_sin) F64.zero
       (@dft_weight float64 (double_scalar libm_cos libm_sin) 4 i j))
  = (F64.one, F64.zero).
Proof.
  intros Hi Hj.
  destruct (impulse_angles i j Hi ltac:(lia)) as [Hfin _].
  destruct (libm_finite _ Hfin) as [Hc Hs].
  unfold c_add, c_scale, dft_weight. cbn [fst snd].
  cbn [s_add s_mul s_div s_of_int s_pi s_cos s_sin double_scalar].
  destruct (f64_mul_zero_finite _ Hc) as [s1 ->].
  destruct (f64_mul_zero_finite _ Hs) as [s2 ->].
  rewrite f64_add_one_zero, f64_add_zero_zero. reflexivity.
Qed.

Lemma impulse_first (i : Z) :
  0 <= i <= 2 ->
  @c_add float64 (double_scalar libm_cos libm_sin)
    (@c_zero float64 (double_scalar libm_cos libm_sin))
    (@c_scale float64 (double_scalar libm_cos libm_sin) F64.one
       (@dft_weight float64 (double_scalar libm_cos libm_sin) 4 i 0))
  = (F64.one, F64.zero).
Proof.
  intros Hi.
  destruct (impulse_angles i 0 Hi ltac:(lia)) as [_ H0].
  unfold c_add, c_scale, dft_weight, c_zero. cbn [fst snd].
  cbn [s_zero s_add s_mul s_div s_of_int s_pi s_cos s_sin double_scalar].
  rewrite H0, cos_0, sin_0. reflexivity.
Qed.

(** Every bin of the impulse is [1 + 0i]. *)
Lemma impulse_bin (i : Z) :
  0 <= i <= 2 ->
  @dft_sum float64 (double_scalar libm_cos libm_sin) float64
    (@c_scale float64 (double_scalar libm_cos libm_sin))
    (double_array [F64.one; F64.zero; F64.zero; F64.zero]) 4 1 i
  = (F64.one, F64.zero).
Proof.
  intros Hi. unfold dft_sum, for_range.
  change (Z.to_nat (4 - 0)) with 4%nat. cbn [for_up].
  change (double_array [F64.one; F64.zero; F64.zero; F64.zero] (0 * 1)) with F64.one.
  change (double_array [F64.one; F64.zero; F64.zero; F64.zero] ((0 + 1) * 1))
    with F64.zero.
  change (double_array [F64.one; F64.zero; F64.zero; F64.zero] ((0 + 1 + 1) * 1))
    with F64.zero.
  change (double_array [F64.one; F64.zero; F64.zero; F64.zero] ((0 + 1 + 1 + 1) * 1))
    with F64.zero.
  rewrite impulse_first by exact Hi.
  change (0 + 1) with 1. change (1 + 1) with 2. change (2 + 1) with 3.
  rewrite !impulse_step by lia. reflexivity.
Qed.

End Impulse.

(** *** Rounding: the sum of [1] and [2^-53] *)

(** The first bin of a two-point signal is the rounded sum of the two
    samples times [cos 0]. *)
Lemma two_point_first_bin (libm_cos libm_sin : float64 -> float64) (a b : float64) :
  libm_cos F64.zero = F64.one -> libm_sin F64.zero = F64.zero ->
  @dft_sum float64 (double_scalar libm_cos libm_sin) float64
    (@c_scale float64 (double_scalar libm_cos libm_sin)) (double_array [a; b]) 2 1 0
  = (F64.add (F64.add F64.zero (F64.mul a F64.one)) (F64.mul b F64.one),
     F64.add (F64.add F64.zero (F64.mul a F64.zero)) (F64.mul b F64.zero)).
Proof.
  intros Hc Hs. unfold dft_sum, for_range.
  change (Z.to_nat (2 - 0)) with 2%nat. cbn [for_up].
  change (double_array [a; b] (0 * 1)) with a.
  change (double_array [a; b] ((0 + 1) * 1)) with b.
  unfold c_add, c_scale, dft_weight, c_zero. cbn [fst snd].
  cbn [s_zero s_add s_mul s_div s_of_int s_pi s_cos s_sin double_scalar].
  change (F64.div (F64.mul (F64.of_int (int_mul (int_mul (-2) 0) 0)) M_PI) (F64.of_int 2))
    with F64.zero.
  change (F64.div (F64.mul (F64.of_int (int_mul (int_mul (-2) 0) (0 + 1))) M_PI)
                  (F64.of_int 2))
    with F64.zero.
  rewrite Hc, Hs. reflexivity.
Qed.

(** C7, as stated, fails: the sums are rounded.  The exact transform of
    the two samples [1] and [2^-53] has [1 + 2^-53] in bin 0, the sum of
    the samples; [RDFT] returns [1 + 0i] there, the same as for the
    samples [1] and [0], with any C library whose [cos] and [sin] are
    right at zero. *)
Lemma C7_rounded_sum_is_not_exact :
  ~ Qeq (Qplus (F64.to_Q F64.one) (F64.to_Q two_pow_minus_53)) (F64.to_Q F64.one)
  /\ forall libm_cos libm_sin : float64 -> float64,
       libm_cos F64.zero = F64.one -> libm_sin F64.zero = F64.zero ->
       exists rest,
         RDFT libm_cos libm_sin [F64.one; two_pow_minus_53] [2]
         = RDFT_ret (F64.one :: F64.zero :: rest).
Proof.
  split; [vm_compute; discriminate|].
  intros libm_cos libm_sin Hc Hs.
  set (input := double_array [F64.one; two_pow_minus_53]).
  set (out := @dft_real float64 (double_scalar libm_cos libm_sin)
                (fun _ => @c_zero float64 (double_scalar libm_cos libm_sin))
                input 2 1).
  exists [fst (out (1 * 1)); snd (out (1 * 1))].
  transitivity (RDFT_ret [fst (out (0 * 1)); snd (out (0 * 1));
                          fst (out (1 * 1)); snd (out (1 * 1))]); [reflexivity|].
  destruct (@dft_real_bins float64 (double_scalar libm_cos libm_sin)
              (fun _ => @c_zero float64 (double_scalar libm_cos libm_sin))
              input 2 1 ltac:(lia)) as [B _].
  change (Z.quot 2 2 + 1) with 2 in B.
  unfold out. rewrite (B 0) by lia. unfold input.
  rewrite (two_point_first_bin libm_cos libm_sin _ _ Hc Hs). reflexivity.
Qed.

(** C7, amended: [dft] evaluates the discrete Fourier transform by its
    defining sum in [double] arithmetic: for real input it stores in
    [dst[k * stride]], for the [n / 2 + 1] bins [k = 0 .. n / 2], the
    sum over [j] of [x_j * exp(-2 pi i j k / n)] with the angle, the
    products and the partial sums rounded and [cos] and [sin] taken from
    the C library; for complex input it stores the [n] bins [k = 0 ..
    n - 1] the same way; it stores nothing else.  The value is the
    defining sum for every bin [k] whose products [2 * k * j] fit an
    [int], which are all bins when [n] is at most 32768.  With a C library whose
    [cos] and [sin] are right at zero and finite on finite arguments,
    [RDFT] on shape [4] and data [1, 0, 0, 0] returns the six doubles of
    [1+0i, 1+0i, 1+0i]. *)
Theorem C7_dft_defining_sum_and_impulse_response
    (libm_cos libm_sin : float64 -> float64) :
  (forall (dst : mem (float64 * float64)) (x : mem float64) (n stride : Z),
     stride <> 0 ->
     (forall k, 0 <= k < Z.quot n 2 + 1 -> 2 * k * (n - 1) <= INT_MAX ->
        @dft_real float64 (double_scalar libm_cos libm_sin) dst x n stride (k * stride)
        = DFT_double libm_cos libm_sin times_real (fun j => x (j * stride)) n k)
     /\ (forall c, (forall k, 0 <= k < Z.quot n 2 + 1 -> c <> k * stride) ->
           @dft_real float64 (double_scalar libm_cos libm_sin) dst x n stride c = dst c))
  /\ (forall (dst x : mem (float64 * float64)) (n stride : Z),
        stride <> 0 ->
        (forall k, 0 <= k < n -> 2 * k * (n - 1) <= INT_MAX ->
           @dft_complex float64 (double_scalar libm_cos libm_sin) dst x n stride (k * stride)
           = DFT_double libm_cos libm_sin times_complex (fun j => x (j * stride)) n k)
        /\ (forall c, (forall k, 0 <= k < n -> c <> k * stride) ->
              @dft_complex float64 (double_scalar libm_cos libm_sin) dst x n stride c
              = dst c))
  /\ (libm_cos F64.zero = F64.one ->
      libm_sin F64.zero = F64.zero ->
      (forall x, F64.is_finite x = true ->
                 F64.is_finite (libm_cos x) = true /\ F64.is_finite (libm_sin x) = true) ->
      RDFT libm_cos libm_sin [F64.one; F64.zero; F64.zero; F64.zero] [4]
      = RDFT_ret [F64.one; F64.zero; F64.one; F64.zero; F64.one; F64.zero]).
Proof.
  split; [|split].
  - intros dst x n stride Hst.
    destruct (@dft_real_bins float64 (double_scalar libm_cos libm_sin) dst x n stride Hst)
      as [B F].
    split; [|exact F].
    intros k Hk Hfit. rewrite B by exact Hk.
    apply (dft_sum_double libm_cos libm_sin times_real); [lia|exact Hfit].
  - intros dst x n stride Hst.
    destruct (@dft_complex_bins float64 (double_scalar libm_cos libm_sin) dst x n stride Hst)
      as [B F].
    split; [|exact F].
    intros k Hk Hfit. rewrite B by exact Hk.
    apply (dft_sum_double libm_cos libm_sin times_complex); [lia|exact Hfit].
  - intros Hc Hs Hfin.
    set (input := double_array [F64.one; F64.zero; F64.zero; F64.zero]).
    set (out := @dft_real float64 (double_scalar libm_cos libm_sin)
                  (fun _ => @c_zero float64 (double_scalar libm_cos libm_sin))
                  input 4 1).
    transitivity (RDFT_ret [fst (out (0 * 1)); snd (out (0 * 1));
                            fst (out (1 * 1)); snd (out (1 * 1));
                            fst (out (2 * 1)); snd (out (2 * 1))]); [reflexivity|].
    destruct (@dft_real_bins float64 (double_scalar libm_cos libm_sin)
                (fun _ => @c_zero float64 (double_scalar libm_cos libm_sin))
                input 4 1 ltac:(lia)) as [B _].
    change (Z.quot 4 2 + 1) with 3 in B.
    unfold out. rewrite !B by lia. unfold input.
    rewrite !(impulse_bin libm_cos libm_sin Hc Hs Hfin) by lia.
    reflexivity.
Qed.

(** C7 with the stand-in C library: the impulse. *)
Lemma C7_impulse_response_witness :
  RDFT stub_cos stub_sin [F64.one; F64.zero; F64.zero; F64.zero] [4]
  = RDFT_ret [F64.one; F64.zero; F64.one; F64.zero; F64.one; F64.zero].
Proof.
  apply (C7_dft_defining_sum_and_impulse_response stub_cos stub_sin).
  - reflexivity.
  - reflexivity.
  - intros x Hx. destruct x; try discriminate Hx; split; reflexivity.
Defined.

(* ================================================================== *)
(** * Further properties                                               *)
(* ================================================================== *)

(** ** Padded sizes and the block grid *)

Lemma calc_pad_size_mono (n n' bst p p' : Z) :
  0 <= n <= n' ->
  calc_pad_size n 16 bst = Some p -> calc_pad_size n' 16 bst = Some p' ->
  16 <= p <= p'.
Proof.
  intros Hn E E'.
  destruct (calc_pad_size_spec n bst ltac:(lia)) as (k & Ek & Hk).
  destruct (calc_pad_size_spec n' bst ltac:(lia)) as (k' & Ek' & Hk').
  rewrite E in Ek. apply Some_inj in Ek. rewrite E' in Ek'. apply Some_inj in Ek'.
  lia.
Qed.

(** X1: for block size 16 and a block step between 1 and 16,
    [calc_pad_size] grows with the plane size, and the padded size
    leaves between 8 and 23 cells before the plane (the offset
    [(pad - n) / 2] that every caller uses) and between 8 and 24 cells
    after it. *)
Theorem X1_calc_pad_size_margins (n n' block_step : Z) :
  0 <= n <= n' -> 1 <= block_step <= 16 ->
  exists p p',
    calc_pad_size n 16 block_step = Some p
    /\ calc_pad_size n' 16 block_step = Some p'
    /\ p <= p'
    /\ 8 <= Z.quot (p - n) 2 <= 23
    /\ 8 <= p - n - Z.quot (p - n) 2 <= 24.
Proof.
  intros Hn Hs.
  destruct (calc_pad_size_spec n block_step ltac:(lia)) as (k & E & Hk).
  destruct (calc_pad_size_spec n' block_step ltac:(lia)) as (k' & E' & Hk').
  eexists. eexists. split; [exact E|]. split; [exact E'|].
  assert (HM : 8 <= Z.max (16 - block_step) block_step <= 16) by lia.
  set (M := Z.max (16 - block_step) block_step) in *. clearbody M.
  split; [lia|]. split; Z.quot_rem_to_equations; lia.
Qed.

(** X1 for planes of 17 and 20 cells and a block step of 3. *)
Lemma X1_calc_pad_size_margins_witness :
  exists p p',
    calc_pad_size 17 16 3 = Some p
    /\ calc_pad_size 20 16 3 = Some p'
    /\ p <= p'
    /\ 8 <= Z.quot (p - 17) 2 <= 23
    /\ 8 <= p - 17 - Z.quot (p - 17) 2 <= 24.
Proof. apply (X1_calc_pad_size_margins 17 20 3); lia. Defined.

Lemma cell_in_buffer (pw ph y x : Z) :
  0 <= y < ph -> 0 <= x < pw -> 0 <= y * pw + x < ph * pw.
Proof. intros Hy Hx. split; nia. Qed.

Lemma load_block_cells_In (radius offset_y offset_x c : Z) :
  In c (load_block_cells radius offset_y offset_x)
  <-> exists i j k, 0 <= i < 2 * radius + 1 /\ 0 <= j < 16 /\ 0 <= k < 16
                    /\ c = (i * offset_y + j) * offset_x + k.
Proof.
  unfold load_block_cells, lanes. rewrite in_flat_map. split.
  - intros (i & Hi & H). apply zseq_In in Hi.
    apply in_flat_map in H. destruct H as (j & Hj & H). apply zseq_In in Hj.
    apply in_map_iff in H. destruct H as (k & <- & Hk). apply zseq_In in Hk.
    exists i, j, k. repeat split; lia.
  - intros (i & j & k & Hi & Hj & Hk & ->).
    exists i. split; [apply zseq_In; lia|].
    apply in_flat_map. exists j. split; [apply zseq_In; lia|].
    apply in_map_iff. exists k. split; [reflexivity|apply zseq_In; lia].
Qed.

Lemma grid_axis_inside (n block_step : Z) :
  0 <= n -> 1 <= block_step ->
  exists p num,
    calc_pad_size n 16 block_step = Some p
    /\ calc_pad_num n 16 block_step = Some num
    /\ 1 <= num /\ 16 <= p
    /\ forall i, 0 <= i < num -> 0 <= i * block_step /\ i * block_step + 16 <= p.
Proof.
  intros Hn Hs.
  destruct (calc_pad_size_spec n block_step Hn) as (k & E & Hk).
  set (p := 16 * k + 2 * Z.max (16 - block_step) block_step) in *.
  assert (Hp : 16 <= p) by (subst p; lia).
  exists p, (Z.quot (p - 16) block_step + 1).
  split; [exact E|].
  split.
  { unfold calc_pad_num. rewrite E. cbn [bind]. unfold c_div.
    destruct (Z.eqb_spec block_step 0); [lia|]. reflexivity. }
  assert (Hq : 0 <= Z.quot (p - 16) block_step) by (apply Z.quot_pos; lia).
  assert (Hm : Z.quot (p - 16) block_step * block_step <= p - 16).
  { pose proof (Z.mul_quot_le (p - 16) block_step ltac:(lia) ltac:(lia)). lia. }
  split; [lia|]. split; [exact Hp|].
  intros i Hi. split; [nia|]. nia.
Qed.

(** ** The sizes in 32 bits *)

(** A padded size that fits an [int] is computed without overflow: the
    32-bit evaluation gives the same value. *)
Lemma calc_pad_size_int_exact (size block_size block_step p : Z) :
  0 <= size -> 1 <= block_size ->
  calc_pad_size size block_size block_step = Some p -> p <= INT_MAX ->
  calc_pad_size_int size block_size block_step = Some p.
Proof.
  intros Hs Hb E Hp. unfold calc_pad_size in E. unfold calc_pad_size_int.
  unfold c_rem in *. destruct (Z.eqb_spec block_size 0); [lia|].
  cbn [bind] in *. apply Some_inj in E. f_equal.
  pose proof (Z.rem_bound_pos size block_size Hs ltac:(lia)) as Hr.
  set (r := Z.rem size block_size) in *.
  unfold INT_MAX in Hp.
  assert (Ha : 0 <= (if r =? 0 then 0 else block_size - r) <= block_size)
    by (destruct (r =? 0); lia).
  assert (Hm : block_size <= 2 * Z.max (block_size - block_step) block_step) by lia.
  unfold int_add, int_sub, int_mul.
  rewrite (wrap_id (block_size - block_step)) by (unfold INT_MIN, INT_MAX; lia).
  rewrite (wrap_id (Z.max (block_size - block_step) block_step * 2))
    by (unfold INT_MIN, INT_MAX; lia).
  assert (Ea : (if r =? 0 then 0 else wrap (block_size - r))
               = (if r =? 0 then 0 else block_size - r)).
  { destruct (r =? 0); [reflexivity|]. apply wrap_id. unfold INT_MIN, INT_MAX. lia. }
  rewrite Ea.
  rewrite (wrap_id (size + _)) by (unfold INT_MIN, INT_MAX; lia).
  rewrite wrap_id by (unfold INT_MIN, INT_MAX; lia).
  exact E.
Qed.

Lemma calc_pad_num_int_exact (size block_step p num : Z) :
  0 <= size -> block_step <> 0 ->
  calc_pad_size size 16 block_step = Some p -> p <= INT_MAX ->
  calc_pad_num size 16 block_step = Some num ->
  calc_pad_num_int size 16 block_step = Some num.
Proof.
  intros Hs Hb E Hp En.
  pose proof (calc_pad_size_at_least_16 _ _ _ Hs E) as H16.
  unfold calc_pad_num in En. rewrite E in En. cbn [bind] in En.
  unfold c_div in En. destruct (Z.eqb_spec block_step 0); [contradiction|].
  cbn [bind] in En. apply Some_inj in En.
  unfold calc_pad_num_int.
  rewrite (calc_pad_size_int_exact size 16 block_step p Hs ltac:(lia) E Hp).
  cbn [bind]. unfold int_sub, int_add, int_div, INT_MAX in *.
  rewrite (wrap_id (p - 16)) by (unfold INT_MIN, INT_MAX; lia).
  destruct (Z.eqb_spec block_step 0); [contradiction|].
  destruct (Z.eqb_spec (p - 16) INT_MIN); [unfold INT_MIN in *; lia|].
  cbn [andb bind]. f_equal.
  assert (Hq : Z.abs (Z.quot (p - 16) block_step) <= p - 16).
  { rewrite <- Z.quot_abs by exact n.
    rewrite (Z.abs_eq (p - 16)) by lia.
    apply Z.quot_le_upper_bound; [lia|].
    assert (1 <= Z.abs block_step) by lia. nia. }
  rewrite wrap_id by (unfold INT_MIN, INT_MAX; lia).
  exact En.
Qed.

(** What [sizes_fit_int] says. *)
Lemma sizes_fit_int_spec (d : DFTTestData) (fmt : VSFormat) (width height : Z) :
  sizes_fit_int d fmt width height = true ->
  exists pad_h pad_w,
    calc_pad_size height (block_size d) (block_step d) = Some pad_h
    /\ calc_pad_size width (block_size d) (block_step d) = Some pad_w
    /\ 0 <= width /\ 0 <= height /\ 0 <= radius d /\ 1 <= bytesPerSample fmt
    /\ (2 * radius d + 1) * pad_h * pad_w * bytesPerSample fmt <= INT_MAX.
Proof.
  unfold sizes_fit_int. intros H.
  destruct (calc_pad_size height (block_size d) (block_step d)) as [ph|]; [|discriminate H].
  destruct (calc_pad_size width (block_size d) (block_step d)) as [pw|]; [|discriminate H].
  repeat (apply andb_true_iff in H; destruct H as [H ?]).
  exists ph, pw. repeat split; try reflexivity;
    try (apply Z.leb_le; assumption).
Qed.

(** Bounds on the factors of a product of positive numbers. *)
Lemma product_factors (a b c e bound : Z) :
  1 <= a -> 1 <= b -> 1 <= c -> 1 <= e -> a * b * c * e <= bound ->
  a <= bound /\ b <= bound /\ c <= bound /\ a * b <= bound /\ b * c <= bound
  /\ a * b * c <= bound.
Proof.
  intros Ha Hb Hc He H.
  assert (H1 : a * b * c <= a * b * c * e) by nia.
  assert (H2 : a * b <= a * b * c) by nia.
  assert (H3 : a <= a * b) by nia.
  assert (H4 : b <= a * b) by nia.
  assert (H5 : b * c <= a * b * c) by nia.
  assert (H6 : c <= b * c) by nia.
  lia.
Qed.

(** When the sample buffer fits an [int], the code's own evaluation of
    the two allocation sizes gives the sizes of the model. *)
Lemma padded_size_int_exact (d : DFTTestData) (vi : VSVideoInfo) (fmt : VSFormat) :
  block_size d = 16 ->
  sizes_fit_int d fmt (vi_width vi) (vi_height vi) = true ->
  exists size size2,
    padded_size d vi fmt = Some size /\ padded_size_int d vi fmt = Some size
    /\ padded2_size d vi = Some size2 /\ padded2_size_int d vi = Some size2
    /\ 0 <= size <= INT_MAX.
Proof.
  intros Hbs H. apply sizes_fit_int_spec in H.
  destruct H as (ph & pw & Eh & Ew & Hw & Hh & Hr & Hb & Hfit).
  rewrite Hbs in Eh, Ew.
  pose proof (calc_pad_size_at_least_16 _ _ _ Hh Eh) as Hph.
  pose proof (calc_pad_size_at_least_16 _ _ _ Hw Ew) as Hpw.
  destruct (product_factors (2 * radius d + 1) ph pw (bytesPerSample fmt) INT_MAX
              ltac:(lia) ltac:(lia) ltac:(lia) Hb Hfit)
    as (B1 & B2 & B3 & B4 & B5 & B6).
  assert (P1 : 0 <= (2 * radius d + 1) * ph) by nia.
  assert (P2 : 0 <= (2 * radius d + 1) * ph * pw) by nia.
  assert (P3 : 0 <= (2 * radius d + 1) * ph * pw * bytesPerSample fmt) by nia.
  assert (P4 : 0 <= ph * pw) by nia.
  exists ((2 * radius d + 1) * ph * pw * bytesPerSample fmt), (ph * pw * 4).
  unfold padded_size, padded_size_int, padded2_size, padded2_size_int.
  rewrite Hbs, Eh, Ew.
  rewrite (calc_pad_size_int_exact _ 16 _ ph Hh ltac:(lia) Eh B2).
  rewrite (calc_pad_size_int_exact _ 16 _ pw Hw ltac:(lia) Ew B3).
  cbn [bind]. unfold int_mul, int_add, INT_MAX in *.
  rewrite (wrap_id (2 * radius d)) by (unfold INT_MIN, INT_MAX; lia).
  rewrite (wrap_id (2 * radius d + 1)) by (unfold INT_MIN, INT_MAX; lia).
  rewrite (wrap_id ((2 * radius d + 1) * ph)) by (unfold INT_MIN, INT_MAX; lia).
  rewrite (wrap_id ((2 * radius d + 1) * ph * pw)) by (unfold INT_MIN, INT_MAX; lia).
  rewrite (wrap_id ((2 * radius d + 1) * ph * pw * bytesPerSample fmt))
    by (unfold INT_MIN, INT_MAX; lia).
  rewrite (wrap_id (ph * pw)) by (unfold INT_MIN, INT_MAX; lia).
  split; [reflexivity|]. split; [reflexivity|]. split; [reflexivity|].
  split; [|lia].
  f_equal. change (2 ^ 64) with 18446744073709551616.
  rewrite (Z.mod_small (ph * pw)) by lia. apply Z.mod_small. lia.
Qed.

(** When the sample buffer of a plane fits an [int], the padded sizes
    and the block counts of the plane are the same in 32 bits. *)
Lemma sizes_fit_int_exact (d : DFTTestData) (fmt : VSFormat) (width height : Z) :
  block_size d = 16 -> block_step d <> 0 ->
  sizes_fit_int d fmt width height = true ->
  calc_pad_size_int width 16 (block_step d) = calc_pad_size width 16 (block_step d)
  /\ calc_pad_size_int height 16 (block_step d) = calc_pad_size height 16 (block_step d)
  /\ calc_pad_num_int width 16 (block_step d) = calc_pad_num width 16 (block_step d)
  /\ calc_pad_num_int height 16 (block_step d) = calc_pad_num height 16 (block_step d).
Proof.
  intros Hbs Hst H. apply sizes_fit_int_spec in H.
  destruct H as (ph & pw & Eh & Ew & Hw & Hh & Hr & Hb & Hfit).
  rewrite Hbs in Eh, Ew.
  pose proof (calc_pad_size_at_least_16 _ _ _ Hh Eh) as Hph.
  pose proof (calc_pad_size_at_least_16 _ _ _ Hw Ew) as Hpw.
  destruct (product_factors (2 * radius d + 1) ph pw (bytesPerSample fmt) INT_MAX
              ltac:(lia) ltac:(lia) ltac:(lia) Hb Hfit)
    as (B1 & B2 & B3 & B4 & B5 & B6).
  destruct (calc_pad_num_total width 16 (block_step d) ltac:(lia) Hst) as [nx Enx].
  destruct (calc_pad_num_total height 16 (block_step d) ltac:(lia) Hst) as [ny Eny].
  rewrite Ew, Eh, Enx, Eny.
  split; [apply calc_pad_size_int_exact; assumption || lia|].
  split; [apply calc_pad_size_int_exact; assumption || lia|].
  split; [apply (calc_pad_num_int_exact width (block_step d) pw); assumption|].
  apply (calc_pad_num_int_exact height (block_step d) ph); assumption.
Qed.

(** Frames of up to 4096 x 4096 samples of at most four bytes, with a
    radius of at most 3 and a block step between -16 and 16, have sample
    buffers that fit an [int]. *)
Lemma sizes_fit_int_intro (d : DFTTestData) (fmt : VSFormat) (width height : Z) :
  block_size d = 16 -> 0 <= radius d <= 3 -> 1 <= bytesPerSample fmt <= 4 ->
  0 <= width <= 4096 -> 0 <= height <= 4096 -> -16 <= block_step d <= 16 ->
  sizes_fit_int d fmt width height = true.
Proof.
  intros Hbs Hr Hb Hw Hh Hs. unfold sizes_fit_int. rewrite Hbs.
  destruct (calc_pad_size_spec height (block_step d) ltac:(lia)) as (kh & -> & Bh).
  destruct (calc_pad_size_spec width (block_step d) ltac:(lia)) as (kw & -> & Bw).
  assert (Hm : 8 <= Z.max (16 - block_step d) (block_step d) <= 32) by lia.
  set (M := Z.max (16 - block_step d) (block_step d)) in *. clearbody M.
  set (ph := 16 * kh + 2 * M) in *. set (pw := 16 * kw + 2 * M) in *.
  assert (Hph : 1 <= ph <= 4176) by (subst ph; lia).
  assert (Hpw : 1 <= pw <= 4176) by (subst pw; lia).
  clearbody ph pw.
  destruct (Z.leb_spec 0 width); [|lia]. destruct (Z.leb_spec 0 height); [|lia].
  destruct (Z.leb_spec 0 (radius d)); [|lia].
  destruct (Z.leb_spec 1 (bytesPerSample fmt)); [|lia].
  cbn [andb]. apply Z.leb_le. unfold INT_MAX.
  assert (G1 : (2 * radius d + 1) * ph <= 7 * 4176)
    by (apply Z.mul_le_mono_nonneg; lia).
  assert (G2 : (2 * radius d + 1) * ph * pw <= 7 * 4176 * 4176).
  { apply Z.mul_le_mono_nonneg; try lia. }
  assert (G3 : (2 * radius d + 1) * ph * pw * bytesPerSample fmt <= 7 * 4176 * 4176 * 4).
  { apply Z.mul_le_mono_nonneg; try lia; apply Z.mul_nonneg_nonneg; lia. }
  lia.
Qed.


(** X2: for a plane of non-negative size, a block step of at least 1
    and a sample buffer whose size in bytes fits an [int], the padded
    sizes and the block counts are computed without overflow, the block
    loop runs at least once along each axis, and for every grid position
    [(i, j)] it visits, the cells that [store_block] accumulates into
    lie inside the [pad_h] x [pad_w] accumulation buffer, the cells that
    [load_block] reads (seen from the pointer
    [&padded[(i * pad_w + j) * block_step * bytes_per_sample]]) lie
    inside the [(2 * radius + 1)] x [pad_h] x [pad_w] sample buffer, and
    the byte offset of that pointer is an [int]. *)
Theorem X2_block_grid_inside_buffers
    (width height block_step radius bytes_per_sample pad_w pad_h : Z) :
  0 <= width -> 0 <= height -> 1 <= block_step -> 0 <= radius ->
  1 <= bytes_per_sample ->
  calc_pad_size width 16 block_step = Some pad_w ->
  calc_pad_size height 16 block_step = Some pad_h ->
  (2 * radius + 1) * pad_h * pad_w * bytes_per_sample <= INT_MAX ->
  calc_pad_size_int width 16 block_step = Some pad_w
  /\ calc_pad_size_int height 16 block_step = Some pad_h
  /\ exists num_y num_x,
       calc_pad_num height 16 block_step = Some num_y
       /\ calc_pad_num_int height 16 block_step = Some num_y
       /\ calc_pad_num width 16 block_step = Some num_x
       /\ calc_pad_num_int width 16 block_step = Some num_x
       /\ 1 <= num_y /\ 1 <= num_x
       /\ forall i j, 0 <= i < num_y -> 0 <= j < num_x ->
            (forall c, In c (block_cells pad_w block_step i j) -> 0 <= c < pad_h * pad_w)
            /\ (forall c, In c (load_block_cells radius pad_h pad_w) ->
                  0 <= (i * pad_w + j) * block_step + c
                    < (2 * radius + 1) * pad_h * pad_w)
            /\ 0 <= (i * pad_w + j) * block_step * bytes_per_sample <= INT_MAX.
Proof.
  intros Hw Hh Hs Hr Hb Ew Eh Hfit.
  destruct (grid_axis_inside width block_step Hw Hs) as (pw & nx & Ew' & Enx & Hnx & Hpw & Hx).
  destruct (grid_axis_inside height block_step Hh Hs) as (ph & ny & Eh' & Eny & Hny & Hph & Hy).
  rewrite Ew in Ew'. apply Some_inj in Ew'. subst pw.
  rewrite Eh in Eh'. apply Some_inj in Eh'. subst ph.
  destruct (product_factors (2 * radius + 1) pad_h pad_w bytes_per_sample INT_MAX
              ltac:(lia) ltac:(lia) ltac:(lia) Hb Hfit)
    as (B1 & B2 & B3 & B4 & B5 & B6).
  split; [apply calc_pad_size_int_exact; assumption || lia|].
  split; [apply calc_pad_size_int_exact; assumption || lia|].
  exists ny, nx.
  split; [exact Eny|].
  split; [apply (calc_pad_num_int_exact height block_step pad_h); assumption || lia|].
  split; [exact Enx|].
  split; [apply (calc_pad_num_int_exact width block_step pad_w); assumption || lia|].
  split; [exact Hny|]. split; [exact Hnx|].
  intros i j Hi Hj.
  destruct (Hy i Hi) as [Hy0 Hy1]. destruct (Hx j Hj) as [Hx0 Hx1].
  assert (Hcell : forall c, In c (load_block_cells radius pad_h pad_w) ->
                    0 <= (i * pad_w + j) * block_step + c
                      < (2 * radius + 1) * pad_h * pad_w).
  { intros c Hc. apply load_block_cells_In in Hc.
    destruct Hc as (t & r & k & Ht & Hr' & Hk & ->).
    replace ((i * pad_w + j) * block_step + ((t * pad_h + r) * pad_w + k))
      with ((t * pad_h + (i * block_step + r)) * pad_w + (j * block_step + k)) by ring.
    replace ((2 * radius + 1) * pad_h * pad_w)
      with (((2 * radius + 1) * pad_h) * pad_w) by ring.
    apply cell_in_buffer; [|lia].
    split; [nia|].
    assert (t * pad_h + pad_h <= (2 * radius + 1) * pad_h) by nia. lia. }
  split; [|split; [exact Hcell|]].
  - intros c Hc. apply block_cells_In in Hc.
    destruct Hc as (r & k & Hr' & Hk & ->).
    apply cell_in_buffer; lia.
  - assert (H0 : In 0 (load_block_cells radius pad_h pad_w)).
    { apply load_block_cells_In. exists 0, 0, 0. lia. }
    specialize (Hcell 0 H0). rewrite Z.add_0_r in Hcell.
    split; [apply Z.mul_nonneg_nonneg; lia|].
    assert ((i * pad_w + j) * block_step * bytes_per_sample
            <= (2 * radius + 1) * pad_h * pad_w * bytes_per_sample)
      by (apply Z.mul_le_mono_nonneg_r; lia).
    lia.
Qed.

(** X2 for a 20x17 plane of one-byte samples, a block step of 3 and a
    radius of 1. *)
Lemma X2_block_grid_inside_buffers_witness :
  calc_pad_size_int 20 16 3 = Some 58
  /\ calc_pad_size_int 17 16 3 = Some 58
  /\ exists num_y num_x,
       calc_pad_num 17 16 3 = Some num_y
       /\ calc_pad_num_int 17 16 3 = Some num_y
       /\ calc_pad_num 20 16 3 = Some num_x
       /\ calc_pad_num_int 20 16 3 = Some num_x
       /\ 1 <= num_y /\ 1 <= num_x
       /\ forall i j, 0 <= i < num_y -> 0 <= j < num_x ->
            (forall c, In c (block_cells 58 3 i j) -> 0 <= c < 58 * 58)
            /\ (forall c, In c (load_block_cells 1 58 58) ->
                  0 <= (i * 58 + j) * 3 + c < (2 * 1 + 1) * 58 * 58)
            /\ 0 <= (i * 58 + j) * 3 * 1 <= INT_MAX.
Proof.
  apply (X2_block_grid_inside_buffers 20 17 3 1 1 58 58);
    try lia; try reflexivity; vm_compute; discriminate.
Defined.

(** ** Reflection padding: where it writes and what it leaves *)

Lemma bitblt_frame {T : Type} (dst src : mem T) (dpos ds ss rs h c : Z) :
  (forall y x, 0 <= y < h -> 0 <= x < rs -> dpos + y * ds + x <> c) ->
  vs_bitblt dst dpos ds src ss rs h c = dst c.
Proof.
  intros Hc. unfold vs_bitblt.
  apply for_range_frame. intros y t Hy.
  apply for_range_frame. intros x t' Hx.
  apply upd_other. intros E. apply (Hc y x Hy Hx). symmetry. exact E.
Qed.

Lemma reflection_padding_impl_frame {T : Type} (dst src : mem T)
    (width height stride pw ph c : Z) :
  0 <= width -> 0 <= height -> width + 2 <= pw -> height + 2 <= ph ->
  c < 0 \/ ph * pw <= c ->
  pad_bottom dst src width height stride pw ph c = dst c.
Proof.
  intros Hw Hh Hpw Hph Hc.
  assert (Hox : 0 <= Z.quot (pw - width) 2 /\ Z.quot (pw - width) 2 + width <= pw)
    by (split; Z.quot_rem_to_equations; lia).
  assert (Hoy : 0 <= Z.quot (ph - height) 2 /\ Z.quot (ph - height) 2 + height <= ph)
    by (split; Z.quot_rem_to_equations; lia).
  assert (Hout : forall y x, 0 <= y < ph -> 0 <= x < pw -> y * pw + x <> c).
  { intros y x Hy Hx. pose proof (cell_in_buffer pw ph y x Hy Hx). lia. }
  unfold pad_bottom.
  rewrite memcpy_loop_frame with (rsrc := fun y => 2 * (Z.quot (ph - height) 2 + height) - 2 - y).
  2:{ intros y Hy. pose proof (cell_in_buffer pw ph y 0 ltac:(lia) ltac:(lia)).
      pose proof (cell_in_buffer pw ph y (pw - 1) ltac:(lia) ltac:(lia)). lia. }
  unfold pad_top.
  rewrite memcpy_loop_frame with (rsrc := fun y => Z.quot (ph - height) 2 * 2 - y).
  2:{ intros y Hy. pose proof (cell_in_buffer pw ph y 0 ltac:(lia) ltac:(lia)).
      pose proof (cell_in_buffer pw ph y (pw - 1) ltac:(lia) ltac:(lia)). lia. }
  unfold pad_sides.
  rewrite for_range_frame.
  2:{ intros y t Hy. unfold pad_row_body.
      rewrite gather_loop_frame
        with (f := fun x => y * pw + x)
             (g := fun x => y * pw + (2 * (Z.quot (pw - width) 2 + width) - 2 - x))
        by (intros x Hx; apply Hout; lia).
      apply gather_loop_frame
        with (f := fun x => y * pw + x)
             (g := fun x => y * pw + (Z.quot (pw - width) 2 * 2 - x)).
      intros x Hx. apply Hout; lia. }
  unfold pad_copied. apply bitblt_frame.
  intros y x Hy Hx.
  replace (Z.quot (ph - height) 2 * pw + Z.quot (pw - width) 2 + y * pw + x)
    with ((Z.quot (ph - height) 2 + y) * pw + (Z.quot (pw - width) 2 + x)) by ring.
  apply Hout; lia.
Qed.

Lemma reflection_padding_frame {T : Type} (dst src : mem T)
    (width height stride bsz bst bps pw ph : Z) :
  0 <= width -> 0 <= height -> 1 <= bsz ->
  calc_pad_size width bsz bst = Some pw ->
  calc_pad_size height bsz bst = Some ph ->
  exists out,
    reflection_padding dst src width height stride bsz bst bps = Some out
    /\ forall c, c < 0 \/ ph * pw <= c -> out c = dst c.
Proof.
  intros Hw Hh Hb Ew Eh.
  pose proof (calc_pad_size_margin width bsz bst pw Hb Hw Ew) as Hpw.
  pose proof (calc_pad_size_margin height bsz bst ph Hb Hh Eh) as Hph.
  assert (G : exists out,
             reflection_padding_impl dst src width height stride bsz bst = Some out
             /\ forall c, c < 0 \/ ph * pw <= c -> out c = dst c).
  { exists (pad_bottom dst src width height stride pw ph).
    split; [apply reflection_padding_impl_steps; assumption|].
    intros c Hc. apply reflection_padding_impl_frame; assumption. }
  unfold reflection_padding.
  destruct (bps =? 1); [exact G|]. destruct (bps =? 2); [exact G|].
  destruct (bps =? 4); [exact G|]. exists dst. split; reflexivity.
Qed.

(** X3: [reflection_padding] on a plane of non-negative size whose
    padded plane has a number of cells that fits an [int] (the padded
    sizes are then computed without overflow) writes only cells [0 ..
    pad_height * pad_width - 1] of [dst]; every other cell keeps its
    value.  For a sample size other than 1, 2 or 4 bytes it writes
    nothing at all. *)
Theorem X3_reflection_padding_writes_inside_buffer {T : Type} (dst src : mem T)
    (width height stride block_size block_step bytes_per_sample
     pad_width pad_height : Z) :
  0 <= width -> 0 <= height -> 1 <= block_size ->
  calc_pad_size width block_size block_step = Some pad_width ->
  calc_pad_size height block_size block_step = Some pad_height ->
  pad_height * pad_width <= INT_MAX ->
  calc_pad_size_int width block_size block_step = Some pad_width
  /\ calc_pad_size_int height block_size block_step = Some pad_height
  /\ exists out,
       reflection_padding dst src width height stride block_size block_step
                          bytes_per_sample = Some out
       /\ (forall c, c < 0 \/ pad_height * pad_width <= c -> out c = dst c)
       /\ (bytes_per_sample <> 1 -> bytes_per_sample <> 2 -> bytes_per_sample <> 4 ->
           out = dst).
Proof.
  intros Hw Hh Hb Ew Eh Hfit.
  pose proof (calc_pad_size_margin width block_size block_step pad_width Hb Hw Ew) as Mw.
  pose proof (calc_pad_size_margin height block_size block_step pad_height Hb Hh Eh) as Mh.
  assert (Bw : pad_width <= INT_MAX) by (unfold INT_MAX in *; nia).
  assert (Bh : pad_height <= INT_MAX) by (unfold INT_MAX in *; nia).
  split; [apply calc_pad_size_int_exact; assumption|].
  split; [apply calc_pad_size_int_exact; assumption|].
  destruct (reflection_padding_frame dst src width height stride block_size block_step
              bytes_per_sample pad_width pad_height Hw Hh Hb Ew Eh) as (out & Eo & Ho).
  exists out.
  split; [exact Eo|]. split; [exact Ho|].
  intros H1 H2 H4. unfold reflection_padding in Eo.
  destruct (Z.eqb_spec bytes_per_sample 1); [contradiction|].
  destruct (Z.eqb_spec bytes_per_sample 2); [contradiction|].
  destruct (Z.eqb_spec bytes_per_sample 4); [contradiction|].
  apply Some_inj in Eo. symmetry. exact Eo.
Qed.

(** X3 for a 2x2 plane of one-byte samples in a buffer that holds
    [1000 + i] in cell [i]. *)
Lemma X3_reflection_padding_writes_inside_buffer_witness :
  calc_pad_size_int 2 16 16 = Some 48
  /\ calc_pad_size_int 2 16 16 = Some 48
  /\ exists out,
       reflection_padding (fun i => 1000 + i) (fun i => i) 2 2 2 16 16 1 = Some out
       /\ (forall c, c < 0 \/ 48 * 48 <= c -> out c = 1000 + c)
       /\ (1 <> 1 -> 1 <> 2 -> 1 <> 4 -> out = (fun i => 1000 + i)).
Proof.
  apply (X3_reflection_padding_writes_inside_buffer (fun i => 1000 + i) (fun i => i)
           2 2 2 16 16 1 48 48);
    try lia; try reflexivity; vm_compute; discriminate.
Defined.

Lemma padded_plane_row {T : Type} (dst src : mem T)
    (width height stride pw ph y x : Z) :
  1 <= width -> 1 <= height -> width + 2 <= pw -> height + 2 <= ph ->
  pw - Z.quot (pw - width) 2 < 2 * width ->
  0 <= y < height -> 0 <= x < pw ->
  pad_bottom dst src width height stride pw ph ((Z.quot (ph - height) 2 + y) * pw + x)
  = src (y * stride + mirror width (x - Z.quot (pw - width) 2)).
Proof.
  intros Hw Hh Hpw Hph Hm Hy Hx.
  set (ox := Z.quot (pw - width) 2) in *.
  set (oy := Z.quot (ph - height) 2) in *.
  assert (Hox : 1 <= ox /\ ox + width < pw /\ ox <= pw - width - ox)
    by (subst ox; repeat split; Z.quot_rem_to_equations; lia).
  rewrite bottom_plane_row by lia.
  unfold mirror.
  destruct (Z.ltb_spec (x - ox) 0) as [L|L].
  - replace x with (ox - (ox - x)) at 1 by ring.
    subst ox oy. rewrite sides_left by lia.
    rewrite sides_interior by lia. f_equal. lia.
  - destruct (Z.ltb_spec (x - ox) width) as [M|M].
    + replace x with (ox + (x - ox)) at 1 by ring.
      subst ox oy. rewrite sides_interior by lia. reflexivity.
    + replace x with (ox + width - 1 + (x - (ox + width - 1))) at 1 by ring.
      subst ox oy. rewrite sides_right by lia.
      match goal with
      | |- pad_sides _ _ _ _ _ _ _ (_ * _ + ?col) = _ =>
          replace col
            with (Z.quot (pw - width) 2 + (2 * (width - 1) - (x - Z.quot (pw - width) 2)))
            by ring
      end.
      rewrite sides_interior by lia. reflexivity.
Qed.

Lemma pad_bottom_mirror {T : Type} (dst src : mem T)
    (width height stride pw ph y x : Z) :
  1 <= width -> 1 <= height -> width + 2 <= pw -> height + 2 <= ph ->
  pw - Z.quot (pw - width) 2 < 2 * width ->
  ph - Z.quot (ph - height) 2 < 2 * height ->
  0 <= y < ph -> 0 <= x < pw ->
  pad_bottom dst src width height stride pw ph (y * pw + x)
  = src (mirror height (y - Z.quot (ph - height) 2) * stride
         + mirror width (x - Z.quot (pw - width) 2)).
Proof.
  intros Hw Hh Hpw Hph Mx My Hy Hx.
  set (oy := Z.quot (ph - height) 2) in *.
  assert (Hoy : 1 <= oy /\ oy + height < ph /\ oy <= ph - height - oy)
    by (subst oy; repeat split; Z.quot_rem_to_equations; lia).
  unfold mirror at 1.
  destruct (Z.ltb_spec (y - oy) 0) as [L|L].
  - replace y with (oy - (oy - y)) at 1 by ring.
    subst oy. rewrite bottom_top_row by lia.
    rewrite padded_plane_row by lia. f_equal. f_equal. lia.
  - destruct (Z.ltb_spec (y - oy) height) as [M|M].
    + replace y with (oy + (y - oy)) at 1 by ring.
      subst oy. rewrite padded_plane_row by lia. reflexivity.
    + replace y with (oy + height - 1 + (y - (oy + height - 1))) at 1 by ring.
      subst oy. rewrite bottom_bottom_row by lia.
      match goal with
      | |- pad_bottom _ _ _ _ _ _ _ (?row * _ + _) = _ =>
          replace row
            with (Z.quot (ph - height) 2
                  + (2 * (height - 1) - (y - Z.quot (ph - height) 2)))
            by ring
      end.
      rewrite padded_plane_row by lia. reflexivity.
Qed.

(** For block size 16 and a step between 1 and 16, a plane of at least
    24 cells is longer than either of its margins. *)
Lemma margins_below_24 (n bst p : Z) :
  24 <= n -> 1 <= bst <= 16 -> calc_pad_size n 16 bst = Some p ->
  n + 2 <= p /\ p - Z.quot (p - n) 2 < 2 * n.
Proof.
  intros Hn Hs E.
  destruct (calc_pad_size_spec n bst ltac:(lia)) as (k & Ek & Hk).
  rewrite E in Ek. apply Some_inj in Ek.
  assert (HM : 8 <= Z.max (16 - bst) bst <= 16) by lia.
  set (M := Z.max (16 - bst) bst) in *. clearbody M. clear E.
  split; [lia|]. Z.quot_rem_to_equations. lia.
Qed.

(** X4: when the plane is longer than its margins along both axes (the
    cells after the plane, [pad - offset - size], are fewer than the
    plane has), [reflection_padding_impl] fills the whole padded buffer
    from the source plane alone: cell [(y, x)] holds the source sample
    at the mirrored row and column, the edge sample not repeated, and
    nothing of what the buffer held before is left. *)
Theorem X4_reflection_padding_is_mirror {T : Type} (dst src : mem T)
    (width height stride block_size block_step pad_width pad_height : Z) :
  1 <= width -> 1 <= height -> 1 <= block_size ->
  calc_pad_size width block_size block_step = Some pad_width ->
  calc_pad_size height block_size block_step = Some pad_height ->
  pad_width - Z.quot (pad_width - width) 2 < 2 * width ->
  pad_height - Z.quot (pad_height - height) 2 < 2 * height ->
  exists out,
    reflection_padding_impl dst src width height stride block_size block_step = Some out
    /\ forall y x, 0 <= y < pad_height -> 0 <= x < pad_width ->
         out (y * pad_width + x)
         = src (mirror height (y - Z.quot (pad_height - height) 2) * stride
                + mirror width (x - Z.quot (pad_width - width) 2)).
Proof.
  intros Hw Hh Hb Ew Eh Mx My.
  pose proof (calc_pad_size_margin width block_size block_step pad_width Hb ltac:(lia) Ew) as Hpw.
  pose proof (calc_pad_size_margin height block_size block_step pad_height Hb ltac:(lia) Eh) as Hph.
  exists (pad_bottom dst src width height stride pad_width pad_height).
  split; [apply reflection_padding_impl_steps; assumption|].
  intros y x Hy Hx. apply pad_bottom_mirror; assumption.
Qed.

(** X4 for a 40x30 plane, block step 8, source sample [i] in cell [i]. *)
Lemma X4_reflection_padding_is_mirror_witness :
  exists out,
    reflection_padding_impl (fun i => 1000 + i) (fun i => i) 40 30 40 16 8 = Some out
    /\ forall y x, 0 <= y < 48 -> 0 <= x < 64 ->
         out (y * 64 + x)
         = mirror 30 (y - Z.quot (48 - 30) 2) * 40 + mirror 40 (x - Z.quot (64 - 40) 2).
Proof.
  apply (X4_reflection_padding_is_mirror (fun i => 1000 + i) (fun i => i)
           40 30 40 16 8 64 48);
    try lia; reflexivity.
Defined.

(** ** The block codec: what each function reads and writes *)

Lemma vec_load_ext_Z (f : Z -> float32) (m1 m2 : mem Z) (p : Z) :
  (forall k, 0 <= k < 16 -> m1 (p + k) = m2 (p + k)) ->
  map (fun k => f (m1 (p + k))) lanes = map (fun k => f (m2 (p + k))) lanes.
Proof.
  intros H. apply map_ext_in. intros k Hk. unfold lanes in Hk.
  apply zseq_In in Hk. rewrite H by lia. reflexivity.
Qed.

Lemma load_block_fill_ext (input1 input2 : Z -> Vec16f) (blk : mem Vec16f)
    (scale : float32) (w : mem Vec16f) (r pad_h pad_w : Z) :
  (forall i j, 0 <= i < 2 * r + 1 -> 0 <= j < 16 ->
     input1 ((i * pad_h + j) * pad_w) = input2 ((i * pad_h + j) * pad_w)) ->
  for_range 0 (2 * r + 1)
    (fun i block =>
       for_range 0 16
         (fun j block =>
            upd block (i * 16 * 2 + j)
                (vec_mul (vec_scale scale (analysis_row w 16 i j))
                         (input1 ((i * pad_h + j) * pad_w))))
         block)
    blk
  = for_range 0 (2 * r + 1)
      (fun i block =>
         for_range 0 16
           (fun j block =>
              upd block (i * 16 * 2 + j)
                  (vec_mul (vec_scale scale (analysis_row w 16 i j))
                           (input2 ((i * pad_h + j) * pad_w))))
           block)
      blk.
Proof.
  intros H. apply for_range_ext. intros i t Hi.
  apply for_range_ext. intros j t' Hj. rewrite H by assumption. reflexivity.
Qed.

Lemma load_block_fill_frame (input : Z -> Vec16f) (blk : mem Vec16f)
    (scale : float32) (w : mem Vec16f) (r pad_h pad_w t : Z) :
  (forall i j, 0 <= i < 2 * r + 1 -> 0 <= j < 16 -> t <> i * 16 * 2 + j) ->
  for_range 0 (2 * r + 1)
    (fun i block =>
       for_range 0 16
         (fun j block =>
            upd block (i * 16 * 2 + j)
                (vec_mul (vec_scale scale (analysis_row w 16 i j))
                         (input ((i * pad_h + j) * pad_w))))
         block)
    blk t
  = blk t.
Proof.
  intros H. apply for_range_frame. intros i b Hi.
  apply for_range_frame. intros j b' Hj. apply upd_other. apply H; assumption.
Qed.

Lemma load_block_reads (blk : mem Vec16f) (src src' : mem Z)
    (radius block_size block_step width height : Z) (window : mem Vec16f)
    (bits_per_sample pad_w pad_h : Z) :
  calc_pad_size width 16 block_step = Some pad_w ->
  calc_pad_size height 16 block_step = Some pad_h ->
  (forall c, In c (load_block_cells radius pad_h pad_w) -> src' c = src c) ->
  load_block blk src' radius block_size block_step width height window bits_per_sample
  = load_block blk src radius block_size block_step width height window bits_per_sample.
Proof.
  intros Ew Eh Hs.
  assert (Hc : forall i j k, 0 <= i < 2 * radius + 1 -> 0 <= j < 16 -> 0 <= k < 16 ->
                 src' ((i * pad_h + j) * pad_w + k) = src ((i * pad_h + j) * pad_w + k)).
  { intros i j k Hi Hj Hk. apply Hs. apply load_block_cells_In.
    exists i, j, k. repeat split; lia. }
  assert (H8 : forall i j, 0 <= i < 2 * radius + 1 -> 0 <= j < 16 ->
                 load_u8 src' ((i * pad_h + j) * pad_w) = load_u8 src ((i * pad_h + j) * pad_w)).
  { intros i j Hi Hj. unfold load_u8.
    apply (vec_load_ext_Z (fun v => F32.of_int (as_uint8 v))). intros k Hk. apply Hc; assumption. }
  assert (H16 : forall i j, 0 <= i < 2 * radius + 1 -> 0 <= j < 16 ->
                 load_u16 src' ((i * pad_h + j) * pad_w) = load_u16 src ((i * pad_h + j) * pad_w)).
  { intros i j Hi Hj. unfold load_u16.
    apply (vec_load_ext_Z (fun v => F32.of_int (as_uint16 v))). intros k Hk. apply Hc; assumption. }
  assert (H32 : forall i j, 0 <= i < 2 * radius + 1 -> 0 <= j < 16 ->
                 load_f32 src' ((i * pad_h + j) * pad_w) = load_f32 src ((i * pad_h + j) * pad_w)).
  { intros i j Hi Hj. unfold load_f32.
    apply (vec_load_ext_Z F32.of_bits). intros k Hk. apply Hc; assumption. }
  unfold load_block. rewrite Ew, Eh. cbn [bind]. f_equal.
  rewrite (load_block_fill_ext (load_u8 src') (load_u8 src) _ _ _ _ _ _ H8).
  destruct (Z.quot (bits_per_sample + 7) 8 =? 1);
    rewrite (load_block_fill_ext (load_u16 src') (load_u16 src) _ _ _ _ _ _ H16);
    destruct (Z.quot (bits_per_sample + 7) 8 =? 2);
    rewrite (load_block_fill_ext (load_f32 src') (load_f32 src) _ _ _ _ _ _ H32);
    reflexivity.
Qed.

(** X5: [load_block] (which ignores its [block_size] argument and works
    on 16x16 blocks) writes rows [i * 32 + j] of the block, [j] below
    16, for the [2 * radius + 1] temporal slices [i]; for a supported
    encoding lane [k] of such a row is the sample at
    [(i * offset_y + j) * offset_x + k] times [scale] times the window
    weight (row [i * 16 + j] of the window); every other row of the
    block is left as it was; and the result depends on the source only
    through the cells of [load_block_cells]. *)
Theorem X5_load_block_footprint (blk : mem Vec16f) (src : mem Z)
    (radius block_size block_step width height : Z) (window : mem Vec16f)
    (bits_per_sample : Z) :
  exists offset_x offset_y b,
    calc_pad_size width 16 block_step = Some offset_x
    /\ calc_pad_size height 16 block_step = Some offset_y
    /\ load_block blk src radius block_size block_step width height window
                  bits_per_sample = Some b
    /\ (8 <= bits_per_sample <= 16 \/ bits_per_sample = 32 ->
        forall i j k, 0 <= i < 2 * radius + 1 -> 0 <= j < 16 -> 0 <= k < 16 ->
          lane (b (i * 16 * 2 + j)) k
          = load_sample bits_per_sample (lane (window (i * 16 + j)) k)
                        (src ((i * offset_y + j) * offset_x + k)))
    /\ (forall t, (forall i j, 0 <= i < 2 * radius + 1 -> 0 <= j < 16 ->
                     t <> i * 16 * 2 + j) ->
          b t = blk t)
    /\ (forall src',
          (forall c, In c (load_block_cells radius offset_y offset_x) -> src' c = src c) ->
          load_block blk src' radius block_size block_step width height window
                     bits_per_sample = Some b).
Proof.
  destruct (calc_pad_size_total width 16 block_step ltac:(lia)) as [pad_w Ew].
  destruct (calc_pad_size_total height 16 block_step ltac:(lia)) as [pad_h Eh].
  destruct (load_block_total blk src radius block_size block_step width height window
              bits_per_sample) as [b Eb].
  exists pad_w, pad_h, b.
  split; [exact Ew|]. split; [exact Eh|]. split; [exact Eb|].
  split.
  { intros Hbits i j k Hi Hj Hk.
    destruct (load_block_lane blk src radius block_size block_step width height window
                bits_per_sample i j k Hbits Hi Hj Hk)
      as (pw' & ph' & b' & Ew' & Eh' & Eb' & Hl).
    rewrite Ew in Ew'. apply Some_inj in Ew'. subst pw'.
    rewrite Eh in Eh'. apply Some_inj in Eh'. subst ph'.
    rewrite Eb in Eb'. apply Some_inj in Eb'. subst b'.
    exact Hl. }
  split.
  - pose proof Eb as E. unfold load_block in E. rewrite Ew, Eh in E. cbn [bind] in E.
    apply Some_inj in E.
    intros t Ht. rewrite <- E.
    destruct (Z.quot (bits_per_sample + 7) 8 =? 4);
      destruct (Z.quot (bits_per_sample + 7) 8 =? 2);
      destruct (Z.quot (bits_per_sample + 7) 8 =? 1);
      repeat (rewrite (load_block_fill_frame _ _ _ _ _ _ _ t Ht)); reflexivity.
  - intros src' Hs. rewrite <- Eb.
    apply (load_block_reads blk src src' radius block_size block_step width height window
             bits_per_sample pad_w pad_h Ew Eh Hs).
Qed.

(** X6: [store_block] adds block lane times window lane, fused, to the
    256 cells [r * pitch + k] of the accumulation buffer ([pitch] being
    the padded width) and leaves every other cell as it was. *)
Theorem X6_store_block_accumulates (dst : mem float32) (blk : mem Vec16f)
    (block_size block_step width height : Z) (window : mem Vec16f) :
  0 <= width ->
  exists pitch m,
    calc_pad_size width 16 block_step = Some pitch
    /\ store_block dst blk block_size block_step width height window = Some m
    /\ (forall r k, 0 <= r < 16 -> 0 <= k < 16 ->
          m (r * pitch + k)
          = F32.fma (lane (blk r) k) (lane (window r) k) (dst (r * pitch + k)))
    /\ (forall c, (forall r k, 0 <= r < 16 -> 0 <= k < 16 -> c <> r * pitch + k) ->
          m c = dst c).
Proof.
  intros Hw.
  destruct (calc_pad_size_total width 16 block_step ltac:(lia)) as [pitch Ep].
  destruct (store_block_total dst blk block_size block_step width height window) as [m Em].
  pose proof (calc_pad_size_at_least_16 width block_step pitch Hw Ep) as H16.
  exists pitch, m. split; [exact Ep|]. split; [exact Em|]. split.
  - intros r k Hr Hk.
    destruct (store_block_cell dst blk block_size block_step width height window r k Hr Hk)
      as (p' & m' & Ep' & Em' & Hc).
    rewrite Ep in Ep'. apply Some_inj in Ep'. subst p'.
    rewrite Em in Em'. apply Some_inj in Em'. subst m'.
    apply Hc. exact H16.
  - intros c Hc.
    destruct (store_block_frame dst blk block_size block_step width height window c)
      as (p' & m' & Ep' & Em' & Hf).
    rewrite Ep in Ep'. apply Some_inj in Ep'. subst p'.
    rewrite Em in Em'. apply Some_inj in Em'. subst m'.
    apply Hf. intros Hin. apply store_block_cells_In in Hin.
    destruct Hin as (r & k & Hr & Hk & ->). exact (Hc r k Hr Hk eq_refl).
Qed.

(** X6 for a zeroed buffer, a block of ones and a window of ones. *)
Lemma X6_store_block_accumulates_witness :
  exists pitch m,
    calc_pad_size 16 16 16 = Some pitch
    /\ store_block (fun _ => F32.zero) (fun _ => map (fun _ => F32.one) lanes)
                   16 16 16 16 (fun _ => map (fun _ => F32.one) lanes) = Some m
    /\ (forall r k, 0 <= r < 16 -> 0 <= k < 16 ->
          m (r * pitch + k)
          = F32.fma (lane (map (fun _ => F32.one) lanes) k)
                    (lane (map (fun _ => F32.one) lanes) k) F32.zero)
    /\ (forall c, (forall r k, 0 <= r < 16 -> 0 <= k < 16 -> c <> r * pitch + k) ->
          m c = F32.zero).
Proof.
  apply (X6_store_block_accumulates (fun _ => F32.zero) (fun _ => map (fun _ => F32.one) lanes)
           16 16 16 16 (fun _ => map (fun _ => F32.one) lanes)).
  lia.
Defined.

(** X7: for a supported encoding and rows that do not overlap
    ([width <= dst_stride]), [store_frame] writes to cell
    [y * dst_stride + x] what [store_sample] makes of accumulator cell
    [y * src_stride + x], for every pixel of the plane, and leaves every
    other cell of the destination (the row padding included) as it
    was. *)
Theorem X7_store_frame_writes_plane (dst : mem Z) (src : mem float32)
    (width height dst_stride src_stride bits_per_sample : Z) :
  8 <= bits_per_sample <= 16 \/ bits_per_sample = 32 ->
  width <= dst_stride ->
  (forall y x, 0 <= y < height -> 0 <= x < width ->
     store_frame dst src width height dst_stride src_stride bits_per_sample
                 (y * dst_stride + x)
     = store_sample bits_per_sample (src (y * src_stride + x)))
  /\ (forall c, (forall y x, 0 <= y < height -> 0 <= x < width -> c <> y * dst_stride + x) ->
        store_frame dst src width height dst_stride src_stride bits_per_sample c = dst c).
Proof.
  intros Hb Hs. split.
  - intros y x Hy Hx. apply store_frame_cell; assumption.
  - intros c Hc. rewrite store_frame_loops by exact Hb.
    destruct (store_loops_cases (fun y x => y * dst_stride + x)
                (fun y x => store_sample bits_per_sample (src (y * src_stride + x)))
                0 height 0 width dst c) as [E|(y & x & Hy & Hx & Ec & _)].
    + exact E.
    + exfalso. exact (Hc y x Hy Hx Ec).
Qed.

(** X7 for a 4x2 plane of 8-bit samples with a stride of 6. *)
Lemma X7_store_frame_writes_plane_witness :
  (forall y x, 0 <= y < 2 -> 0 <= x < 4 ->
     store_frame (fun _ => 7) (fun _ => F32.of_int 100) 4 2 6 4 8 (y * 6 + x)
     = store_sample 8 (F32.of_int 100))
  /\ (forall c, (forall y x, 0 <= y < 2 -> 0 <= x < 4 -> c <> y * 6 + x) ->
        store_frame (fun _ => 7) (fun _ => F32.of_int 100) 4 2 6 4 8 c = 7).
Proof.
  apply (X7_store_frame_writes_plane (fun _ => 7) (fun _ => F32.of_int 100) 4 2 6 4 8); lia.
Defined.

(** ** What [DFTTestCreate] accepts and builds *)

Lemma set_process_nth (process : list bool) (q k : Z) :
  0 <= k < Z.of_nat (List.length process) ->
  nth (Z.to_nat k) (set_process process q) false
  = (k =? q) || nth (Z.to_nat k) process false.
Proof.
  intros Hk. unfold set_process.
  rewrite (nth_map_zseq _ false (List.length process) 0 (Z.to_nat k)) by lia.
  replace (0 + Z.of_nat (Z.to_nat k)) with k by lia.
  destruct (k =? q); reflexivity.
Qed.

(** The loop over [planes] succeeds exactly when every index is in range
    and none was marked before or occurs twice; it then marks them all. *)
Lemma select_planes_spec (np : Z) (planes : list Z) :
  forall process,
    np <= Z.of_nat (List.length process) ->
    (Forall (fun p => 0 <= cast_int p < np) planes
     /\ NoDup (map cast_int planes)
     /\ Forall (fun p => nth (Z.to_nat (cast_int p)) process false = false) planes
     -> exists process', select_planes np planes process = inr process')
    /\ (forall process',
          select_planes np planes process = inr process' ->
          Forall (fun p => 0 <= cast_int p < np) planes
          /\ NoDup (map cast_int planes)
          /\ Forall (fun p => nth (Z.to_nat (cast_int p)) process false = false) planes
          /\ forall k, 0 <= k < Z.of_nat (List.length process) ->
               nth (Z.to_nat k) process' false
               = existsb (fun p => k =? cast_int p) planes
                 || nth (Z.to_nat k) process false).
Proof.
  induction planes as [|p rest IH]; intros process Hlen.
  - split.
    + intros _. exists process. reflexivity.
    + intros process' H. simpl in H. apply inr_inj in H. subst process'.
      repeat split; constructor.
  - pose proof (set_process_length process (cast_int p)) as Hl.
    destruct (IH (set_process process (cast_int p)) ltac:(lia)) as [IH1 IH2].
    split.
    + intros (Hr & Hn & Hf).
      inversion Hr as [|? ? Hp Hr']; subst.
      inversion Hf as [|? ? Hfp Hf']; subst.
      cbn [map] in Hn. inversion Hn as [|? ? Hnotin Hn']; subst.
      cbn [select_planes].
      destruct (Z.ltb_spec (cast_int p) 0); [lia|].
      destruct (Z.leb_spec np (cast_int p)); [lia|]. cbn [orb].
      rewrite Hfp. apply IH1. split; [exact Hr'|]. split; [exact Hn'|].
      rewrite Forall_forall in *. intros q Hq.
      rewrite set_process_nth by (specialize (Hr' q Hq); lia).
      rewrite (Hf' q Hq).
      destruct (Z.eqb_spec (cast_int q) (cast_int p)) as [E|E]; [|reflexivity].
      exfalso. apply Hnotin. rewrite <- E. apply in_map. exact Hq.
    + intros process' H. cbn [select_planes] in H.
      destruct (Z.ltb_spec (cast_int p) 0); [discriminate H|].
      destruct (Z.leb_spec np (cast_int p)); [discriminate H|]. cbn [orb] in H.
      destruct (nth (Z.to_nat (cast_int p)) process false) eqn:Ep; [discriminate H|].
      destruct (IH2 process' H) as (Hr & Hn & Hf & Hk).
      assert (Hf' : forall q, In q rest ->
                cast_int q <> cast_int p
                /\ nth (Z.to_nat (cast_int q)) process false = false).
      { intros q Hq. rewrite Forall_forall in Hf, Hr.
        specialize (Hf q Hq). specialize (Hr q Hq).
        rewrite set_process_nth in Hf by lia.
        apply orb_false_iff in Hf. destruct Hf as [Hf1 Hf2].
        apply Z.eqb_neq in Hf1. split; assumption. }
      split; [constructor; [lia|exact Hr]|].
      split.
      { cbn [map]. constructor; [|exact Hn].
        intros Hin. apply in_map_iff in Hin. destruct Hin as (q & Eq & Hq).
        destruct (Hf' q Hq) as [Hne _]. contradiction. }
      split.
      { constructor; [exact Ep|]. apply Forall_forall. intros q Hq. apply Hf'. exact Hq. }
      intros k Hkr. rewrite Hk by lia. rewrite set_process_nth by exact Hkr.
      cbn [existsb]. destruct (k =? cast_int p); cbn [orb];
        destruct (existsb (fun p0 => k =? cast_int p0) rest); reflexivity.
Qed.

Lemma initial_process_nth (planes : list Z) (k : Z) :
  0 <= k < 3 ->
  nth (Z.to_nat k)
      (map (fun _ : Z => Z.of_nat (List.length planes) <=? 0) (zseq 0 3)) false
  = match planes with [] => true | _ => false end.
Proof.
  intros Hk.
  rewrite (nth_map_zseq _ false 3 0 (Z.to_nat k)) by lia.
  destruct planes; [reflexivity|]. cbn [List.length].
  apply Z.leb_gt. lia.
Qed.

Lemma initial_process_unmarked (np : Z) (planes : list Z) :
  np <= 3 ->
  Forall (fun p => 0 <= cast_int p < np) planes ->
  Forall (fun p =>
            nth (Z.to_nat (cast_int p))
                (map (fun _ : Z => Z.of_nat (List.length planes) <=? 0) (zseq 0 3)) false
            = false)
         planes.
Proof.
  intros Hnp Hr. apply Forall_forall. intros p Hp.
  rewrite Forall_forall in Hr. specialize (Hr p Hp).
  rewrite initial_process_nth by lia.
  destruct planes; [destruct Hp|reflexivity].
Qed.

(** For a clip whose format has at most three planes, [DFTTestCreate]
    gets past its checks exactly when the clip has a constant format
    with positive dimensions, integer samples of at most two bytes or
    float samples of 32 bits, the radius (0 when left out) is between 0
    and 3, the block size (16 when left out) is 16, and the plane
    indices, as [int], are in range and all different. *)
Lemma DFTTestCreate_accepts (a : DFTTestArgs) :
  (forall fmt, format (node_vi (arg_clip a)) = Some fmt -> numPlanes fmt <= 3) ->
  (exists d, DFTTestCreate a = inr d)
  <-> exists fmt,
        format (node_vi (arg_clip a)) = Some fmt
        /\ 0 < vi_width (node_vi (arg_clip a))
        /\ 0 < vi_height (node_vi (arg_clip a))
        /\ match sampleType fmt with
           | stInteger => bytesPerSample fmt <= 2
           | stFloat => bitsPerSample fmt = 32
           end
        /\ 0 <= match arg_radius a with Some r => int64ToIntS r | None => 0 end <= 3
        /\ match arg_block_size a with Some b => int64ToIntS b | None => 16 end = 16
        /\ Forall (fun p => 0 <= cast_int p < numPlanes fmt) (arg_planes a)
        /\ NoDup (map cast_int (arg_planes a)).
Proof.
  intros Hnp. split.
  - intros [d H]. unfold DFTTestCreate in H.
    destruct (format (node_vi (arg_clip a))) as [fmt|] eqn:Ef; [|discriminate H].
    specialize (Hnp fmt eq_refl).
    exists fmt. split; [reflexivity|].
    create_cases H.
    match goal with
    | E : negb (isConstantFormat _) = false |- _ =>
        apply negb_false_iff in E; unfold isConstantFormat in E;
        apply andb_true_iff in E; destruct E as [E _];
        apply andb_true_iff in E; destruct E as [Evh Evw];
        apply Z.ltb_lt in Evh; apply Z.ltb_lt in Evw
    end.
    match goal with
    | E : negb (?b =? 16) = false |- _ =>
        apply negb_false_iff in E; apply Z.eqb_eq in E; rename E into Ebs
    end.
    match goal with
    | E : (_ <? 0) || (3 <? _) = false |- _ =>
        apply orb_false_iff in E; destruct E as [Er1 Er2];
        apply Z.ltb_ge in Er1; apply Z.ltb_ge in Er2
    end.
    match goal with
    | E : select_planes _ _ _ = inr _ |- _ =>
        apply (select_planes_spec (numPlanes fmt) (arg_planes a)) in E;
          [destruct E as (Hr & Hn & _)|rewrite length_map, zseq_length; lia]
    end.
    split; [exact Evw|]. split; [exact Evh|].
    split.
    { destruct (sampleType fmt).
      - match goal with E : (2 <? _) = false |- _ => apply Z.ltb_ge in E; exact E end.
      - match goal with
        | E : negb (_ =? 32) = false |- _ =>
            apply negb_false_iff in E; apply Z.eqb_eq in E; exact E
        end. }
    split; [lia|]. split; [exact Ebs|]. split; assumption.
  - intros (fmt & Ef & Hvw & Hvh & Hfmt & Hrad & Hbs & Hr & Hn).
    specialize (Hnp fmt Ef).
    unfold DFTTestCreate. rewrite Ef.
    assert (Ec : isConstantFormat (node_vi (arg_clip a)) = true).
    { unfold isConstantFormat. rewrite Ef.
      destruct (Z.ltb_spec 0 (vi_height (node_vi (arg_clip a)))); [|lia].
      destruct (Z.ltb_spec 0 (vi_width (node_vi (arg_clip a)))); [|lia]. reflexivity. }
    rewrite Ec. cbn [negb].
    assert (E1 : match sampleType fmt with
                 | stInteger => 2 <? bytesPerSample fmt
                 | stFloat => false
                 end = false).
    { destruct (sampleType fmt); [apply Z.ltb_ge; exact Hfmt|reflexivity]. }
    rewrite E1.
    assert (E2 : match sampleType fmt with
                 | stFloat => negb (bitsPerSample fmt =? 32)
                 | stInteger => false
                 end = false).
    { destruct (sampleType fmt); [reflexivity|]. rewrite Hfmt. reflexivity. }
    rewrite E2.
    destruct (Z.ltb_spec (match arg_radius a with Some r => int64ToIntS r | None => 0 end) 0);
      [lia|].
    destruct (Z.ltb_spec 3 (match arg_radius a with Some r => int64ToIntS r | None => 0 end));
      [lia|].
    cbn [orb]. rewrite Hbs. cbn [Z.eqb Pos.eqb negb].
    destruct (proj1 (select_planes_spec (numPlanes fmt) (arg_planes a)
                       (map (fun _ : Z => Z.of_nat (List.length (arg_planes a)) <=? 0)
                            (zseq 0 3))
                       ltac:(rewrite length_map, zseq_length; lia)))
      as [process' Ep].
    { split; [exact Hr|]. split; [exact Hn|].
      apply (initial_process_unmarked (numPlanes fmt)); assumption. }
    rewrite Ep. eexists. reflexivity.
Qed.

(** What [DFTTestCreate] takes from the radius and [zero_mean]
    arguments. *)
Lemma DFTTestCreate_fields (a : DFTTestArgs) (d : DFTTestData) :
  DFTTestCreate a = inr d ->
  radius d = match arg_radius a with Some r => int64ToIntS r | None => 0 end
  /\ zero_mean d = match arg_zero_mean a with Some z => negb (z =? 0) | None => true end.
Proof.
  unfold DFTTestCreate. intros H.
  destruct (format (node_vi (arg_clip a))) as [fmt|] eqn:Ef; [|discriminate H].
  create_cases H.
  apply inr_inj in H. subst d. split; reflexivity.
Qed.

(** X8: for a clip whose format has at most three planes, a call of
    [DFTTest] ends with a filter exactly when the clip has a constant
    format with positive dimensions, integer samples of at most two
    bytes or float samples of 32 bits, the radius (0 when left out) is
    between 0 and 3, the block size (16 when left out) is 16, the plane
    indices, as [int], are in range and all different, and the arrays
    are as long as the loops that read them: [(2 * radius + 1) * 256]
    window values, [(2 * radius + 1) * 144] sigma values and, unless
    [zero_mean] is given as 0, [(2 * radius + 1) * 288] [window_freq]
    values.  No other argument is looked at. *)
Theorem X8_DFTTestCreate_accepts_iff (a : DFTTestArgs) :
  (forall fmt, format (node_vi (arg_clip a)) = Some fmt -> numPlanes fmt <= 3) ->
  (exists d, DFTTest_call a = DFTTest_filter d)
  <-> exists fmt,
        format (node_vi (arg_clip a)) = Some fmt
        /\ 0 < vi_width (node_vi (arg_clip a))
        /\ 0 < vi_height (node_vi (arg_clip a))
        /\ match sampleType fmt with
           | stInteger => bytesPerSample fmt <= 2
           | stFloat => bitsPerSample fmt = 32
           end
        /\ 0 <= match arg_radius a with Some r => int64ToIntS r | None => 0 end <= 3
        /\ match arg_block_size a with Some b => int64ToIntS b | None => 16 end = 16
        /\ Forall (fun p => 0 <= cast_int p < numPlanes fmt) (arg_planes a)
        /\ NoDup (map cast_int (arg_planes a))
        /\ (2 * match arg_radius a with Some r => int64ToIntS r | None => 0 end + 1) * 256
           <= Z.of_nat (List.length (arg_window a))
        /\ (2 * match arg_radius a with Some r => int64ToIntS r | None => 0 end + 1) * 144
           <= Z.of_nat (List.length (arg_sigma a))
        /\ (match arg_zero_mean a with Some z => z <> 0 | None => True end ->
            (2 * match arg_radius a with Some r => int64ToIntS r | None => 0 end + 1) * 288
            <= Z.of_nat (List.length (arg_window_freq a))).
Proof.
  intros Hnp.
  pose proof (DFTTestCreate_accepts a Hnp) as Hacc.
  set (r := match arg_radius a with Some r => int64ToIntS r | None => 0 end) in *.
  assert (Hread : forall d, DFTTestCreate a = inr d ->
            (arrays_readable a d = true
             <-> ((2 * r + 1) * 256 <= Z.of_nat (List.length (arg_window a))
                  /\ (2 * r + 1) * 144 <= Z.of_nat (List.length (arg_sigma a))
                  /\ (match arg_zero_mean a with Some z => z <> 0 | None => True end ->
                      (2 * r + 1) * 288 <= Z.of_nat (List.length (arg_window_freq a)))))).
  { intros d E.
    destruct (DFTTestCreate_accepted a d E) as (_ & _ & _ & Hbs & _).
    destruct (DFTTestCreate_fields a d E) as [Er Ez]. fold r in Er.
    unfold arrays_readable. rewrite Hbs, Er, Ez.
    change (Z.quot 16 2 + 1) with 9.
    replace (Z.quot ((2 * r + 1) * 16 * 16) 16 * 16) with ((2 * r + 1) * 256).
    2:{ replace ((2 * r + 1) * 16 * 16) with (((2 * r + 1) * 16) * 16) by ring.
        rewrite Z.quot_mul by lia. ring. }
    replace ((2 * r + 1) * 16 * 9) with ((2 * r + 1) * 144) by ring.
    replace ((2 * r + 1) * 144 * 2) with ((2 * r + 1) * 288) by ring.
    rewrite !andb_true_iff, !Z.leb_le.
    destruct (arg_zero_mean a) as [z|].
    - destruct (Z.eqb_spec z 0) as [Hz|Hz]; cbn [negb].
      + split; [intros [[H1 H2] _]|intros (H1 & H2 & _)]; repeat split; try assumption.
        intros Hne. contradiction.
      + rewrite Z.leb_le.
        split; [intros [[H1 H2] H3]|intros (H1 & H2 & H3)]; repeat split;
          try assumption.
        * intros _. exact H3.
        * apply H3. exact Hz.
    - rewrite Z.leb_le.
      split; [intros [[H1 H2] H3]|intros (H1 & H2 & H3)]; repeat split;
        try assumption.
      + intros _. exact H3.
      + apply H3. exact I. }
  unfold DFTTest_call. split.
  - intros [d H].
    destruct (DFTTestCreate a) as [msg|d'] eqn:E; [discriminate H|].
    destruct (arrays_readable a d') eqn:Ea; [|discriminate H].
    destruct (proj1 Hacc (ex_intro _ d' eq_refl))
      as (fmt & H1 & H2 & H3 & H4 & H5 & H6 & H7 & H8).
    apply (Hread d' eq_refl) in Ea. destruct Ea as (L1 & L2 & L3).
    exists fmt. repeat (split; [assumption|]). exact L3.
  - intros (fmt & H1 & H2 & H3 & H4 & H5 & H6 & H7 & H8 & L1 & L2 & L3).
    destruct (proj2 Hacc) as [d E].
    { exists fmt. repeat (split; [assumption|]). exact H8. }
    rewrite E.
    assert (Ea : arrays_readable a d = true).
    { apply (Hread d E). repeat split; assumption. }
    rewrite Ea. exists d. reflexivity.
Qed.

(** X8 for [yuv_args]. *)
Lemma X8_DFTTestCreate_accepts_iff_witness :
  (exists d, DFTTest_call yuv_args = DFTTest_filter d)
  <-> exists fmt,
        format (node_vi (arg_clip yuv_args)) = Some fmt
        /\ 0 < vi_width (node_vi (arg_clip yuv_args))
        /\ 0 < vi_height (node_vi (arg_clip yuv_args))
        /\ match sampleType fmt with
           | stInteger => bytesPerSample fmt <= 2
           | stFloat => bitsPerSample fmt = 32
           end
        /\ 0 <= match arg_radius yuv_args with Some r => int64ToIntS r | None => 0 end <= 3
        /\ match arg_block_size yuv_args with Some b => int64ToIntS b | None => 16 end = 16
        /\ Forall (fun p => 0 <= cast_int p < numPlanes fmt) (arg_planes yuv_args)
        /\ NoDup (map cast_int (arg_planes yuv_args))
        /\ (2 * match arg_radius yuv_args with Some r => int64ToIntS r | None => 0 end + 1)
           * 256
           <= Z.of_nat (List.length (arg_window yuv_args))
        /\ (2 * match arg_radius yuv_args with Some r => int64ToIntS r | None => 0 end + 1)
           * 144
           <= Z.of_nat (List.length (arg_sigma yuv_args))
        /\ (match arg_zero_mean yuv_args with Some z => z <> 0 | None => True end ->
            (2 * match arg_radius yuv_args with Some r => int64ToIntS r | None => 0 end + 1)
            * 288
            <= Z.of_nat (List.length (arg_window_freq yuv_args))).
Proof.
  apply (X8_DFTTestCreate_accepts_iff yuv_args).
  intros fmt E. apply Some_inj in E. subst fmt. simpl. lia.
Defined.

Lemma existsb_cast_In (k : Z) (planes : list Z) :
  existsb (fun p => k =? cast_int p) planes = true <-> In k (map cast_int planes).
Proof.
  rewrite existsb_exists, in_map_iff. split.
  - intros (p & Hp & E). apply Z.eqb_eq in E. exists p. split; [symmetry; exact E|exact Hp].
  - intros (p & E & Hp). exists p. split; [exact Hp|]. apply Z.eqb_eq. symmetry. exact E.
Qed.

(** X9: in an accepted filter the flag of plane [k] is set exactly when
    the [planes] argument was left out or empty, or names plane [k]. *)
Theorem X9_DFTTestCreate_process_flags (a : DFTTestArgs) (d : DFTTestData) (k : Z) :
  (forall fmt, format (node_vi (arg_clip a)) = Some fmt -> numPlanes fmt <= 3) ->
  DFTTestCreate a = inr d ->
  0 <= k < 3 ->
  nth (Z.to_nat k) (process d) false = true
  <-> arg_planes a = [] \/ In k (map cast_int (arg_planes a)).
Proof.
  intros Hnp H Hk. unfold DFTTestCreate in H.
  destruct (format (node_vi (arg_clip a))) as [fmt|] eqn:Ef; [|discriminate H].
  specialize (Hnp fmt eq_refl).
  create_cases H.
  match goal with
  | E : select_planes _ _ _ = inr _ |- _ =>
      apply (select_planes_spec (numPlanes fmt) (arg_planes a)) in E;
        [destruct E as (_ & _ & _ & Hflag)|rewrite length_map, zseq_length; lia]
  end.
  apply inr_inj in H. subst d. cbn [process].
  rewrite Hflag by (rewrite length_map, zseq_length; lia).
  rewrite initial_process_nth by exact Hk.
  rewrite orb_true_iff, existsb_cast_In.
  destruct (arg_planes a) as [|p rest].
  - split; [intros _; left; reflexivity|intros _; right; reflexivity].
  - split.
    + intros [Hin|Hf]; [right; exact Hin|discriminate Hf].
    + intros [Hnil|Hin]; [discriminate Hnil|left; exact Hin].
Qed.

(** X9 for [yuv_args], where only plane 0 is named, and plane 1. *)
Lemma X9_DFTTestCreate_process_flags_witness :
  exists d,
    DFTTestCreate yuv_args = inr d
    /\ (nth (Z.to_nat 1) (process d) false = true
        <-> arg_planes yuv_args = [] \/ In 1 (map cast_int (arg_planes yuv_args))).
Proof.
  destruct (DFTTestCreate yuv_args) as [msg|d] eqn:E; [vm_compute in E; discriminate|].
  exists d. split; [reflexivity|].
  apply (X9_DFTTestCreate_process_flags yuv_args d 1).
  - intros fmt Ef. apply Some_inj in Ef. subst fmt. simpl. lia.
  - exact E.
  - lia.
Defined.

(** ** The per-frame driver: requests, faults and buffers *)

Lemma zseq_NoDup (cnt : nat) : forall lo, NoDup (zseq lo cnt).
Proof.
  induction cnt as [|cnt IH]; intros lo; cbn [zseq]; constructor.
  - intros H. apply zseq_In in H. lia.
  - apply IH.
Qed.

Lemma clamp_requested (n : Z) (d : DFTTestData) (i : Z) :
  0 <= radius d -> 0 <= n < numFrames (node_vi (node d)) ->
  n - radius d <= i <= n + radius d ->
  In (clamp i 0 (numFrames (node_vi (node d)) - 1)) (requested_frames n d).
Proof.
  intros Hr Hn Hi. unfold requested_frames. apply zseq_In. unfold clamp.
  destruct (Z.ltb_spec i 0); [lia|].
  destruct (Z.ltb_spec (numFrames (node_vi (node d)) - 1) i); lia.
Qed.





Lemma for_upM_rel {St : Type} (R : Z -> St -> St -> Prop)
    (body1 body2 : Z -> St -> option St) :
  forall (cnt : nat) (i : Z) (s1 s2 : St),
    R i s1 s2 ->
    (forall k t1 t2, i <= k < i + Z.of_nat cnt -> R k t1 t2 ->
       exists t1' t2', body1 k t1 = Some t1' /\ body2 k t2 = Some t2' /\ R (k + 1) t1' t2') ->
    exists s1' s2',
      for_upM cnt i body1 s1 = Some s1' /\ for_upM cnt i body2 s2 = Some s2'
      /\ R (i + Z.of_nat cnt) s1' s2'.
Proof.
  induction cnt as [|cnt IH]; intros i s1 s2 H0 Hstep.
  - exists s1, s2. cbn [for_upM]. rewrite Z.add_0_r. repeat split. exact H0.
  - destruct (Hstep i s1 s2 ltac:(lia) H0) as (t1 & t2 & E1 & E2 & Ht).
    destruct (IH (i + 1) t1 t2 Ht) as (s1' & s2' & F1 & F2 & Hs).
    { intros k u1 u2 Hk. apply Hstep. lia. }
    exists s1', s2'. cbn [for_upM]. rewrite E1, E2. cbn [bind].
    split; [exact F1|]. split; [exact F2|].
    replace (i + Z.of_nat (S cnt)) with (i + 1 + Z.of_nat cnt) by lia. exact Hs.
Qed.

Lemma for_rangeM_rel {St : Type} (R : St -> St -> Prop)
    (body1 body2 : Z -> St -> option St) (lo hi : Z) (s1 s2 : St) :
  R s1 s2 ->
  (forall k t1 t2, lo <= k < hi -> R t1 t2 ->
     exists t1' t2', body1 k t1 = Some t1' /\ body2 k t2 = Some t2' /\ R t1' t2') ->
  exists s1' s2',
    for_rangeM lo hi body1 s1 = Some s1' /\ for_rangeM lo hi body2 s2 = Some s2'
    /\ R s1' s2'.
Proof.
  intros H0 Hstep. unfold for_rangeM.
  apply (for_upM_rel (fun _ => R)); [exact H0|].
  intros k t1 t2 Hk. apply Hstep. lia.
Qed.

(** A cell of a buffer of [ph] rows of [pw] cells, split into its row
    and its column. *)
Lemma cell_row_col (pw ph c : Z) :
  0 < pw -> 0 <= c < ph * pw ->
  exists y x, 0 <= y < ph /\ 0 <= x < pw /\ c = y * pw + x.
Proof.
  intros Hpw Hc. exists (c / pw), (c mod pw).
  pose proof (Z.mod_pos_bound c pw Hpw).
  pose proof (Z.div_mod c pw ltac:(lia)) as E.
  split; [|split; [assumption|lia]].
  split; [apply Z.div_pos; lia|].
  apply Z.div_lt_upper_bound; lia.
Qed.

Lemma store_frame_reads (dst : mem Z) (src1 src2 : mem float32)
    (width height dst_stride src_stride bits : Z) :
  (forall y x, 0 <= y < height -> 0 <= x < width ->
     src1 (y * src_stride + x) = src2 (y * src_stride + x)) ->
  store_frame dst src1 width height dst_stride src_stride bits
  = store_frame dst src2 width height dst_stride src_stride bits.
Proof.
  intros H. unfold store_frame.
  assert (E1 : forall d0,
             for_range 0 height
               (fun y dstp =>
                  for_range 0 width
                    (fun x dstp =>
                       upd dstp (y * dst_stride + x)
                           (as_uint8 (quantize bits (src1 (y * src_stride + x)))))
                    dstp) d0
             = for_range 0 height
                 (fun y dstp =>
                    for_range 0 width
                      (fun x dstp =>
                         upd dstp (y * dst_stride + x)
                             (as_uint8 (quantize bits (src2 (y * src_stride + x)))))
                      dstp) d0).
  { intros d0. apply for_range_ext. intros y t Hy. apply for_range_ext. intros x t' Hx.
    rewrite H by assumption. reflexivity. }
  assert (E2 : forall d0,
             for_range 0 height
               (fun y dstp =>
                  for_range 0 width
                    (fun x dstp =>
                       upd dstp (y * dst_stride + x)
                           (as_uint16 (quantize bits (src1 (y * src_stride + x)))))
                    dstp) d0
             = for_range 0 height
                 (fun y dstp =>
                    for_range 0 width
                      (fun x dstp =>
                         upd dstp (y * dst_stride + x)
                             (as_uint16 (quantize bits (src2 (y * src_stride + x)))))
                      dstp) d0).
  { intros d0. apply for_range_ext. intros y t Hy. apply for_range_ext. intros x t' Hx.
    rewrite H by assumption. reflexivity. }
  assert (E3 : forall d0,
             for_range 0 height
               (fun y dstp =>
                  for_range 0 width
                    (fun x dstp =>
                       upd dstp (y * dst_stride + x)
                           (F32.to_bits (F32.div (src1 (y * src_stride + x))
                                                 (sample_scale bits))))
                    dstp) d0
             = for_range 0 height
                 (fun y dstp =>
                    for_range 0 width
                      (fun x dstp =>
                         upd dstp (y * dst_stride + x)
                             (F32.to_bits (F32.div (src2 (y * src_stride + x))
                                                   (sample_scale bits))))
                      dstp) d0).
  { intros d0. apply for_range_ext. intros y t Hy. apply for_range_ext. intros x t' Hx.
    rewrite H by assumption. reflexivity. }
  cbv zeta. rewrite E1.
  destruct (Z.quot (bits + 7) 8 =? 1); rewrite E2;
    destruct (Z.quot (bits + 7) 8 =? 2); rewrite E3; reflexivity.
Qed.

Section DriverFootprint.
Variable fused :
  mem Vec16f -> mem Vec16f -> float32 -> float32 -> float32 -> Z -> bool ->
  mem Vec16f -> Z -> mem Vec16f.
Variable block0 : mem Vec16f.

Lemma DFTTestGetFrame_uses_requested (n : Z) (d : DFTTestData)
    (frames : Z -> VSFrameRef) (td : DFTTestThreadData) (alloc : VSFrameRef) :
  0 <= radius d -> 0 <= n < numFrames (node_vi (node d)) ->
  (forall f, In f (requested_frames n d) -> frames f = getFrameFilter (node d) f) ->
  DFTTestGetFrame fused block0 n arAllFramesReady (with_frames d frames) td alloc
  = DFTTestGetFrame fused block0 n arAllFramesReady d td alloc.
Proof.
  intros Hr Hn Hf. unfold DFTTestGetFrame.
  cbn [with_frames node node_vi getFrameFilter radius process].
  destruct (format (node_vi (node d))) as [vi_fmt|]; [|reflexivity].
  assert (E : map (fun i => frames (clamp i 0 (numFrames (node_vi (node d)) - 1)))
                  (zseq (n - radius d) (Z.to_nat (2 * radius d + 1)))
              = map (fun i => getFrameFilter (node d)
                                (clamp i 0 (numFrames (node_vi (node d)) - 1)))
                    (zseq (n - radius d) (Z.to_nat (2 * radius d + 1)))).
  { apply map_ext_in. intros i Hi. apply zseq_In in Hi.
    apply Hf. apply clamp_requested; lia. }
  rewrite E.
  rewrite (Hf (clamp n 0 (numFrames (node_vi (node d)) - 1)))
    by (apply clamp_requested; lia).
  reflexivity.
Qed.

(** X11: for a frame number inside the clip and a radius that is not
    negative, the frames requested on [arInitial] are different frames
    of the clip, none further than the radius from [n], [n] among them;
    and the frame produced on [arAllFramesReady] depends on the clip
    only through these frames: a clip that differs elsewhere gives the
    same result. *)
Theorem X11_DFTTestGetFrame_uses_requested_frames (n : Z) (d : DFTTestData)
    (frames : Z -> VSFrameRef) (thread_data : DFTTestThreadData) (alloc : VSFrameRef) :
  0 <= radius d -> 0 <= n < numFrames (node_vi (node d)) ->
  (forall f, In f (requested_frames n d) ->
     0 <= f < numFrames (node_vi (node d)) /\ n - radius d <= f <= n + radius d)
  /\ NoDup (requested_frames n d)
  /\ In n (requested_frames n d)
  /\ ((forall f, In f (requested_frames n d) -> frames f = getFrameFilter (node d) f) ->
      DFTTestGetFrame fused block0 n arAllFramesReady (with_frames d frames)
                      thread_data alloc
      = DFTTestGetFrame fused block0 n arAllFramesReady d thread_data alloc).
Proof.
  intros Hr Hn. split.
  { intros f Hf. unfold requested_frames in Hf. apply zseq_In in Hf. lia. }
  split; [apply zseq_NoDup|].
  split; [unfold requested_frames; apply zseq_In; lia|].
  intros Hf. apply DFTTestGetFrame_uses_requested; assumption.
Qed.



Lemma filter_blocks_frame (d : DFTTestData) (fmt : VSFormat)
    (width height pw ph : Z) (p : mem Z) (p2 : mem float32) :
  block_size d = 16 -> 1 <= block_step d -> 0 <= width -> 0 <= height ->
  calc_pad_size width 16 (block_step d) = Some pw ->
  calc_pad_size height 16 (block_step d) = Some ph ->
  exists m,
    filter_blocks fused block0 d fmt width height p p2 = Some m
    /\ forall c, c < 0 \/ ph * pw <= c -> m c = p2 c.
Proof.
  intros Hbs Hst Hw Hh Ew Eh.
  destruct (grid_axis_inside width (block_step d) Hw Hst)
    as (pw' & nx & Ew' & Enx & _ & _ & Hx).
  destruct (grid_axis_inside height (block_step d) Hh Hst)
    as (ph' & ny & Eh' & Eny & _ & _ & Hy).
  rewrite Ew in Ew'. apply Some_inj in Ew'. subst pw'.
  rewrite Eh in Eh'. apply Some_inj in Eh'. subst ph'.
  unfold filter_blocks. rewrite Hbs, Eny. cbn [bind].
  apply (for_rangeM_inv (fun t : mem float32 => forall c, c < 0 \/ ph * pw <= c -> t c = p2 c)).
  { intros c _. reflexivity. }
  intros i t Hi Pt. rewrite Enx. cbn [bind].
  apply (for_rangeM_inv (fun t : mem float32 => forall c, c < 0 \/ ph * pw <= c -> t c = p2 c)).
  { exact Pt. }
  intros j t' Hj Pt'. rewrite Ew. cbn [bind].
  match goal with
  | |- context [load_block ?a ?b ?c ?e ?f ?g ?h ?w ?q] =>
      destruct (load_block_total a b c e f g h w q) as [blk ->]
  end.
  cbn [bind].
  match goal with
  | |- context [store_block ?a ?b ?c ?e ?f ?g ?w] =>
      destruct (store_block_total a b c e f g w) as [v Ev]; rewrite Ev
  end.
  cbn [bind]. eexists. split; [reflexivity|].
  intros c Hc. unfold unshift.
  match type of Ev with
  | store_block ?a ?b ?bs ?e ?f ?g ?w = _ =>
      destruct (store_block_frame a b bs e f g w (c - (i * pw + j) * block_step d))
        as (pitch & v' & Ep & Ev' & Hf)
  end.
  rewrite Ew in Ep. apply Some_inj in Ep. subst pitch.
  rewrite Ev in Ev'. apply Some_inj in Ev'. subst v'.
  rewrite Hf.
  - unfold shift.
    replace ((i * pw + j) * block_step d + (c - (i * pw + j) * block_step d)) with c by ring.
    apply Pt'. exact Hc.
  - intros Hin. apply store_block_cells_In in Hin.
    destruct Hin as (r & k & Hr & Hk & Ec).
    destruct (Hy i Hi) as [Hy0 Hy1]. destruct (Hx j Hj) as [Hx0 Hx1].
    pose proof (cell_in_buffer pw ph (i * block_step d + r) (j * block_step d + k)
                  ltac:(lia) ltac:(lia)) as Hin.
    replace ((i * block_step d + r) * pw + (j * block_step d + k))
      with c in Hin by (rewrite (Z.sub_move_r c _ _) in Ec; rewrite Ec; ring).
    lia.
Qed.

(** One processed plane changes the two buffers only inside the region
    that the plane's padded size spans. *)
Lemma filter_plane_frame (d : DFTTestData) (vi_fmt : VSFormat)
    (src_frames : list VSFrameRef) (center : VSFrameRef) (plane : Z)
    (td : DFTTestThreadData) (f : VSFrameRef) (pw ph : Z) :
  block_size d = 16 -> 1 <= block_step d -> 0 <= radius d ->
  bytesPerSample vi_fmt <> 0 ->
  0 <= plane_width (get_plane center plane) ->
  0 <= plane_height (get_plane center plane) ->
  calc_pad_size (plane_width (get_plane center plane)) 16 (block_step d) = Some pw ->
  calc_pad_size (plane_height (get_plane center plane)) 16 (block_step d) = Some ph ->
  exists td' data,
    filter_plane fused block0 d vi_fmt src_frames center plane (td, f)
    = Some (td', set_plane_data f plane data)
    /\ (forall c, c < 0 \/ (2 * radius d + 1) * ph * pw <= c -> padded td' c = padded td c)
    /\ (forall c, c < 0 \/ ph * pw <= c -> padded2 td' c = padded2 td c).
Proof.
  intros Hbs Hst Hr Hb Hw Hh Ew Eh.
  assert (Hpw : 16 <= pw) by (apply (calc_pad_size_at_least_16 _ _ _ Hw Ew)).
  assert (Hph : 16 <= ph) by (apply (calc_pad_size_at_least_16 _ _ _ Hh Eh)).
  unfold filter_plane.
  unfold c_div. destruct (Z.eqb_spec (bytesPerSample vi_fmt) 0); [contradiction|].
  cbn [bind]. rewrite Hbs, Eh, Ew. cbn [bind].
  match goal with
  | |- context [for_rangeM ?lo ?hi ?body ?s0] =>
      destruct (for_rangeM_inv
                  (fun t : mem Z =>
                     forall c, c < 0 \/ (2 * radius d + 1) * ph * pw <= c ->
                               t c = padded td c)
                  body lo hi s0) as (pd & -> & Hpd)
  end.
  { intros c _. reflexivity. }
  { intros i t Hi Pt.
    match goal with
    | |- context [reflection_padding ?a ?b ?w ?h ?s ?bs ?bt ?bps] =>
        destruct (reflection_padding_frame a b w h s bs bt bps pw ph Hw Hh ltac:(lia) Ew Eh)
          as (v & -> & Hv)
    end.
    cbn [bind]. eexists. split; [reflexivity|].
    intros c Hc. unfold unshift. rewrite Hv.
    - unfold shift.
      replace (i * (ph * pw) + (c - i * (ph * pw))) with c by ring.
      apply Pt. exact Hc.
    - assert (Hq : 0 <= ph * pw) by nia.
      assert (0 <= i * (ph * pw)) by (apply Z.mul_nonneg_nonneg; lia).
      assert ((i + 1) * (ph * pw) <= (2 * radius d + 1) * (ph * pw))
        by (apply Z.mul_le_mono_nonneg_r; lia).
      lia. }
  cbn [bind].
  match goal with
  | |- context [filter_blocks _ _ ?a ?b ?w ?h ?p ?p2] =>
      destruct (filter_blocks_frame a b w h pw ph p p2 Hbs Hst Hw Hh Ew Eh)
        as (m & -> & Hm)
  end.
  cbn [bind]. eexists. eexists. split; [reflexivity|]. cbn [padded padded2].
  split; [exact Hpd|].
  intros c Hc. rewrite Hm by exact Hc. unfold memset.
  destruct (Z.leb_spec 0 c); destruct (Z.ltb_spec c (ph * pw)); cbn [andb];
    try reflexivity.
  lia.
Qed.

Lemma DFTTestGetFrame_buffers (n : Z) (d : DFTTestData) (vi_fmt : VSFormat)
    (thread_data : DFTTestThreadData) (alloc : VSFrameRef) (PW PH : Z) :
  format (node_vi (node d)) = Some vi_fmt ->
  block_size d = 16 -> 1 <= block_step d -> 0 <= radius d ->
  bytesPerSample vi_fmt <> 0 ->
  calc_pad_size (vi_width (node_vi (node d))) 16 (block_step d) = Some PW ->
  calc_pad_size (vi_height (node_vi (node d))) 16 (block_step d) = Some PH ->
  (forall p, 0 <= p < numPlanes (frame_format (center_frame d n)) ->
     0 <= plane_width (get_plane (center_frame d n) p) <= vi_width (node_vi (node d))
     /\ 0 <= plane_height (get_plane (center_frame d n) p) <= vi_height (node_vi (node d))) ->
  exists out thread_data',
    DFTTestGetFrame fused block0 n arAllFramesReady d thread_data alloc
    = Some (Some out, thread_data')
    /\ (forall c, c < 0 \/ (2 * radius d + 1) * PH * PW <= c ->
          padded thread_data' c = padded thread_data c)
    /\ (forall c, c < 0 \/ PH * PW <= c ->
          padded2 thread_data' c = padded2 thread_data c).
Proof.
  intros Ef Hbs Hst Hr Hb EW EH Hplanes. unfold DFTTestGetFrame. rewrite Ef.
  rewrite center_of_src_frames.
  set (center := center_frame d n) in *.
  match goal with
  | |- context [for_rangeM ?lo ?hi ?body ?s0] =>
      destruct (for_rangeM_inv
                  (fun st : DFTTestThreadData * VSFrameRef =>
                     (forall c, c < 0 \/ (2 * radius d + 1) * PH * PW <= c ->
                                padded (fst st) c = padded thread_data c)
                     /\ (forall c, c < 0 \/ PH * PW <= c ->
                                   padded2 (fst st) c = padded2 thread_data c))
                  body lo hi s0) as (st & -> & Hst')
  end.
  - cbn [fst]. split; intros c _; reflexivity.
  - intros k [td f] Hk [H1 H2]. cbn [fst] in *.
    destruct (nth (Z.to_nat k) (process d) false) eqn:Ek; cbn [negb].
    + destruct (Hplanes k Hk) as [Hw Hh].
      destruct (calc_pad_size_total (plane_width (get_plane center k)) 16 (block_step d)
                  ltac:(lia)) as [pw Ew].
      destruct (calc_pad_size_total (plane_height (get_plane center k)) 16 (block_step d)
                  ltac:(lia)) as [ph Eh].
      pose proof (calc_pad_size_mono _ _ _ _ _ Hw Ew EW) as Mw.
      pose proof (calc_pad_size_mono _ _ _ _ _ Hh Eh EH) as Mh.
      destruct (filter_plane_frame d vi_fmt
                  (map (fun i => getFrameFilter (node d)
                                   (clamp i 0 (numFrames (node_vi (node d)) - 1)))
                       (zseq (n - radius d) (Z.to_nat (2 * radius d + 1))))
                  center k td f pw ph Hbs Hst Hr Hb ltac:(lia) ltac:(lia) Ew Eh)
        as (td' & data & -> & F1 & F2).
      eexists. split; [reflexivity|]. cbn [fst].
      assert (Hle : ph * pw <= PH * PW) by (apply Z.mul_le_mono_nonneg; lia).
      split.
      * intros c Hc. rewrite F1; [apply H1; exact Hc|].
        assert ((2 * radius d + 1) * (ph * pw) <= (2 * radius d + 1) * (PH * PW))
          by (apply Z.mul_le_mono_nonneg_l; lia).
        lia.
      * intros c Hc. rewrite F2; [apply H2; exact Hc|]. lia.
    + eexists. split; [reflexivity|]. cbn [fst]. split; assumption.
  - cbn [bind]. exists (snd st), (fst st). split; [reflexivity|exact Hst'].
Qed.

(** X13: with block size 16, a block step of at least 1, planes that
    are no larger than the clip's frame and a sample buffer whose size
    in bytes fits an [int], the two allocation sizes are computed
    without overflow and [DFTTestGetFrame] changes the two per-thread
    buffers only inside them: a cell of [padded] whose byte offset is at
    or past [padded_size], a cell of [padded2] at or past
    [padded2_size], and any cell before the start of either keeps its
    value. *)
Theorem X13_DFTTestGetFrame_writes_inside_buffers (n : Z) (d : DFTTestData)
    (vi_fmt : VSFormat) (thread_data : DFTTestThreadData) (alloc : VSFrameRef) :
  format (node_vi (node d)) = Some vi_fmt ->
  block_size d = 16 -> 1 <= block_step d ->
  sizes_fit_int d vi_fmt (vi_width (node_vi (node d))) (vi_height (node_vi (node d)))
  = true ->
  (forall p, 0 <= p < numPlanes (frame_format (center_frame d n)) ->
     0 <= plane_width (get_plane (center_frame d n) p) <= vi_width (node_vi (node d))
     /\ 0 <= plane_height (get_plane (center_frame d n) p) <= vi_height (node_vi (node d))) ->
  exists size size2 out thread_data',
    padded_size d (node_vi (node d)) vi_fmt = Some size
    /\ padded_size_int d (node_vi (node d)) vi_fmt = Some size
    /\ size <= INT_MAX
    /\ padded2_size d (node_vi (node d)) = Some size2
    /\ padded2_size_int d (node_vi (node d)) = Some size2
    /\ DFTTestGetFrame fused block0 n arAllFramesReady d thread_data alloc
       = Some (Some out, thread_data')
    /\ (forall c, c < 0 \/ size <= c * bytesPerSample vi_fmt ->
          padded thread_data' c = padded thread_data c)
    /\ (forall c, c < 0 \/ size2 <= c * 4 ->
          padded2 thread_data' c = padded2 thread_data c).
Proof.
  intros Ef Hbs Hst Hfit Hplanes.
  destruct (padded_size_int_exact d (node_vi (node d)) vi_fmt Hbs Hfit)
    as (size & size2 & Es & Esi & Es2 & Es2i & Hsize).
  apply sizes_fit_int_spec in Hfit.
  destruct Hfit as (PH & PW & EH & EW & _ & _ & Hr & Hb & _).
  rewrite Hbs in EH, EW.
  destruct (DFTTestGetFrame_buffers n d vi_fmt thread_data alloc PW PH
              Ef Hbs Hst Hr ltac:(lia) EW EH Hplanes) as (out & td' & E & H1 & H2).
  assert (Esz : size = (2 * radius d + 1) * PH * PW * bytesPerSample vi_fmt).
  { unfold padded_size in Es. rewrite Hbs, EH, EW in Es. cbn [bind] in Es.
    apply Some_inj in Es. symmetry. exact Es. }
  assert (Esz2 : size2 = PH * PW * 4).
  { unfold padded2_size in Es2. rewrite Hbs, EH, EW in Es2. cbn [bind] in Es2.
    apply Some_inj in Es2. symmetry. exact Es2. }
  exists size, size2, out, td'.
  split; [exact Es|]. split; [exact Esi|]. split; [lia|].
  split; [exact Es2|]. split; [exact Es2i|].
  subst size size2.
  split; [exact E|]. split.
  - intros c Hc. apply H1. destruct Hc as [Hc|Hc]; [left; exact Hc|right].
    apply (Z.mul_le_mono_pos_r _ _ (bytesPerSample vi_fmt)); lia.
  - intros c Hc. apply H2. lia.
Qed.




(** After the padding loop the first [2 * radius + 1] slices of the
    buffer no longer depend on what the buffer held. *)
Lemma padding_loop_rel (src_of : Z -> mem Z) (width height stride bst bps pw ph cnt : Z)
    (t1 t2 : mem Z) :
  24 <= width -> 24 <= height -> 1 <= bst <= 16 ->
  bps = 1 \/ bps = 2 \/ bps = 4 ->
  calc_pad_size width 16 bst = Some pw ->
  calc_pad_size height 16 bst = Some ph ->
  exists p1 p2,
    for_rangeM 0 cnt
      (fun i padded =>
         view <- reflection_padding (shift padded (i * (ph * pw))) (src_of i)
                   width height stride 16 bst bps ;;
         Some (unshift view (i * (ph * pw))))
      t1 = Some p1
    /\ for_rangeM 0 cnt
         (fun i padded =>
            view <- reflection_padding (shift padded (i * (ph * pw))) (src_of i)
                      width height stride 16 bst bps ;;
            Some (unshift view (i * (ph * pw))))
         t2 = Some p2
    /\ forall c, 0 <= c < Z.max cnt 0 * (ph * pw) -> p1 c = p2 c.
Proof.
  intros Hw Hh Hs Hbps Ew Eh.
  destruct (margins_below_24 width bst pw Hw Hs Ew) as [Hpw Mx].
  destruct (margins_below_24 height bst ph Hh Hs Eh) as [Hph My].
  assert (HS : 0 < ph * pw) by nia.
  unfold for_rangeM.
  destruct (for_upM_rel
              (fun (k : Z) (u1 u2 : mem Z) => forall c, 0 <= c < k * (ph * pw) -> u1 c = u2 c)
              (fun i padded =>
                 view <- reflection_padding (shift padded (i * (ph * pw))) (src_of i)
                           width height stride 16 bst bps ;;
                 Some (unshift view (i * (ph * pw))))
              (fun i padded =>
                 view <- reflection_padding (shift padded (i * (ph * pw))) (src_of i)
                           width height stride 16 bst bps ;;
                 Some (unshift view (i * (ph * pw))))
              (Z.to_nat (cnt - 0)) 0 t1 t2) as (p1 & p2 & E1 & E2 & HR).
  - intros c Hc. lia.
  - intros k u1 u2 Hk HRk.
    assert (Eimpl : forall u : mem Z,
              reflection_padding (shift u (k * (ph * pw))) (src_of k)
                                 width height stride 16 bst bps
              = Some (pad_bottom (shift u (k * (ph * pw))) (src_of k)
                                 width height stride pw ph)).
    { intros u. unfold reflection_padding.
      destruct Hbps as [ -> | [ -> | -> ] ]; cbn [Z.eqb Pos.eqb];
        apply reflection_padding_impl_steps; assumption. }
    rewrite !Eimpl. cbn [bind]. eexists. eexists.
    split; [reflexivity|]. split; [reflexivity|].
    intros c Hc. unfold unshift.
    destruct (Z_lt_le_dec c (k * (ph * pw))) as [Hlt|Hge].
    + rewrite !reflection_padding_impl_frame by lia.
      unfold shift. replace (k * (ph * pw) + (c - k * (ph * pw))) with c by ring.
      apply HRk. lia.
    + destruct (cell_row_col pw ph (c - k * (ph * pw)) ltac:(lia) ltac:(lia))
        as (y & x & Hy & Hx & ->).
      rewrite !pad_bottom_mirror by lia. reflexivity.
  - exists p1, p2. split; [exact E1|]. split; [exact E2|].
    intros c Hc. apply HR.
    replace (0 + Z.of_nat (Z.to_nat (cnt - 0))) with (Z.max cnt 0) by lia. exact Hc.
Qed.

Lemma filter_blocks_rel (d : DFTTestData) (fmt : VSFormat)
    (width height pw ph : Z) (p1 p2 : mem Z) (q1 q2 : mem float32) :
  block_size d = 16 -> 1 <= block_step d -> 0 <= radius d ->
  0 <= width -> 0 <= height ->
  calc_pad_size width 16 (block_step d) = Some pw ->
  calc_pad_size height 16 (block_step d) = Some ph ->
  (forall c, 0 <= c < (2 * radius d + 1) * (ph * pw) -> p1 c = p2 c) ->
  (forall c, 0 <= c < ph * pw -> q1 c = q2 c) ->
  exists m1 m2,
    filter_blocks fused block0 d fmt width height p1 q1 = Some m1
    /\ filter_blocks fused block0 d fmt width height p2 q2 = Some m2
    /\ forall c, 0 <= c < ph * pw -> m1 c = m2 c.
Proof.
  intros Hbs Hst Hr Hw Hh Ew Eh Hp Hq.
  destruct (grid_axis_inside width (block_step d) Hw Hst)
    as (pw' & nx & Ew' & Enx & _ & Hpw & Hx).
  destruct (grid_axis_inside height (block_step d) Hh Hst)
    as (ph' & ny & Eh' & Eny & _ & Hph & Hy).
  rewrite Ew in Ew'. apply Some_inj in Ew'. subst pw'.
  rewrite Eh in Eh'. apply Some_inj in Eh'. subst ph'.
  unfold filter_blocks. rewrite Hbs, Eny. cbn [bind].
  apply (for_rangeM_rel (fun u1 u2 : mem float32 => forall c, 0 <= c < ph * pw -> u1 c = u2 c));
    [exact Hq|].
  intros i u1 u2 Hi Hu. rewrite Enx. cbn [bind].
  apply (for_rangeM_rel (fun u1 u2 : mem float32 => forall c, 0 <= c < ph * pw -> u1 c = u2 c));
    [exact Hu|].
  intros j v1 v2 Hj Hv. rewrite Ew. cbn [bind].
  destruct (Hy i Hi) as [Hy0 Hy1]. destruct (Hx j Hj) as [Hx0 Hx1].
  rewrite (load_block_reads block0 (shift p2 ((i * pw + j) * block_step d))
             (shift p1 ((i * pw + j) * block_step d)) (radius d) 16 (block_step d)
             width height (analysis_window d) (bitsPerSample fmt) pw ph Ew Eh).
  2:{ intros c Hc. apply load_block_cells_In in Hc.
      destruct Hc as (t & r & k & Ht & Hr' & Hk & ->).
      unfold shift. apply Hp.
      replace ((i * pw + j) * block_step d + ((t * ph + r) * pw + k))
        with ((t * ph + (i * block_step d + r)) * pw + (j * block_step d + k)) by ring.
      replace ((2 * radius d + 1) * (ph * pw)) with (((2 * radius d + 1) * ph) * pw) by ring.
      apply cell_in_buffer; [|lia].
      split; [nia|].
      assert ((t + 1) * ph <= (2 * radius d + 1) * ph)
        by (apply Z.mul_le_mono_nonneg_r; lia).
      lia. }
  match goal with
  | |- context [load_block ?a ?b ?c ?e ?f ?g ?h ?w ?q] =>
      destruct (load_block_total a b c e f g h w q) as [blk ->]
  end.
  cbn [bind].
  set (B := shift (fused blk (arr vec_zero (sigma d)) (sigma2 d) (pmin d) (pmax d)
                         (filter_type d) (zero_mean d) (arr vec_zero (window_freq d))
                         (radius d))
                  (radius d * 16 * 2)).
  set (base := (i * pw + j) * block_step d).
  destruct (store_block_total (shift v1 base) B 16 (block_step d) width height
              (synthesis_window d)) as [w1 E1].
  destruct (store_block_total (shift v2 base) B 16 (block_step d) width height
              (synthesis_window d)) as [w2 E2].
  rewrite E1, E2. cbn [bind]. eexists. eexists.
  split; [reflexivity|]. split; [reflexivity|].
  intros c Hc. unfold unshift.
  destruct (in_dec Z.eq_dec (c - base) (store_block_cells pw)) as [Hin|Hout].
  - apply store_block_cells_In in Hin. destruct Hin as (r & k & Hr' & Hk & Ec).
    destruct (store_block_cell (shift v1 base) B 16 (block_step d) width height
                (synthesis_window d) r k Hr' Hk) as (pitch1 & w1' & Ep1 & Ew1 & Hc1).
    destruct (store_block_cell (shift v2 base) B 16 (block_step d) width height
                (synthesis_window d) r k Hr' Hk) as (pitch2 & w2' & Ep2 & Ew2 & Hc2).
    rewrite Ew in Ep1, Ep2. apply Some_inj in Ep1. apply Some_inj in Ep2. subst pitch1 pitch2.
    rewrite E1 in Ew1. apply Some_inj in Ew1. subst w1'.
    rewrite E2 in Ew2. apply Some_inj in Ew2. subst w2'.
    rewrite Ec, Hc1, Hc2 by exact Hpw. unfold shift.
    rewrite <- Ec. replace (base + (c - base)) with c by ring.
    rewrite (Hv c Hc). reflexivity.
  - destruct (store_block_frame (shift v1 base) B 16 (block_step d) width height
                (synthesis_window d) (c - base)) as (pitch1 & w1' & Ep1 & Ew1 & Hf1).
    destruct (store_block_frame (shift v2 base) B 16 (block_step d) width height
                (synthesis_window d) (c - base)) as (pitch2 & w2' & Ep2 & Ew2 & Hf2).
    rewrite Ew in Ep1, Ep2. apply Some_inj in Ep1. apply Some_inj in Ep2. subst pitch1 pitch2.
    rewrite E1 in Ew1. apply Some_inj in Ew1. subst w1'.
    rewrite E2 in Ew2. apply Some_inj in Ew2. subst w2'.
    rewrite Hf1, Hf2 by exact Hout. unfold shift.
    replace (base + (c - base)) with c by ring. apply Hv. exact Hc.
Qed.

Lemma filter_plane_rel (d : DFTTestData) (vi_fmt : VSFormat)
    (src_frames : list VSFrameRef) (center : VSFrameRef) (plane : Z)
    (td1 td2 : DFTTestThreadData) (f : VSFrameRef) :
  block_size d = 16 -> 1 <= block_step d <= 16 -> 0 <= radius d ->
  bytesPerSample vi_fmt = 1 \/ bytesPerSample vi_fmt = 2 \/ bytesPerSample vi_fmt = 4 ->
  24 <= plane_width (get_plane center plane) ->
  24 <= plane_height (get_plane center plane) ->
  exists td1' td2' data,
    filter_plane fused block0 d vi_fmt src_frames center plane (td1, f)
    = Some (td1', set_plane_data f plane data)
    /\ filter_plane fused block0 d vi_fmt src_frames center plane (td2, f)
       = Some (td2', set_plane_data f plane data).
Proof.
  intros Hbs Hst Hr Hbps Hw Hh.
  set (width := plane_width (get_plane center plane)) in *.
  set (height := plane_height (get_plane center plane)) in *.
  destruct (calc_pad_size_total width 16 (block_step d) ltac:(lia)) as [pw Ew].
  destruct (calc_pad_size_total height 16 (block_step d) ltac:(lia)) as [ph Eh].
  destruct (margins_below_24 width (block_step d) pw Hw Hst Ew) as [Hpw _].
  destruct (margins_below_24 height (block_step d) ph Hh Hst Eh) as [Hph _].
  unfold filter_plane. fold width height.
  unfold c_div. destruct (Z.eqb_spec (bytesPerSample vi_fmt) 0); [lia|].
  cbn [bind]. rewrite Hbs, Eh, Ew. cbn [bind]. cbv zeta.
  destruct (padding_loop_rel
              (fun i => plane_data (get_plane (nth (Z.to_nat i) src_frames center) plane))
              width height
              (Z.quot (plane_stride (get_plane center plane)) (bytesPerSample vi_fmt))
              (block_step d) (bytesPerSample vi_fmt) pw ph (2 * radius d + 1)
              (padded td1) (padded td2) Hw Hh Hst Hbps Ew Eh)
    as (p1 & p2 & E1 & E2 & HP).
  cbv beta in E1, E2. rewrite E1, E2. cbn [bind].
  rewrite Z.max_l in HP by lia.
  destruct (filter_blocks_rel d vi_fmt width height pw ph p1 p2
              (memset (padded2 td1) F32.zero (ph * pw))
              (memset (padded2 td2) F32.zero (ph * pw))
              Hbs ltac:(lia) Hr ltac:(lia) ltac:(lia) Ew Eh HP)
    as (m1 & m2 & F1 & F2 & HM).
  { intros c Hc. unfold memset.
    destruct (Z.leb_spec 0 c); [|lia]. destruct (Z.ltb_spec c (ph * pw)); [|lia].
    reflexivity. }
  rewrite F1, F2. cbn [bind].
  eexists. eexists. eexists. split; [reflexivity|].
  f_equal. f_equal. f_equal.
  apply store_frame_reads. intros y x Hy Hx. unfold shift. symmetry. apply HM.
  assert (Hox : 0 <= Z.quot (pw - width) 2 /\ Z.quot (pw - width) 2 + width <= pw)
    by (split; Z.quot_rem_to_equations; lia).
  assert (Hoy : 0 <= Z.quot (ph - height) 2 /\ Z.quot (ph - height) 2 + height <= ph)
    by (split; Z.quot_rem_to_equations; lia).
  replace (Z.quot (ph - height) 2 * pw + Z.quot (pw - width) 2 + (y * pw + x))
    with ((Z.quot (ph - height) 2 + y) * pw + (Z.quot (pw - width) 2 + x)) by ring.
  apply cell_in_buffer; lia.
Qed.

(** X15: with block size 16, a block step between 1 and 16, samples of
    1, 2 or 4 bytes and processed planes of at least 24x24 samples, the
    frame that [DFTTestGetFrame] returns does not depend on what the
    per-thread buffers held before the call (for the same contents of
    the local [block] array, of which [load_block] fills only half the
    rows). *)
Theorem X15_DFTTestGetFrame_ignores_stale_buffers (n : Z) (d : DFTTestData)
    (vi_fmt : VSFormat) (td1 td2 : DFTTestThreadData) (alloc : VSFrameRef) :
  format (node_vi (node d)) = Some vi_fmt ->
  block_size d = 16 -> 1 <= block_step d <= 16 -> 0 <= radius d ->
  bytesPerSample vi_fmt = 1 \/ bytesPerSample vi_fmt = 2 \/ bytesPerSample vi_fmt = 4 ->
  (forall p, 0 <= p < numPlanes (frame_format (center_frame d n)) ->
     nth (Z.to_nat p) (process d) false = true ->
     24 <= plane_width (get_plane (center_frame d n) p)
     /\ 24 <= plane_height (get_plane (center_frame d n) p)) ->
  exists out td1' td2',
    DFTTestGetFrame fused block0 n arAllFramesReady d td1 alloc = Some (Some out, td1')
    /\ DFTTestGetFrame fused block0 n arAllFramesReady d td2 alloc = Some (Some out, td2').
Proof.
  intros Ef Hbs Hst Hr Hbps Hplanes. unfold DFTTestGetFrame. rewrite Ef.
  rewrite center_of_src_frames.
  set (center := center_frame d n) in *.
  match goal with
  | |- context [for_rangeM ?lo ?hi ?body (td1, ?f0)] =>
      destruct (for_rangeM_rel
                  (fun st1 st2 : DFTTestThreadData * VSFrameRef => snd st1 = snd st2)
                  body body lo hi (td1, f0) (td2, f0)) as (s1 & s2 & E1 & E2 & HR)
  end.
  - reflexivity.
  - intros k [u1 f1] [u2 f2] Hk E. cbn [snd] in E. subst f2.
    destruct (nth (Z.to_nat k) (process d) false) eqn:Ek; cbn [negb].
    + destruct (Hplanes k Hk Ek) as [Hw Hh].
      destruct (filter_plane_rel d vi_fmt
                  (map (fun i => getFrameFilter (node d)
                                   (clamp i 0 (numFrames (node_vi (node d)) - 1)))
                       (zseq (n - radius d) (Z.to_nat (2 * radius d + 1))))
                  center k u1 u2 f1 Hbs Hst Hr Hbps Hw Hh)
        as (u1' & u2' & data & -> & ->).
      eexists. eexists. split; [reflexivity|]. split; reflexivity.
    + eexists. eexists. split; [reflexivity|]. split; reflexivity.
  - rewrite E1, E2. cbn [bind]. exists (snd s1), (fst s1), (fst s2).
    split; [reflexivity|]. rewrite HR. reflexivity.
Qed.

End DriverFootprint.

(** X11 for the middle frame of [yuv_clip] and a clip that only has
    that frame right. *)
Lemma X11_DFTTestGetFrame_uses_requested_frames_witness :
  exists d,
    DFTTestCreate yuv_args = inr d
    /\ (forall f, In f (requested_frames 1 d) ->
          0 <= f < numFrames (node_vi (node d)) /\ 1 - radius d <= f <= 1 + radius d)
    /\ NoDup (requested_frames 1 d)
    /\ In 1 (requested_frames 1 d)
    /\ ((forall f, In f (requested_frames 1 d) ->
           (fun k => if k =? 1 then getFrameFilter yuv_clip 1 else blank_frame yuv444p8) f
           = getFrameFilter (node d) f) ->
        DFTTestGetFrame fused_identity (fun _ => vec_zero) 1 arAllFramesReady
          (with_frames d (fun k => if k =? 1 then getFrameFilter yuv_clip 1
                                   else blank_frame yuv444p8))
          blank_thread_data (blank_frame yuv444p8)
        = DFTTestGetFrame fused_identity (fun _ => vec_zero) 1 arAllFramesReady d
            blank_thread_data (blank_frame yuv444p8)).
Proof.
  destruct (DFTTestCreate yuv_args) as [msg|d] eqn:E; [vm_compute in E; discriminate|].
  destruct (DFTTestCreate_accepted _ _ E) as (En & _ & Hr & _ & _ & _ & _).
  exists d. split; [reflexivity|].
  apply (X11_DFTTestGetFrame_uses_requested_frames fused_identity (fun _ => vec_zero) 1 d).
  - lia.
  - rewrite En. cbn. lia.
Defined.


(** X13 for [yuv_args]: three 16x16 planes in a 16x16 clip. *)
Lemma X13_DFTTestGetFrame_writes_inside_buffers_witness :
  exists d size size2 out thread_data',
    DFTTestCreate yuv_args = inr d
    /\ padded_size d (node_vi (node d)) yuv444p8 = Some size
    /\ padded_size_int d (node_vi (node d)) yuv444p8 = Some size
    /\ size <= INT_MAX
    /\ padded2_size d (node_vi (node d)) = Some size2
    /\ padded2_size_int d (node_vi (node d)) = Some size2
    /\ DFTTestGetFrame fused_identity (fun _ => vec_zero) 1 arAllFramesReady d
         used_thread_data (blank_frame yuv444p8)
       = Some (Some out, thread_data')
    /\ (forall c, c < 0 \/ size <= c * bytesPerSample yuv444p8 ->
          padded thread_data' c = padded used_thread_data c)
    /\ (forall c, c < 0 \/ size2 <= c * 4 ->
          padded2 thread_data' c = padded2 used_thread_data c).
Proof.
  destruct (DFTTestCreate yuv_args) as [msg|d] eqn:E; [vm_compute in E; discriminate|].
  destruct (DFTTestCreate_accepted _ _ E) as (En & _ & Hr & Hbs & Hst & _ & _).
  exists d.
  destruct (X13_DFTTestGetFrame_writes_inside_buffers fused_identity (fun _ => vec_zero)
              1 d yuv444p8 used_thread_data (blank_frame yuv444p8))
    as (size & size2 & out & td' & H).
  - rewrite En. reflexivity.
  - exact Hbs.
  - rewrite Hst. cbn. lia.
  - apply sizes_fit_int_intro;
      [exact Hbs | exact Hr | cbn; lia | rewrite En; cbn; lia | rewrite En; cbn; lia
       | rewrite Hst; cbn; lia].
  - unfold center_frame. rewrite En. clear. cbn. intros p Hp.
    destruct (Z.eq_dec p 0) as [ -> |H0]; [simpl; lia|].
    destruct (Z.eq_dec p 1) as [ -> |H1]; [simpl; lia|].
    replace p with 2 by lia. simpl. lia.
  - exists size, size2, out, td'. split; [reflexivity|exact H].
Defined.


(** X15 for [gray8_args_32], once with blank buffers and once with
    buffers that hold earlier data. *)
Lemma X15_DFTTestGetFrame_ignores_stale_buffers_witness :
  exists d out td1' td2',
    DFTTestCreate gray8_args_32 = inr d
    /\ DFTTestGetFrame fused_identity (fun _ => vec_zero) 1 arAllFramesReady d
         blank_thread_data blank_frame_32 = Some (Some out, td1')
    /\ DFTTestGetFrame fused_identity (fun _ => vec_zero) 1 arAllFramesReady d
         used_thread_data blank_frame_32 = Some (Some out, td2').
Proof.
  destruct (DFTTestCreate gray8_args_32) as [msg|d] eqn:E; [vm_compute in E; discriminate|].
  destruct (DFTTestCreate_accepted _ _ E) as (En & _ & Hr & Hbs & Hst & _ & _).
  exists d.
  destruct (X15_DFTTestGetFrame_ignores_stale_buffers fused_identity (fun _ => vec_zero)
              1 d gray8 blank_thread_data used_thread_data blank_frame_32)
    as (out & td1' & td2' & H).
  - rewrite En. reflexivity.
  - exact Hbs.
  - rewrite Hst. cbn. lia.
  - lia.
  - left. reflexivity.
  - unfold center_frame. rewrite En. clear. cbn. intros p Hp _.
    replace p with 0 by lia. cbn. lia.
  - exists out, td1', td2'. split; [reflexivity|exact H].
Defined.

(** ** The registry of per-thread buffers *)

Import Registry.

Lemma zcount_ext (f g : thread_id -> bool) (l : list thread_id) :
  (forall u, In u l -> g u = f u) -> zcount g l = zcount f l.
Proof.
  induction l as [|a l IH]; intros H; [reflexivity|].
  cbn [zcount]. rewrite (H a (or_introl eq_refl)). rewrite IH; [reflexivity|].
  intros u Hu. apply H. right. exact Hu.
Qed.

Lemma zcount_update (f g : thread_id -> bool) (l : list thread_id) (t : thread_id) :
  NoDup l -> In t l -> (forall u, u <> t -> g u = f u) ->
  zcount g l = zcount f l - b2z (f t) + b2z (g t).
Proof.
  induction l as [|a l IH]; intros Hnd Hin H; [destruct Hin|].
  inversion Hnd as [|? ? Hna Hnd']; subst. cbn [zcount].
  destruct Hin as [->|Hin].
  - rewrite (zcount_ext f g l); [lia|].
    intros u Hu. apply H. intros ->. contradiction.
  - rewrite (IH Hnd' Hin H). rewrite (H a); [lia|].
    intros ->. contradiction.
Qed.

Lemma zcount_bounds (f : thread_id -> bool) (l : list thread_id) :
  0 <= zcount f l <= Z.of_nat (List.length l).
Proof.
  induction l as [|a l IH]; cbn [zcount List.length]; [lia|].
  unfold b2z. destruct (f a); lia.
Qed.

Lemma zcount_zero (f : thread_id -> bool) (l : list thread_id) (t : thread_id) :
  zcount f l = 0 -> In t l -> f t = false.
Proof.
  induction l as [|a l IH]; intros Hz Hin; [destruct Hin|].
  cbn [zcount] in Hz. pose proof (zcount_bounds f l).
  unfold b2z in Hz. destruct Hin as [->|Hin].
  - destruct (f t); [lia|reflexivity].
  - apply IH; [destruct (f a); lia|exact Hin].
Qed.

Lemma zcount_all (f : thread_id -> bool) (l : list thread_id) :
  (forall u, In u l -> f u = true) -> zcount f l = Z.of_nat (List.length l).
Proof.
  induction l as [|a l IH]; intros H; [reflexivity|].
  cbn [zcount List.length]. rewrite (H a (or_introl eq_refl)).
  rewrite IH; [unfold b2z; lia|]. intros u Hu. apply H. right. exact Hu.
Qed.

Lemma set_pc_same (pcs : thread_id -> pc_t) (t : thread_id) (p : pc_t) :
  set_pc pcs t p t = p.
Proof. unfold set_pc. rewrite Nat.eqb_refl. reflexivity. Qed.

Lemma set_pc_other (pcs : thread_id -> pc_t) (t u : thread_id) (p : pc_t) :
  u <> t -> set_pc pcs t p u = pcs u.
Proof.
  intros H. unfold set_pc. destruct (Nat.eqb_spec u t); [contradiction|reflexivity].
Qed.

Lemma invariant_init (slack : Z) (pool : list thread_id) :
  invariant slack pool (init (slack + Z.of_nat (List.length pool))).
Proof.
  constructor; cbn [init num_uninitialized_threads pc readers writer].
  - f_equal. symmetry. apply zcount_all. intros u _. reflexivity.
  - intros t H. discriminate H.
  - intros t. exact I.
  - intros t _. split; reflexivity.
  - symmetry. rewrite (zcount_ext (fun _ => false)); [|intros; reflexivity].
    induction pool as [|a l IH]; [reflexivity|]. cbn [zcount b2z]. exact IH.
  - symmetry. rewrite (zcount_ext (fun _ => false)); [|intros; reflexivity].
    induction pool as [|a l IH]; [reflexivity|]. cbn [zcount b2z]. exact IH.
  - intros H. discriminate H.
Qed.

Lemma zcount_ge (f : thread_id -> bool) (l : list thread_id) (t : thread_id) :
  In t l -> b2z (f t) <= zcount f l.
Proof.
  induction l as [|a l IH]; intros Hin; [destruct Hin|].
  cbn [zcount]. pose proof (zcount_bounds f l).
  destruct Hin as [->|Hin]; [lia|].
  specialize (IH Hin). unfold b2z in *. destruct (f a); lia.
Qed.

Lemma emplace_same (m : thread_id -> option DFTTestThreadData) (t : thread_id)
    (b : DFTTestThreadData) :
  has_entry (emplace m t b) t = true.
Proof.
  unfold has_entry, emplace. rewrite Nat.eqb_refl. destruct (m t); reflexivity.
Qed.

Lemma emplace_other (m : thread_id -> option DFTTestThreadData) (t u : thread_id)
    (b : DFTTestThreadData) :
  u <> t -> emplace m t b u = m u.
Proof.
  intros H. unfold emplace. destruct (Nat.eqb_spec u t); [contradiction|reflexivity].
Qed.

Section RegistryInvariant.
Variable malloc : thread_id -> DFTTestThreadData.
Variable slack : Z.
Variable pool : list thread_id.
Hypothesis slack_nonneg : 0 <= slack.
Hypothesis pool_NoDup : NoDup pool.

(** A step that moves thread [t] and leaves the entries of the other
    threads alone changes the three counts by what [t] itself
    contributes. *)
Lemma count_moved (s s' : state) (t : thread_id) (p : pc_t) :
  In t pool ->
  pc s' = set_pc (pc s) t p ->
  (forall u, u <> t -> thread_data s' u = thread_data s u) ->
  zcount (uncounted s') pool
  = zcount (uncounted s) pool
    - b2z (uncounted_at (pc s t) (has_entry (thread_data s) t))
    + b2z (uncounted_at p (has_entry (thread_data s') t))
  /\ zcount (fun u => is_reader (pc s' u)) pool
     = zcount (fun u => is_reader (pc s u)) pool - b2z (is_reader (pc s t))
       + b2z (is_reader p)
  /\ zcount (fun u => is_writer (pc s' u)) pool
     = zcount (fun u => is_writer (pc s u)) pool - b2z (is_writer (pc s t))
       + b2z (is_writer p).
Proof.
  intros Hin Epc Etd. split; [|split].
  - rewrite (zcount_update (uncounted s) (uncounted s') pool t pool_NoDup Hin).
    + unfold uncounted. rewrite Epc, set_pc_same. reflexivity.
    + intros u Hu. unfold uncounted, has_entry.
      rewrite Epc, set_pc_other by exact Hu. rewrite Etd by exact Hu. reflexivity.
  - rewrite (zcount_update (fun u => is_reader (pc s u)) (fun u => is_reader (pc s' u))
               pool t pool_NoDup Hin).
    + rewrite Epc, set_pc_same. reflexivity.
    + intros u Hu. rewrite Epc, set_pc_other by exact Hu. reflexivity.
  - rewrite (zcount_update (fun u => is_writer (pc s u)) (fun u => is_writer (pc s' u))
               pool t pool_NoDup Hin).
    + rewrite Epc, set_pc_same. reflexivity.
    + intros u Hu. rewrite Epc, set_pc_other by exact Hu. reflexivity.
Qed.

(** The other threads stand where they stood and have the entries they
    had. *)
Lemma others_kept (s s' : state) (t : thread_id) (p : pc_t) :
  pc s' = set_pc (pc s) t p ->
  (forall u, u <> t -> thread_data s' u = thread_data s u) ->
  invariant slack pool s ->
  In t pool ->
  (forall u, u <> t ->
     match pc s' u with
     | at_lock | at_emplace => has_entry (thread_data s') u = false
     | at_unlock | at_fetch_sub | running => has_entry (thread_data s') u = true
     | at_unlock_shared initialized => initialized = has_entry (thread_data s') u
     | terminated => False
     | at_load | at_fast_at | at_lock_shared | at_slow_at => True
     end)
  /\ (forall u, ~ In u pool -> pc s' u = at_load /\ has_entry (thread_data s') u = false)
  /\ (forall u, u <> t -> pc s' u = at_fast_at -> num_uninitialized_threads s = 0).
Proof.
  intros Epc Etd Hinv Hin. split; [|split].
  - intros u Hu. unfold has_entry. rewrite Epc, set_pc_other by exact Hu.
    rewrite Etd by exact Hu. apply (inv_entry slack pool s Hinv u).
  - intros u Hu. assert (Hne : u <> t) by (intros ->; contradiction).
    unfold has_entry. rewrite Epc, set_pc_other by exact Hne. rewrite Etd by exact Hne.
    apply (inv_outside slack pool s Hinv u Hu).
  - intros u Hu E. rewrite Epc, set_pc_other in E by exact Hu.
    apply (inv_fast slack pool s Hinv u E).
Qed.

(** The invariant for the state after a move of [t] to [p], from what
    the move does to the counter, to [t]'s entry and to the lock. *)
Lemma invariant_moved (s s' : state) (t : thread_id) (p : pc_t) :
  In t pool -> invariant slack pool s ->
  pc s' = set_pc (pc s) t p ->
  (forall u, u <> t -> thread_data s' u = thread_data s u) ->
  num_uninitialized_threads s'
  = num_uninitialized_threads s
    - b2z (uncounted_at (pc s t) (has_entry (thread_data s) t))
    + b2z (uncounted_at p (has_entry (thread_data s') t)) ->
  (p = at_fast_at -> num_uninitialized_threads s' = 0) ->
  (num_uninitialized_threads s = 0 -> num_uninitialized_threads s' = 0) ->
  match p with
  | at_lock | at_emplace => has_entry (thread_data s') t = false
  | at_unlock | at_fetch_sub | running => has_entry (thread_data s') t = true
  | at_unlock_shared initialized => initialized = has_entry (thread_data s') t
  | terminated => False
  | at_load | at_fast_at | at_lock_shared | at_slow_at => True
  end ->
  Z.of_nat (readers s')
  = Z.of_nat (readers s) - b2z (is_reader (pc s t)) + b2z (is_reader p) ->
  b2z (writer s') = b2z (writer s) - b2z (is_writer (pc s t)) + b2z (is_writer p) ->
  (writer s' = true -> readers s' = 0%nat) ->
  invariant slack pool s'.
Proof.
  intros Hin Hinv Epc Etd Hcnt Hfast Hzero Hent Hrd Hwr Hex.
  destruct (count_moved s s' t p Hin Epc Etd) as (C1 & C2 & C3).
  destruct (others_kept s s' t p Epc Etd Hinv Hin) as (O1 & O2 & O3).
  constructor.
  - rewrite C1, Hcnt, (inv_counter slack pool s Hinv). lia.
  - intros u E. destruct (Nat.eq_dec u t) as [->|Hu].
    + rewrite Epc, set_pc_same in E. apply Hfast. exact E.
    + apply Hzero. apply (O3 u Hu E).
  - intros u. destruct (Nat.eq_dec u t) as [->|Hu]; [|exact (O1 u Hu)].
    rewrite Epc, set_pc_same. exact Hent.
  - exact O2.
  - rewrite C2, Hrd, (inv_readers slack pool s Hinv). reflexivity.
  - rewrite C3, Hwr, (inv_writer slack pool s Hinv). reflexivity.
  - exact Hex.
Qed.

Lemma invariant_step (t : thread_id) (s s' : state) :
  In t pool -> invariant slack pool s -> step malloc t s = Some s' -> invariant slack pool s'.
Proof.
  intros Hin Hinv Hstep.
  pose proof (inv_counter slack pool s Hinv) as Hc.
  pose proof (inv_fast slack pool s Hinv t) as Hf.
  pose proof (inv_entry slack pool s Hinv t) as He.
  pose proof (inv_readers slack pool s Hinv) as Hr.
  pose proof (inv_writer slack pool s Hinv) as Hw.
  assert (Gc : b2z (uncounted_at (pc s t) (has_entry (thread_data s) t))
               <= zcount (uncounted s) pool)
    by exact (zcount_ge (uncounted s) pool t Hin).
  pose proof (zcount_ge (fun u => is_reader (pc s u)) pool t Hin) as Gr.
  pose proof (zcount_ge (fun u => is_writer (pc s u)) pool t Hin) as Gw.
  pose proof (zcount_bounds (fun u => is_writer (pc s u)) pool) as Bw.
  pose proof (zcount_bounds (uncounted s) pool) as Bc.
  pose proof (inv_excl slack pool s Hinv) as Hx.
  cbv beta in Gr, Gw.
  assert (Hmoved : forall p,
            pc s' = set_pc (pc s) t p ->
            (forall u, u <> t -> thread_data s' u = thread_data s u) ->
            num_uninitialized_threads s'
            = num_uninitialized_threads s
              - b2z (uncounted_at (pc s t) (has_entry (thread_data s) t))
              + b2z (uncounted_at p (has_entry (thread_data s') t)) ->
            (p = at_fast_at -> num_uninitialized_threads s' = 0) ->
            (num_uninitialized_threads s = 0 -> num_uninitialized_threads s' = 0) ->
            match p with
            | at_lock | at_emplace => has_entry (thread_data s') t = false
            | at_unlock | at_fetch_sub | running => has_entry (thread_data s') t = true
            | at_unlock_shared initialized => initialized = has_entry (thread_data s') t
            | terminated => False
            | at_load | at_fast_at | at_lock_shared | at_slow_at => True
            end ->
            Z.of_nat (readers s')
            = Z.of_nat (readers s) - b2z (is_reader (pc s t)) + b2z (is_reader p) ->
            b2z (writer s') = b2z (writer s) - b2z (is_writer (pc s t)) + b2z (is_writer p) ->
            (writer s' = true -> readers s' = 0%nat) ->
            invariant slack pool s')
    by (intros p; apply invariant_moved; assumption).
  unfold step in Hstep.
  destruct (pc s t) eqn:Ep; cbn [uncounted_at is_reader is_writer b2z] in *.
  - (* at_load *)
    apply Some_inj in Hstep. subst s'.
    cbn [num_uninitialized_threads thread_data readers writer pc] in Hmoved.
    destruct (Z.eqb_spec (num_uninitialized_threads s) 0) as [E0|E0].
    + apply (Hmoved at_fast_at); cbn [uncounted_at is_reader is_writer b2z];
        try reflexivity; try lia; auto; try discriminate;
      try (intros Hwt; first [discriminate Hwt | exact (Hx Hwt) | assumption
                             | rewrite (Hx Hwt); reflexivity]).
    + apply (Hmoved at_lock_shared); cbn [uncounted_at is_reader is_writer b2z];
        try reflexivity; try lia; auto; try discriminate;
      try (intros Hwt; first [discriminate Hwt | exact (Hx Hwt) | assumption
                             | rewrite (Hx Hwt); reflexivity]).
  - (* at_fast_at *)
    assert (Hhas : has_entry (thread_data s) t = true).
    { specialize (Hf eq_refl).
      pose proof (zcount_zero (uncounted s) pool t ltac:(lia) Hin) as U.
      unfold uncounted in U. rewrite Ep in U. apply negb_false_iff in U. exact U. }
    pose proof Hhas as Hhas'. unfold has_entry in Hhas'.
    destruct (thread_data s t) as [b|] eqn:Et; [|discriminate Hhas'].
    apply Some_inj in Hstep. subst s'.
    cbn [num_uninitialized_threads thread_data readers writer pc] in Hmoved.
    apply (Hmoved running); cbn [uncounted_at is_reader is_writer b2z];
      try reflexivity; try lia; auto; try discriminate;
      try (intros Hwt; first [discriminate Hwt | exact (Hx Hwt) | assumption
                             | rewrite (Hx Hwt); reflexivity]).
  - (* at_lock_shared *)
    destruct (writer s) eqn:Ew; [discriminate Hstep|].
    apply Some_inj in Hstep. subst s'.
    cbn [num_uninitialized_threads thread_data readers writer pc] in Hmoved.
    apply (Hmoved at_slow_at); cbn [uncounted_at is_reader is_writer b2z];
      try reflexivity; try lia; auto; try discriminate;
      try (intros Hwt; first [discriminate Hwt | exact (Hx Hwt) | assumption
                             | rewrite (Hx Hwt); reflexivity]).
  - (* at_slow_at *)
    apply Some_inj in Hstep. subst s'.
    cbn [num_uninitialized_threads thread_data readers writer pc] in Hmoved.
    apply (Hmoved (at_unlock_shared
                     match thread_data s t with Some _ => true | None => false end));
      cbn [uncounted_at is_reader is_writer b2z]; try reflexivity; try lia; auto; try discriminate;
      try (intros Hwt; first [discriminate Hwt | exact (Hx Hwt) | assumption
                             | rewrite (Hx Hwt); reflexivity]).
  - (* at_unlock_shared *)
    apply Some_inj in Hstep. subst s'.
    cbn [num_uninitialized_threads thread_data readers writer pc] in Hmoved.
    apply (Hmoved (if initialized then running else at_lock));
      destruct initialized; cbn [uncounted_at is_reader is_writer b2z];
      try reflexivity; try lia; auto; try discriminate;
      try (intros Hwt; first [discriminate Hwt | exact (Hx Hwt) | assumption
                             | rewrite (Hx Hwt); reflexivity]).
  - (* at_lock *)
    destruct (writer s) eqn:Ew; [discriminate Hstep|].
    destruct (Nat.eqb_spec (readers s) 0) as [Er|]; [|discriminate Hstep].
    cbn [orb negb] in Hstep. apply Some_inj in Hstep. subst s'.
    cbn [num_uninitialized_threads thread_data readers writer pc] in Hmoved.
    apply (Hmoved at_emplace); cbn [uncounted_at is_reader is_writer b2z];
      try reflexivity; try lia; auto; try discriminate;
      try (intros Hwt; first [discriminate Hwt | exact (Hx Hwt) | assumption
                             | rewrite (Hx Hwt); reflexivity]).
  - (* at_emplace *)
    apply Some_inj in Hstep. subst s'.
    cbn [num_uninitialized_threads thread_data readers writer pc] in Hmoved.
    apply (Hmoved at_unlock); rewrite ?He, ?emplace_same;
      cbn [uncounted_at is_reader is_writer b2z negb];
      try reflexivity; try lia; auto; try discriminate;
      try (intros Hwt; first [discriminate Hwt | exact (Hx Hwt) | assumption
                             | rewrite (Hx Hwt); reflexivity]).
    intros u Hu. apply emplace_other. exact Hu.
  - (* at_unlock *)
    apply Some_inj in Hstep. subst s'.
    cbn [num_uninitialized_threads thread_data readers writer pc] in Hmoved.
    apply (Hmoved at_fetch_sub); cbn [uncounted_at is_reader is_writer b2z];
      try reflexivity; try lia; auto; try discriminate;
      try (intros Hwt; first [discriminate Hwt | exact (Hx Hwt) | assumption
                             | rewrite (Hx Hwt); reflexivity]).
    unfold b2z in *. destruct (writer s); lia.
  - (* at_fetch_sub *)
    apply Some_inj in Hstep. subst s'.
    cbn [num_uninitialized_threads thread_data readers writer pc] in Hmoved.
    apply (Hmoved running); rewrite ?He;
      cbn [uncounted_at is_reader is_writer b2z negb];
      try reflexivity; try lia; auto; try discriminate;
      try (intros Hwt; first [discriminate Hwt | exact (Hx Hwt) | assumption
                             | rewrite (Hx Hwt); reflexivity]).
  - (* running *)
    apply Some_inj in Hstep. subst s'.
    cbn [num_uninitialized_threads thread_data readers writer pc] in Hmoved.
    apply (Hmoved at_load); cbn [uncounted_at is_reader is_writer b2z];
      try reflexivity; try lia; auto; try discriminate;
      try (intros Hwt; first [discriminate Hwt | exact (Hx Hwt) | assumption
                             | rewrite (Hx Hwt); reflexivity]).
  - (* terminated *)
    discriminate Hstep.
Qed.

End RegistryInvariant.

Lemma zcount_two (f : thread_id -> bool) (l : list thread_id) (t u : thread_id) :
  In t l -> In u l -> t <> u -> f t = true -> f u = true -> 2 <= zcount f l.
Proof.
  induction l as [|a l IH]; intros Ht Hu Hne Ft Fu; [destruct Ht|].
  cbn [zcount]. pose proof (zcount_bounds f l) as B.
  destruct Ht as [->|Ht]; destruct Hu as [->|Hu].
  - contradiction.
  - pose proof (zcount_ge f l u Hu) as G. rewrite Ft, Fu in *. cbn [b2z] in *. lia.
  - pose proof (zcount_ge f l t Ht) as G. rewrite Ft, Fu in *. cbn [b2z] in *. lia.
  - specialize (IH Ht Hu Hne Ft Fu). unfold b2z. destruct (f a); lia.
Qed.

Lemma run_invariant (malloc : thread_id -> DFTTestThreadData) (slack : Z)
    (pool : list thread_id) :
  0 <= slack -> NoDup pool ->
  forall (schedule : list thread_id) (s : state),
    Forall (fun t => In t pool) schedule ->
    invariant slack pool s -> invariant slack pool (run malloc schedule s).
Proof.
  intros Hs Hnd. induction schedule as [|t rest IH]; intros s Hsched Hinv; [exact Hinv|].
  inversion Hsched as [|? ? Ht Hrest]; subst. cbn [run].
  apply IH; [exact Hrest|].
  destruct (step malloc t s) as [s'|] eqn:E; [|exact Hinv].
  apply (invariant_step malloc slack pool Hs Hnd t s s' Ht Hinv E).
Qed.

Lemma pool_member (slack : Z) (pool : list thread_id) (s : state) (t : thread_id) :
  invariant slack pool s -> pc s t <> at_load -> In t pool.
Proof.
  intros Hinv Hpc. destruct (in_dec Nat.eq_dec t pool) as [Hin|Hout]; [exact Hin|].
  destruct (inv_outside slack pool s Hinv t Hout) as [E _]. contradiction.
Qed.

(** X17: when no more distinct threads call [DFTTestGetFrame] than the
    counter was set to, then in every state the threads can reach, in
    whatever order they take their steps: no thread has been terminated
    by a missing entry; the counter lies between zero and its first
    value; once it is zero every thread of the pool has its entry; and
    a thread that is on the lock-free path finds its entry.  With one
    thread more than the counter allows for, the lock-free lookup can
    fail: after a single worker has registered, a second thread is
    terminated. *)
Theorem X17_registry_lock_free_lookup_safe
    (malloc : thread_id -> DFTTestThreadData) (numThreads : Z)
    (pool schedule : list thread_id) :
  NoDup pool -> Z.of_nat (List.length pool) <= numThreads ->
  Forall (fun t => In t pool) schedule ->
  (forall t, pc (run malloc schedule (init numThreads)) t <> terminated)
  /\ 0 <= num_uninitialized_threads (run malloc schedule (init numThreads)) <= numThreads
  /\ (num_uninitialized_threads (run malloc schedule (init numThreads)) = 0 ->
      forall t, In t pool ->
        thread_data (run malloc schedule (init numThreads)) t <> None)
  /\ (forall t, pc (run malloc schedule (init numThreads)) t = at_fast_at ->
        thread_data (run malloc schedule (init numThreads)) t <> None)
  /\ pc (run malloc [0; 0; 0; 0; 0; 0; 0; 0; 1; 1]%nat (init 1)) 1%nat = terminated.
Proof.
  intros Hnd Hlen Hsched.
  set (slack := numThreads - Z.of_nat (List.length pool)).
  assert (Hslack : 0 <= slack) by (subst slack; lia).
  assert (Hinv : invariant slack pool (run malloc schedule (init numThreads))).
  { apply (run_invariant malloc slack pool Hslack Hnd schedule _ Hsched).
    replace numThreads with (slack + Z.of_nat (List.length pool)) by (subst slack; lia).
    apply invariant_init. }
  set (s := run malloc schedule (init numThreads)) in *.
  pose proof (inv_counter slack pool s Hinv) as Hc.
  pose proof (zcount_bounds (uncounted s) pool) as Bc.
  assert (Hzero : num_uninitialized_threads s = 0 ->
                  forall t, In t pool -> thread_data s t <> None).
  { intros H0 t Hin.
    pose proof (zcount_zero (uncounted s) pool t ltac:(lia) Hin) as U.
    pose proof (inv_entry slack pool s Hinv t) as He.
    unfold uncounted, uncounted_at in U. unfold has_entry in U, He.
    destruct (thread_data s t); [discriminate|].
    destruct (pc s t); discriminate. }
  split.
  { intros t E. pose proof (inv_entry slack pool s Hinv t) as He. rewrite E in He. exact He. }
  split; [subst slack; lia|].
  split; [exact Hzero|].
  split.
  - intros t E. apply Hzero.
    + apply (inv_fast slack pool s Hinv t E).
    + apply (pool_member slack pool s t Hinv). rewrite E. discriminate.
  - reflexivity.
Qed.

(** X17 for two worker threads that take turns. *)
Lemma X17_registry_lock_free_lookup_safe_witness :
  (forall t,
     pc (run (fun _ => blank_thread_data) [0; 1; 0; 1; 0; 1; 0; 1; 0; 1]%nat (init 2)) t
     <> terminated)
  /\ 0 <= num_uninitialized_threads
            (run (fun _ => blank_thread_data) [0; 1; 0; 1; 0; 1; 0; 1; 0; 1]%nat (init 2))
       <= 2
  /\ (num_uninitialized_threads
        (run (fun _ => blank_thread_data) [0; 1; 0; 1; 0; 1; 0; 1; 0; 1]%nat (init 2)) = 0 ->
      forall t, In t [0; 1]%nat ->
        thread_data
          (run (fun _ => blank_thread_data) [0; 1; 0; 1; 0; 1; 0; 1; 0; 1]%nat (init 2)) t
        <> None)
  /\ (forall t,
        pc (run (fun _ => blank_thread_data) [0; 1; 0; 1; 0; 1; 0; 1; 0; 1]%nat (init 2)) t
        = at_fast_at ->
        thread_data
          (run (fun _ => blank_thread_data) [0; 1; 0; 1; 0; 1; 0; 1; 0; 1]%nat (init 2)) t
        <> None)
  /\ pc (run (fun _ => blank_thread_data) [0; 0; 0; 0; 0; 0; 0; 0; 1; 1]%nat (init 1)) 1%nat
     = terminated.
Proof.
  apply (X17_registry_lock_free_lookup_safe (fun _ => blank_thread_data) 2
           [0; 1]%nat [0; 1; 0; 1; 0; 1; 0; 1; 0; 1]%nat).
  - constructor; [simpl; intros [H|[]]; discriminate H|].
    constructor; [simpl; tauto|constructor].
  - simpl. lia.
  - repeat (constructor; [simpl; tauto|]). constructor.
Defined.

(** X18: under the same condition, while a thread stands at its
    [emplace] it has no entry yet (so the entry it makes is new and no
    buffers are replaced), and no other thread stands at an [emplace],
    at a lookup under the shared lock, or at the lock-free lookup: the
    map is never read or written by another thread while it is being
    written. *)
Theorem X18_registry_emplace_is_exclusive
    (malloc : thread_id -> DFTTestThreadData) (numThreads : Z)
    (pool schedule : list thread_id) (t u : thread_id) :
  NoDup pool -> Z.of_nat (List.length pool) <= numThreads ->
  Forall (fun t => In t pool) schedule ->
  pc (run malloc schedule (init numThreads)) t = at_emplace ->
  u <> t ->
  thread_data (run malloc schedule (init numThreads)) t = None
  /\ pc (run malloc schedule (init numThreads)) u <> at_emplace
  /\ pc (run malloc schedule (init numThreads)) u <> at_slow_at
  /\ pc (run malloc schedule (init numThreads)) u <> at_fast_at.
Proof.
  intros Hnd Hlen Hsched Et Hne.
  set (slack := numThreads - Z.of_nat (List.length pool)).
  assert (Hslack : 0 <= slack) by (subst slack; lia).
  assert (Hinv : invariant slack pool (run malloc schedule (init numThreads))).
  { apply (run_invariant malloc slack pool Hslack Hnd schedule _ Hsched).
    replace numThreads with (slack + Z.of_nat (List.length pool)) by (subst slack; lia).
    apply invariant_init. }
  set (s := run malloc schedule (init numThreads)) in *.
  assert (Hint : In t pool) by (apply (pool_member slack pool s t Hinv); rewrite Et; discriminate).
  pose proof (inv_entry slack pool s Hinv t) as He. rewrite Et in He.
  pose proof (inv_writer slack pool s Hinv) as Hw.
  pose proof (zcount_ge (fun v => is_writer (pc s v)) pool t Hint) as Gw.
  cbv beta in Gw. rewrite Et in Gw. cbn [is_writer b2z] in Gw.
  assert (Ew : writer s = true) by (unfold b2z in Hw; destruct (writer s); [reflexivity|lia]).
  split.
  { unfold has_entry in He. destruct (thread_data s t); [discriminate|reflexivity]. }
  split.
  { intros Eu.
    assert (Hinu : In u pool)
      by (apply (pool_member slack pool s u Hinv); rewrite Eu; discriminate).
    pose proof (zcount_two (fun v => is_writer (pc s v)) pool t u Hint Hinu
                  (fun E => Hne (eq_sym E))) as G2.
    cbv beta in G2. rewrite Et, Eu in G2. specialize (G2 eq_refl eq_refl).
    rewrite Ew in Hw. cbn [b2z] in Hw. lia. }
  split.
  { intros Eu.
    assert (Hinu : In u pool)
      by (apply (pool_member slack pool s u Hinv); rewrite Eu; discriminate).
    pose proof (inv_excl slack pool s Hinv Ew) as Hr0.
    pose proof (inv_readers slack pool s Hinv) as Hr.
    pose proof (zcount_ge (fun v => is_reader (pc s v)) pool u Hinu) as Gr.
    cbv beta in Gr. rewrite Eu in Gr. cbn [is_reader b2z] in Gr. lia. }
  intros Eu.
  pose proof (inv_fast slack pool s Hinv u Eu) as H0.
  pose proof (inv_counter slack pool s Hinv) as Hc.
  pose proof (zcount_bounds (uncounted s) pool) as Bc.
  pose proof (zcount_zero (uncounted s) pool t ltac:(lia) Hint) as U.
  unfold uncounted in U. rewrite Et, He in U. discriminate U.
Qed.

(** X18 for two worker threads, the first of which has taken the lock. *)
Lemma X18_registry_emplace_is_exclusive_witness :
  thread_data (run (fun _ => blank_thread_data) [0; 1; 0; 1; 0; 1; 0; 1; 0]%nat (init 2)) 0%nat
  = None
  /\ pc (run (fun _ => blank_thread_data) [0; 1; 0; 1; 0; 1; 0; 1; 0]%nat (init 2)) 1%nat
     <> at_emplace
  /\ pc (run (fun _ => blank_thread_data) [0; 1; 0; 1; 0; 1; 0; 1; 0]%nat (init 2)) 1%nat
     <> at_slow_at
  /\ pc (run (fun _ => blank_thread_data) [0; 1; 0; 1; 0; 1; 0; 1; 0]%nat (init 2)) 1%nat
     <> at_fast_at.
Proof.
  apply (X18_registry_emplace_is_exclusive (fun _ => blank_thread_data) 2
           [0; 1]%nat [0; 1; 0; 1; 0; 1; 0; 1; 0]%nat 0%nat 1%nat).
  - constructor; [simpl; intros [H|[]]; discriminate H|].
    constructor; [simpl; tauto|constructor].
  - simpl. lia.
  - repeat (constructor; [simpl; tauto|]). constructor.
  - reflexivity.
  - discriminate.
Defined.
